(** * Signal-to-position pipeline of the trading bot: a shallow embedding

    The Python sources (risk.py, trade.py, executor.py, main.py, zones.py,
    swing_strategy.py, utils.py, position_watcher.py, metrics.py) are
    embedded as Rocq functions.

    Conventions used throughout:
    - a Python [float] is an exact rational ([Q]); the binary rounding of
      IEEE doubles is outside the model, decimal rounding ([round(x, n)])
      is inside it.  Where the program compares or floors a computed
      double, model and program can differ within the rounding error of the
      threshold; the statements about [risk_gates_ok],
      [_is_rejection_wick], [_cluster_levels] and [_round_volume_to_step]
      keep that distance from it (see [slack]);
    - a module-level [dict] is a [gmap], a module-level [set] is a [gset];
    - calls into the MetaTrader5 terminal are answered by an explicit
      venue record, so every theorem quantifies over all venue behaviours;
    - a Python exception is a [None] result or an explicit outcome
      constructor, at the place where the source catches it;
    - logging and chat notifications do not influence control flow (their
      own failures are swallowed at every call site) and only the log lines
      a statement needs are recorded. *)

From Stdlib Require Import ZArith QArith Qround Qabs Qminmax Qreduction Qcanon.
From Stdlib Require Import String Ascii Lia Lqa Bool.
From stdpp Require Import gmap strings list sorting.

Local Open Scope Q_scope.
Local Open Scope string_scope.

(** ** Python numerics on rationals *)

Definition Qltb (a b : Q) : bool := negb (Qle_bool b a).

(** [x or d] for a float attribute that may be absent: [None] and [0.0]
    are both falsy. *)
Definition or_default (o : option Q) (d : Q) : Q :=
  match o with
  | Some v => if Qeq_bool v 0 then d else v
  | None => d
  end.

(** Float division; [None] stands for [ZeroDivisionError]. *)
Definition py_div (a b : Q) : option Q :=
  if Qeq_bool b 0 then None else Some (a / b).

Definition pow10 (n : nat) : Q := inject_Z (10 ^ Z.of_nat n).

(** Nearest integer, ties to even: the rounding rule of Python's [round]. *)
Definition round_half_even (x : Q) : Z :=
  let f := Qfloor x in
  match Qcompare (x - inject_Z f) (1 # 2) with
  | Lt => f
  | Gt => (f + 1)%Z
  | Eq => if Z.even f then f else (f + 1)%Z
  end.

(** [round(x, ndigits)] for [ndigits >= 0]; the result is kept in lowest
    terms so that equal values are equal terms. *)
Definition py_round (x : Q) (ndigits : nat) : Q :=
  Qred (inject_Z (round_half_even (x * pow10 ndigits)) / pow10 ndigits).

(** [max(0, int(round(-math.log10(s))))] for [s > 0].  [round(-log10 s)] is
    at most [k] exactly when [s^2 > 10^-(2k+1)] (no rational sits on a tie,
    since an odd power of ten is not a rational square), so the value is the
    least such [k]; it never exceeds the bit length of the denominator,
    which bounds the search. *)
Fixpoint round_neg_log10_from (fuel k : nat) (s : Q) : nat :=
  match fuel with
  | O => k
  | S fuel' =>
      if Qltb 1 (s * s * pow10 (2 * k + 1)) then k
      else round_neg_log10_from fuel' (S k) s
  end.

Definition round_neg_log10 (s : Q) : nat :=
  round_neg_log10_from (S (Z.to_nat (Z.log2 (Zpos (Qden s))))) 0 s.

(** [max(0, -int(math.floor(math.log10(s))))] for [0 < s < 1]: the least
    [k >= 1] with [s >= 10^-k]. *)
Fixpoint neg_floor_log10_from (fuel k : nat) (s : Q) : nat :=
  match fuel with
  | O => k
  | S fuel' =>
      if Qle_bool 1 (s * pow10 k) then k
      else neg_floor_log10_from fuel' (S k) s
  end.

Definition neg_floor_log10 (s : Q) : nat :=
  neg_floor_log10_from (S (Z.to_nat (Z.log2 (Zpos (Qden s))))) 1 s.

(** ** Python strings *)

Fixpoint endswith (s suffix : string) : bool :=
  if String.eqb s suffix then true
  else match s with
       | EmptyString => false
       | String _ s' => endswith s' suffix
       end.

Definition startswith (s pre : string) : bool := String.prefix pre s.

(** [needle in s] *)
Fixpoint contains (needle s : string) : bool :=
  if String.prefix needle s then true
  else match s with
       | EmptyString => false
       | String _ s' => contains needle s'
       end.

Definition lower_ascii (c : ascii) : ascii :=
  let n := nat_of_ascii c in
  if (65 <=? n)%nat && (n <=? 90)%nat then ascii_of_nat (n + 32) else c.

(** [s.lower()] on the ASCII range, which is all the venue comments and
    direction words use. *)
Fixpoint lower (s : string) : string :=
  match s with
  | EmptyString => EmptyString
  | String c s' => String (lower_ascii c) (lower s')
  end.

(** ** config.py *)

Record Config := {
  POSITION_MODE : string;
  RISK_PCT : Q;
  MAX_RISK_PER_TRADE_PCT : Q;
  LOTS_FIXED : Q;
  FAT_FINGER_MAX_LOTS : Q;
  MAX_DRAWDOWN_PCT : Q;
  MAX_DAILY_LOSS_PCT : Q;
  CONSECUTIVE_LOSS_LIMIT : Z;
  MAX_POSITIONS_PER_SYMBOL : Z;
  USE_TRAILING : bool;
  TRAILING_R_MULT : Q;
  BREAKEVEN_RR : Q;
  PARTIAL_TP_ENABLED : bool;
  PARTIAL_TP_PERCENT : Q;
  PARTIAL_TP_RR : Q;
  PARTIAL_TP_MIN_LOT : Q;
  TRADE_ENABLED : bool;
  NOTIFY_ONLY : bool;
  COOLDOWN_SECONDS : Z;
  STARTUP_PROTECTION_CYCLES : Z
}.

(** The values config.py falls back to when the environment sets nothing. *)
Definition default_config : Config := {|
  POSITION_MODE := "PERCENT";
  RISK_PCT := 0.01;
  MAX_RISK_PER_TRADE_PCT := 0.005;
  LOTS_FIXED := 0.01;
  FAT_FINGER_MAX_LOTS := 5;
  MAX_DRAWDOWN_PCT := 0.08;
  MAX_DAILY_LOSS_PCT := 0.02;
  CONSECUTIVE_LOSS_LIMIT := 2;
  MAX_POSITIONS_PER_SYMBOL := 2;
  USE_TRAILING := true;
  TRAILING_R_MULT := 0.5;
  BREAKEVEN_RR := 1;
  PARTIAL_TP_ENABLED := false;
  PARTIAL_TP_PERCENT := 50;
  PARTIAL_TP_RR := 1;
  PARTIAL_TP_MIN_LOT := 0.01;
  TRADE_ENABLED := true;
  NOTIFY_ONLY := false;
  COOLDOWN_SECONDS := 30;
  STARTUP_PROTECTION_CYCLES := 3
|}.

(** ** The venue's symbol description ([mt5.symbol_info]) *)

(** An attribute is [None] when the terminal's object does not carry it. *)
Record SymbolInfo := {
  trade_tick_value : option Q;
  trade_tick_size : option Q;
  trade_contract_size : option Q;
  volume_step : option Q;
  volume_min : option Q;
  volume_max : option Q;
  trade_allowed : option bool
}.

(** ** risk.py *)

Definition pip_size (symbol : string) : Q :=
  if endswith symbol "JPY" then 0.01
  else if startswith symbol "XAU" then 0.1
  else 0.0001.

(** The venue limits [compute_lots] reads off the symbol description. *)
Definition lot_step_of (info : SymbolInfo) : Q := or_default (volume_step info) 0.01.
Definition min_lot_of (info : SymbolInfo) : Q := or_default (volume_min info) 0.01.
Definition max_lot_of (cfg : Config) (info : SymbolInfo) : Q :=
  Qmin (or_default (volume_max info) 100) (FAT_FINGER_MAX_LOTS cfg).

(** [try: max(0, int(round(-math.log10(lot_step)))) except: 2]; the
    logarithm raises on a non-positive step. *)
Definition step_decimals (lot_step : Q) : nat :=
  if Qle_bool lot_step 0 then 2%nat else round_neg_log10 lot_step.

(** The volume before flooring: the fixed lot, or the risk budget divided by
    the money at stake per lot. *)
Definition raw_lots (cfg : Config) (info : SymbolInfo) (symbol : string)
    (entry sl equity : Q) : option Q :=
  if String.eqb (POSITION_MODE cfg) "FIXED" then Some (LOTS_FIXED cfg)
  else
    let stop_pips := Qmax 1e-9 (Qabs (entry - sl) / pip_size symbol) in
    let tick_value := or_default (trade_tick_value info) 1 in
    let tick_size := or_default (trade_tick_size info) (pip_size symbol) in
    let value_per_pip := tick_value * (pip_size symbol / tick_size) in
    let chosen_risk_pct := Qmin (RISK_PCT cfg) (MAX_RISK_PER_TRADE_PCT cfg) in
    let risk_amount := equity * chosen_risk_pct in
    per_contract ← py_div risk_amount (stop_pips * value_per_pip);
    py_div per_contract (default 1 (trade_contract_size info)).

(** [compute_lots]; [info] is what [mt5.symbol_info(symbol)] returned and
    [None] as a result is a raised exception. *)
Definition compute_lots (cfg : Config) (info : option SymbolInfo)
    (symbol : string) (entry sl equity : Q) : option Q :=
  info ← info;
  lots ← raw_lots cfg info symbol entry sl equity;
  let lot_step := lot_step_of info in
  let min_lot := min_lot_of info in
  let max_lot := max_lot_of cfg info in
  let lots :=
    if Qltb 0 lot_step
    then inject_Z (Qfloor (Qmax 0 lots / lot_step)) * lot_step
    else lots in
  let lots := Qmax min_lot (Qmin max_lot lots) in
  Some (py_round lots (step_decimals lot_step)).

(** What the two journal/history readers of the risk gate returned; [None]
    is a raised exception, which the gate logs and ignores. *)
Record RiskFeeds := {
  daily_pnl_from_logs : option (Z * Q);
  consecutive_losses_today : option Z
}.

Definition daily_loss_trips (cfg : Config) (feeds : RiskFeeds) (balance : Q) : bool :=
  match daily_pnl_from_logs feeds with
  | Some (_, daily_pnl) =>
      Qltb daily_pnl 0 && Qle_bool (balance * MAX_DAILY_LOSS_PCT cfg) (Qabs daily_pnl)
  | None => false
  end.

Definition consecutive_loss_trips (cfg : Config) (feeds : RiskFeeds) : bool :=
  match consecutive_losses_today feeds with
  | Some losses => (CONSECUTIVE_LOSS_LIMIT cfg <=? losses)%Z
  | None => false
  end.

(** The drawdown [dd] is the exact quotient; the program's is the double
    quotient, which can be an ulp to either side of it. *)
Definition risk_gates_ok (cfg : Config) (feeds : RiskFeeds)
    (equity_start balance equity : Q) : bool :=
  let dd := (equity_start - equity) / Qmax 1e-9 equity_start in
  if Qle_bool (MAX_DRAWDOWN_PCT cfg) dd then false
  else if daily_loss_trips cfg feeds balance then false
  else if consecutive_loss_trips cfg feeds then false
  else true.

(** ** The terminal ([MetaTrader5]) as seen by trade.py and executor.py *)

Inductive PositionType := POSITION_TYPE_BUY | POSITION_TYPE_SELL.
Inductive OrderType := ORDER_TYPE_BUY | ORDER_TYPE_SELL.

Record Tick := { bid : Q; ask : Q }.

(** An open position as [mt5.positions_get] lists it. *)
Record Position := {
  ticket : Z;
  pos_symbol : string;
  pos_type : PositionType;
  price_open : Q;
  pos_sl : Q;
  pos_tp : Q;
  pos_volume : Q
}.

(** The result object of [mt5.order_send]. *)
Record OrderResult := {
  retcode : Z;
  res_comment : string;
  deal : Z;
  order : Z
}.

(** A call into the terminal either raises or returns. *)
Inductive Answer (A : Type) := Raises | Returns (a : A).
Arguments Raises {A}.
Arguments Returns {A} a.

(** A request with [action = TRADE_ACTION_DEAL]. *)
Record DealRequest := {
  deal_symbol : string;
  deal_volume : Q;
  deal_type : OrderType;
  deal_price : Q;
  deal_sl : option Q;
  deal_tp : option Q;
  deal_deviation : Z;
  deal_magic : Z;
  deal_comment : string;
  deal_type_filling : option Z
}.

(** A request with [action = TRADE_ACTION_SLTP]. *)
Record SltpRequest := {
  sltp_position : Z;
  sltp_sl : Q;
  sltp_tp : option Q
}.

Inductive Request := Deal (d : DealRequest) | Sltp (m : SltpRequest).

(** The terminal: every query the code makes, answered.  Tick queries and
    order submissions are indexed by how many were made before, so that the
    terminal may answer each call differently. *)
Record Terminal := {
  symbol_info : string -> option SymbolInfo;
  symbol_info_tick : nat -> string -> option Tick;
  order_send : nat -> Request -> Answer (option OrderResult);
  positions_get : option string -> Answer (option (list Position));
  ORDER_FILLING_IOC : option Z;
  ORDER_FILLING_FOK : option Z;
  ORDER_FILLING_RETURN : option Z;
  TRADE_RETCODE_DONE : option Z
}.

(** The process outside the terminal: the wall clock ([time.time()], indexed
    by the number of earlier reads) and the comment files. *)
Record Host := {
  clock : nat -> Q;
  load_comment : string -> option string
}.

(** trade.py's plan. *)
Record TradePlan := {
  symbol : string;
  direction : string;
  entry_price : Q;
  sl : Q;
  tp : Q;
  lots : Q;
  tf_entry : string;
  score : Q;
  comment : string
}.

(** Which code site issued a submission (a label of the model, so that
    statements can tell a breakeven move from a trailing move). *)
Inductive Origin := ByPlaceTrade | ByBreakeven | ByPartialTP | ByTrailing.

Record Submission := {
  sub_origin : Origin;
  sub_request : Request;
  sub_answer : Answer (option OrderResult)
}.

Inductive SkipReason :=
  startup_protection | no_signal | no_rising_edge | existing_position | cooldown.

(** The normalized plan signature
    [f"{plan.symbol}|{plan.direction}|{round(plan.entry_price, 5)}"], kept as
    its three components. *)
Record Signature := {
  sig_symbol : string;
  sig_direction : string;
  sig_entry : Q
}.

Definition signature_eqb (a b : Signature) : bool :=
  String.eqb (sig_symbol a) (sig_symbol b)
  && String.eqb (sig_direction a) (sig_direction b)
  && Qeq_bool (sig_entry a) (sig_entry b).

(** Everything the code did to the outside, most recent first, together
    with two traces of its own decisions: the calls of [place_trade] and the
    [PLAN_SKIP] log lines. *)
Record World := {
  submissions : list Submission;
  tick_queries : nat;
  clock_reads : nat;
  place_trade_calls : list TradePlan;
  plan_skips : list (string * SkipReason);
  journal : list (TradePlan * Z)
}.

Definition new_world : World := {|
  submissions := [];
  tick_queries := 0;
  clock_reads := 0;
  place_trade_calls := [];
  plan_skips := [];
  journal := []
|}.

Definition query_tick (term : Terminal) (sym : string) (w : World) : option Tick * World :=
  (symbol_info_tick term (tick_queries w) sym,
   {| submissions := submissions w;
      tick_queries := S (tick_queries w);
      clock_reads := clock_reads w;
      place_trade_calls := place_trade_calls w;
      plan_skips := plan_skips w;
      journal := journal w |}).

Definition submit (term : Terminal) (origin : Origin) (req : Request) (w : World)
    : Answer (option OrderResult) * World :=
  let answer := order_send term (length (submissions w)) req in
  (answer,
   {| submissions :=
        {| sub_origin := origin; sub_request := req; sub_answer := answer |}
        :: submissions w;
      tick_queries := tick_queries w;
      clock_reads := clock_reads w;
      place_trade_calls := place_trade_calls w;
      plan_skips := plan_skips w;
      journal := journal w |}).

Definition read_clock (host : Host) (w : World) : Q * World :=
  (clock host (clock_reads w),
   {| submissions := submissions w;
      tick_queries := tick_queries w;
      clock_reads := S (clock_reads w);
      place_trade_calls := place_trade_calls w;
      plan_skips := plan_skips w;
      journal := journal w |}).

Definition note_place_trade (plan : TradePlan) (w : World) : World :=
  {| submissions := submissions w;
     tick_queries := tick_queries w;
     clock_reads := clock_reads w;
     place_trade_calls := plan :: place_trade_calls w;
     plan_skips := plan_skips w;
     journal := journal w |}.

Definition note_skip (sym : string) (reason : SkipReason) (w : World) : World :=
  {| submissions := submissions w;
     tick_queries := tick_queries w;
     clock_reads := clock_reads w;
     place_trade_calls := place_trade_calls w;
     plan_skips := (sym, reason) :: plan_skips w;
     journal := journal w |}.

Definition append_journal (plan : TradePlan) (tk : Z) (w : World) : World :=
  {| submissions := submissions w;
     tick_queries := tick_queries w;
     clock_reads := clock_reads w;
     place_trade_calls := place_trade_calls w;
     plan_skips := plan_skips w;
     journal := (plan, tk) :: journal w |}.

(** ** trade.py *)

(** [steps] is the floor of the exact quotient; the program floors the
    double quotient, which is one less where the doubles fall short of a
    whole number ([(0.3 - 0.01) / 0.01] is 28.999999999999996). *)
Definition _round_volume_to_step (vol vol_min vol_max vol_step : Q) : Q :=
  if Qle_bool vol_step 0 then Qmax (Qmin vol vol_max) vol_min
  else
    let vol := Qmax vol_min (Qmin vol vol_max) in
    let steps := Qfloor ((vol - vol_min) / vol_step) in
    let vol_adj := vol_min + inject_Z steps * vol_step in
    let vol_adj := if Qltb vol_adj vol_min then vol_min else vol_adj in
    let prec := if Qltb vol_step 1 then neg_floor_log10 vol_step else 0%nat in
    py_round vol_adj (prec + 2).

(** [int(deal or order or 0)] *)
Definition _extract_ticket_from_result (res : OrderResult) : Z :=
  if (deal res =? 0)%Z then order res else deal res.

Definition is_buy_word (d : string) : bool :=
  let d := lower d in
  String.eqb d "long" || String.eqb d "buy" || String.eqb d "bull".

(** [build_order_request]; [None] is the [RuntimeError] raised when the
    terminal has no tick for the symbol. *)
Definition build_order_request (term : Terminal) (plan : TradePlan)
    (volume_override : option Q) (type_filling : option Z) (w : World)
    : option DealRequest * World :=
  let '(tick, w) := query_tick term (symbol plan) w in
  match tick with
  | None => (None, w)
  | Some tick =>
      (Some {| deal_symbol := symbol plan;
               deal_volume := default (lots plan) volume_override;
               deal_type := if is_buy_word (direction plan) then ORDER_TYPE_BUY else ORDER_TYPE_SELL;
               deal_price := if is_buy_word (direction plan) then ask tick else bid tick;
               deal_sl := Some (sl plan);
               deal_tp := Some (tp plan);
               deal_deviation := 20;
               deal_magic := 424242;
               deal_comment := substring 0 255 (comment plan);
               deal_type_filling := type_filling |}, w)
  end.

(** What the caller holds after [try: res = mt5.order_send(req) except:
    res = None]. *)
Definition result_of (a : Answer (option OrderResult)) : option OrderResult :=
  match a with
  | Raises => None
  | Returns r => r
  end.

Definition success_code (term : Terminal) (rc : Z) : bool :=
  (rc =? 0)%Z
  || match TRADE_RETCODE_DONE term with
     | Some done => (rc =? done)%Z
     | None => false
     end
  || (rc =? 10009)%Z.

Definition _is_success (term : Terminal) (r : option OrderResult) : bool :=
  match r with
  | None => false
  | Some r => success_code term (retcode r)
  end.

(** The rejection is put down to the filling mode. *)
Definition unsupported_filling (r : OrderResult) : bool :=
  (retcode r =? 10030)%Z
  || contains "unsupported filling" (lower (res_comment r))
  || contains "filling" (lower (res_comment r)).

(** [list(dict.fromkeys(l))]: first occurrences, in order. *)
Fixpoint dict_fromkeys (l : list Z) : list Z :=
  match l with
  | [] => []
  | x :: l' => x :: List.filter (fun y => negb (y =? x)%Z) (dict_fromkeys l')
  end.

Definition filling_candidates (term : Terminal) : list Z :=
  dict_fromkeys
    (omap id [ORDER_FILLING_IOC term; ORDER_FILLING_FOK term; ORDER_FILLING_RETURN term]).

(** The loop over the alternate filling modes. *)
Fixpoint fallback_fillings (term : Terminal) (plan : TradePlan) (vol_ok : Q)
    (candidates : list Z) (w : World) : option Z * World :=
  match candidates with
  | [] => (None, w)
  | fm :: rest =>
      match build_order_request term plan (Some vol_ok) (Some fm) w with
      | (None, w) => fallback_fillings term plan vol_ok rest w
      | (Some req_f, w) =>
          let '(answer, w) := submit term ByPlaceTrade (Deal req_f) w in
          let r2 := result_of answer in
          if _is_success term r2 then (_extract_ticket_from_result <$> r2, w)
          else
            match r2 with
            | Some r =>
                if unsupported_filling r
                then fallback_fillings term plan vol_ok rest w
                else (None, w)
            | None => fallback_fillings term plan vol_ok rest w
            end
      end
  end.

(** The venue part of [place_trade]'s validation: the symbol must be
    tradable and the volume, adjusted to the venue's step and bounds, must
    lie within them.  The result is the adjusted volume. *)
Definition venue_volume (si : SymbolInfo) (plan : TradePlan) : option Q :=
  if negb (default true (trade_allowed si)) then None
  else
    let vol_min := or_default (volume_min si) 0.01 in
    let vol_max := or_default (volume_max si) (Qmax (lots plan) 100) in
    let vol_step := or_default (volume_step si) 0.01 in
    let vol_ok := _round_volume_to_step (lots plan) vol_min vol_max vol_step in
    if Qltb vol_ok vol_min || Qltb vol_max vol_ok then None else Some vol_ok.

(** [place_trade].  The default-filling submission is followed by the
    fallback loop when it was rejected for its filling mode or returned
    nothing.  [mt5.initialize()] and [mt5.symbol_select] are called for
    their effect on the terminal only and are left out. *)
Definition place_trade (cfg : Config) (term : Terminal) (plan : TradePlan) (w : World)
    : option Z * World :=
  let w := note_place_trade plan w in
  if NOTIFY_ONLY cfg || negb (TRADE_ENABLED cfg) then (None, w)
  else if Qltb (FAT_FINGER_MAX_LOTS cfg) (lots plan) then (None, w)
  else
    let si := symbol_info term (symbol plan) in
    let '(_, w) := query_tick term (symbol plan) w in
    match si ≫= (fun si => venue_volume si plan) with
    | None => (None, w)
    | Some vol_ok =>
        match build_order_request term plan (Some vol_ok) None w with
        | (None, w) => (None, w)
        | (Some req, w) =>
            let '(answer, w) := submit term ByPlaceTrade (Deal req) w in
            let res := result_of answer in
            if _is_success term res then (_extract_ticket_from_result <$> res, w)
            else
              match res with
              | Some r =>
                  if unsupported_filling r
                  then fallback_fillings term plan vol_ok (filling_candidates term) w
                  else (None, w)
              | None => fallback_fillings term plan vol_ok (filling_candidates term) w
              end
        end
    end.

(** The one-shot state of the lifecycle manager: the two module-level sets
    of tickets. *)
Record OneShot := {
  _breakeven_set_tickets : gset Z;
  _partial_closed_tickets : gset Z
}.

Definition no_one_shots : OneShot :=
  {| _breakeven_set_tickets := ∅; _partial_closed_tickets := ∅ |}.

(** [float(x) if x else None] *)
Definition truthy_price (x : Q) : option Q :=
  if Qeq_bool x 0 then None else Some x.

(** What [manage_open_positions] computes for one position before it acts. *)
Record Snapshot := {
  snap_price : Q;
  snap_entry : Q;
  snap_sl : option Q;
  snap_tp : option Q;
  snap_vol : Q;
  snap_risk : Q;
  snap_rr : Q
}.

Definition snapshot (p : Position) (tick : Tick) : Snapshot :=
  let price := match pos_type p with
               | POSITION_TYPE_SELL => bid tick
               | POSITION_TYPE_BUY => ask tick
               end in
  let entry := price_open p in
  let sl := truthy_price (pos_sl p) in
  let risk := match sl with
              | None => 0
              | Some sl => Qabs (entry - sl)
              end in
  let rr := if Qltb 0 risk then
              match pos_type p with
              | POSITION_TYPE_BUY => (price - entry) / risk
              | POSITION_TYPE_SELL => (entry - price) / risk
              end
            else 0 in
  {| snap_price := price;
     snap_entry := entry;
     snap_sl := sl;
     snap_tp := truthy_price (pos_tp p);
     snap_vol := pos_volume p;
     snap_risk := risk;
     snap_rr := rr |}.

(** The stop a breakeven move would replace, if the move tightens it. *)
Definition breakeven_tightens (p : Position) (s : Snapshot) : bool :=
  match pos_type p with
  | POSITION_TYPE_BUY =>
      match snap_sl s with
      | None => true
      | Some sl => Qltb sl (snap_entry s - 1e-9)
      end
  | POSITION_TYPE_SELL =>
      match snap_sl s with
      | None => true
      | Some sl => Qltb (snap_entry s + 1e-9) sl
      end
  end.

(** "Break-even one-shot": the block is left by an exception when the
    submission raises, before the ticket is recorded. *)
Definition breakeven_step (cfg : Config) (term : Terminal) (use_trailing : bool)
    (p : Position) (s : Snapshot) (st : OneShot) (w : World) : OneShot * World :=
  if USE_TRAILING cfg && use_trailing && Qltb 0 (snap_risk s)
     && Qle_bool (BREAKEVEN_RR cfg) (snap_rr s)
  then
    if bool_decide (ticket p ∈ _breakeven_set_tickets st) then (st, w)
    else if breakeven_tightens p s then
      let req := Sltp {| sltp_position := ticket p;
                         sltp_sl := snap_entry s;
                         sltp_tp := snap_tp s |} in
      match submit term ByBreakeven req w with
      | (Raises, w) => (st, w)
      | (Returns _, w) =>
          ({| _breakeven_set_tickets := {[ticket p]} ∪ _breakeven_set_tickets st;
              _partial_closed_tickets := _partial_closed_tickets st |}, w)
      end
    else (st, w)
  else (st, w).

(** "Partial TP one-shot".  The request comment is [f"partial_tp
    {percent:.0f}%"]; the formatted percentage is left out. *)
Definition partial_tp_step (cfg : Config) (term : Terminal)
    (p : Position) (tick : Tick) (s : Snapshot) (st : OneShot) (w : World)
    : OneShot * World :=
  if PARTIAL_TP_ENABLED cfg && Qltb 0 (snap_risk s)
     && Qle_bool (PARTIAL_TP_RR cfg) (snap_rr s)
  then
    if bool_decide (ticket p ∈ _partial_closed_tickets st) then (st, w)
    else
      let si := symbol_info term (pos_symbol p) in
      let vol_min := or_default (si ≫= volume_min) (PARTIAL_TP_MIN_LOT cfg) in
      let vol_step := or_default (si ≫= volume_step) 0.01 in
      let percent := Qmax 0 (Qmin 100 (PARTIAL_TP_PERCENT cfg)) in
      let desired_close_vol := snap_vol s * (percent / 100) in
      let partial_vol :=
        _round_volume_to_step desired_close_vol vol_min (snap_vol s) vol_step in
      if Qle_bool vol_min partial_vol && Qltb partial_vol (snap_vol s - 1e-9) then
        let order_type := match pos_type p with
                          | POSITION_TYPE_BUY => ORDER_TYPE_SELL
                          | POSITION_TYPE_SELL => ORDER_TYPE_BUY
                          end in
        let price_close := match order_type with
                           | ORDER_TYPE_SELL => bid tick
                           | ORDER_TYPE_BUY => ask tick
                           end in
        let req := Deal {| deal_symbol := pos_symbol p;
                           deal_volume := partial_vol;
                           deal_type := order_type;
                           deal_price := price_close;
                           deal_sl := None;
                           deal_tp := None;
                           deal_deviation := 20;
                           deal_magic := 424242;
                           deal_comment := "partial_tp";
                           deal_type_filling := None |} in
        match submit term ByPartialTP req w with
        | (Returns (Some r), w) =>
            if success_code term (retcode r) then
              ({| _breakeven_set_tickets := _breakeven_set_tickets st;
                  _partial_closed_tickets := {[ticket p]} ∪ _partial_closed_tickets st |}, w)
            else (st, w)
        | (_, w) => (st, w)
        end
      else (st, w)
  else (st, w).

(** The stop the trailing block asks for, when it asks for one. *)
Definition trailing_target (cfg : Config) (use_trailing : bool) (trailing_r_mult : Q)
    (p : Position) (s : Snapshot) : option Q :=
  if use_trailing && Qltb 0 (snap_risk s) && USE_TRAILING cfg then
    match pos_type p with
    | POSITION_TYPE_BUY =>
        if Qle_bool (trailing_r_mult * snap_risk s) (snap_price s - snap_entry s) then
          let new_sl := Qmax (or_default (snap_sl s) (-1e9))
                             (snap_price s - trailing_r_mult * snap_risk s) in
          match snap_sl s with
          | None => Some new_sl
          | Some sl => if Qltb 1e-8 (Qabs (new_sl - sl)) then Some new_sl else None
          end
        else None
    | POSITION_TYPE_SELL =>
        if Qle_bool (trailing_r_mult * snap_risk s) (snap_entry s - snap_price s) then
          let new_sl := Qmin (or_default (snap_sl s) 1e9)
                             (snap_price s + trailing_r_mult * snap_risk s) in
          match snap_sl s with
          | None => Some new_sl
          | Some sl => if Qltb 1e-8 (Qabs (new_sl - sl)) then Some new_sl else None
          end
        else None
    end
  else None.

(** "Trailing (regular)". *)
Definition trailing_step (cfg : Config) (term : Terminal) (use_trailing : bool)
    (trailing_r_mult : Q) (p : Position) (s : Snapshot) (w : World) : World :=
  match trailing_target cfg use_trailing trailing_r_mult p s with
  | Some new_sl =>
      snd (submit term ByTrailing
             (Sltp {| sltp_position := ticket p;
                      sltp_sl := new_sl;
                      sltp_tp := snap_tp s |}) w)
  | None => w
  end.

(** The body of the loop over the open positions. *)
Definition manage_position (cfg : Config) (term : Terminal) (use_trailing : bool)
    (trailing_r_mult : Q) (p : Position) (st : OneShot) (w : World) : OneShot * World :=
  let '(tick, w) := query_tick term (pos_symbol p) w in
  match tick with
  | None => (st, w)
  | Some tick =>
      let s := snapshot p tick in
      let '(st, w) := breakeven_step cfg term use_trailing p s st w in
      let '(st, w) := partial_tp_step cfg term p tick s st w in
      (st, trailing_step cfg term use_trailing trailing_r_mult p s w)
  end.

Fixpoint manage_positions (cfg : Config) (term : Terminal) (use_trailing : bool)
    (trailing_r_mult : Q) (pos_list : list Position) (st : OneShot) (w : World)
    : OneShot * World :=
  match pos_list with
  | [] => (st, w)
  | p :: rest =>
      let '(st, w) := manage_position cfg term use_trailing trailing_r_mult p st w in
      manage_positions cfg term use_trailing trailing_r_mult rest st w
  end.

(** [manage_open_positions]: [mt5.positions_get() or []], then the loop.  A
    raising [positions_get] leaves the function before it did anything. *)
Definition manage_open_positions (cfg : Config) (term : Terminal) (use_trailing : bool)
    (trailing_r_mult : Q) (st : OneShot) (w : World) : OneShot * World :=
  match positions_get term None with
  | Raises => (st, w)
  | Returns pos_list =>
      manage_positions cfg term use_trailing trailing_r_mult (default [] pos_list) st w
  end.

(** Successive cycles of the trading loop as far as the lifecycle manager
    is concerned: each cycle meets its own terminal and calls
    [manage_open_positions(use_trailing=USE_TRAILING,
    trailing_r_mult=TRAILING_R_MULT)]. *)
Fixpoint lifecycle_cycles (cfg : Config) (cycles : list Terminal) (st : OneShot) (w : World)
    : OneShot * World :=
  match cycles with
  | [] => (st, w)
  | term :: rest =>
      let '(st, w) :=
        manage_open_positions cfg term (USE_TRAILING cfg) (TRAILING_R_MULT cfg) st w in
      lifecycle_cycles cfg rest st w
  end.

(** ** executor.py *)

(** The module-level dictionaries of the execution coordinator. *)
Record Executor := {
  _bars_seen : gmap string Z;
  _started : gmap string bool;
  _last_signal : gmap string bool;
  _last_open_time : gmap string Q;
  _journal_logged_signature : gmap string Signature
}.

Definition new_executor : Executor := {|
  _bars_seen := ∅;
  _started := ∅;
  _last_signal := ∅;
  _last_open_time := ∅;
  _journal_logged_signature := ∅
|}.

Definition tick_symbol (cfg : Config) (sym : string) (ex : Executor) : Executor :=
  let c := (default 0 (_bars_seen ex !! sym) + 1)%Z in
  {| _bars_seen := <[sym := c]> (_bars_seen ex);
     _started := if (STARTUP_PROTECTION_CYCLES cfg <? c)%Z
                 then <[sym := true]> (_started ex)
                 else _started ex;
     _last_signal := _last_signal ex;
     _last_open_time := _last_open_time ex;
     _journal_logged_signature := _journal_logged_signature ex |}.

Definition set_last_signal (sym : string) (b : bool) (ex : Executor) : Executor :=
  {| _bars_seen := _bars_seen ex;
     _started := _started ex;
     _last_signal := <[sym := b]> (_last_signal ex);
     _last_open_time := _last_open_time ex;
     _journal_logged_signature := _journal_logged_signature ex |}.

Definition clear_signal (sym : string) (ex : Executor) : Executor :=
  set_last_signal sym false ex.

Definition set_last_open_time (sym : string) (t : Q) (ex : Executor) : Executor :=
  {| _bars_seen := _bars_seen ex;
     _started := _started ex;
     _last_signal := _last_signal ex;
     _last_open_time := <[sym := t]> (_last_open_time ex);
     _journal_logged_signature := _journal_logged_signature ex |}.

Definition set_journal_signature (sym : string) (sg : Signature) (ex : Executor) : Executor :=
  {| _bars_seen := _bars_seen ex;
     _started := _started ex;
     _last_signal := _last_signal ex;
     _last_open_time := _last_open_time ex;
     _journal_logged_signature := <[sym := sg]> (_journal_logged_signature ex) |}.

(** A raising [positions_get] counts as no open trade. *)
Definition _has_open_trade (cfg : Config) (term : Terminal) (sym : string) : bool :=
  match positions_get term (Some sym) with
  | Raises => false
  | Returns pos =>
      (MAX_POSITIONS_PER_SYMBOL cfg <=? Z.of_nat (length (default [] pos)))%Z
  end.

Definition _can_open_now (cfg : Config) (host : Host) (sym : string) (ex : Executor) (w : World)
    : bool * World :=
  let last := default 0 (_last_open_time ex !! sym) in
  let '(now, w) := read_clock host w in
  (Qle_bool (inject_Z (COOLDOWN_SECONDS cfg)) (now - last), w).

Definition _plan_signature (plan : TradePlan) : Signature :=
  {| sig_symbol := symbol plan;
     sig_direction := direction plan;
     sig_entry := py_round (entry_price plan) 5 |}.

(** Python truthiness of what [place_trade] returned: [None] and [0] are
    falsy. *)
Definition ticket_truthy (t : option Z) : bool :=
  match t with
  | Some z => negb (z =? 0)%Z
  | None => false
  end.

(** The admission decision of [execute_plan]: either the plan goes to
    [place_trade] or it is skipped for a reason. *)
Definition admission (cfg : Config) (term : Terminal) (host : Host) (sym : string)
    (ex : Executor) (w : World) : option SkipReason * World :=
  let started := default false (_started ex !! sym) in
  let prev_sig := default false (_last_signal ex !! sym) in
  if negb started then (Some startup_protection, w)
  else if prev_sig then (Some no_rising_edge, w)
  else if _has_open_trade cfg term sym then (Some existing_position, w)
  else
    let '(can, w) := _can_open_now cfg host sym ex w in
    if can then (None, w) else (Some cooldown, w).

(** [execute_plan].  [plan.symbol] is a [str] field of the dataclass, so
    the guard for a plan without symbol never fires. *)
Definition execute_plan (cfg : Config) (term : Terminal) (host : Host)
    (plan : TradePlan) (ex : Executor) (w : World) : option Z * (Executor * World) :=
  let sym := symbol plan in
  let plan :=
    match load_comment host (direction plan) with
    | Some c =>
        if String.eqb c "" then plan
        else {| symbol := symbol plan; direction := direction plan;
                entry_price := entry_price plan; sl := sl plan; tp := tp plan;
                lots := lots plan; tf_entry := tf_entry plan; score := score plan;
                comment := c |}
    | None => plan
    end in
  let '(reason_no_open, w) := admission cfg term host sym ex w in
  let '(tk, ex, w) :=
    match reason_no_open with
    | None =>
        let '(tk, w) := place_trade cfg term plan w in
        if ticket_truthy tk then
          let '(now, w) := read_clock host w in
          (tk, set_last_open_time sym now ex, w)
        else (tk, ex, w)
    | Some reason => (None, ex, note_skip sym reason w)
    end in
  let sg := _plan_signature plan in
  let should_write :=
    ticket_truthy tk
    || negb (from_option (signature_eqb sg) false (_journal_logged_signature ex !! sym)) in
  let '(ex, w) :=
    if should_write
    then (set_journal_signature sym sg ex, append_journal plan (default 0%Z tk) w)
    else (ex, w) in
  (tk, (set_last_signal sym true ex, w)).

(** ** main.py: the per-symbol part of one loop iteration *)

(** What [build_plan] did for the symbol. *)
Inductive PlanOutcome := BuildRaises | NoPlan | Built (plan : TradePlan).

Record Loop := {
  executor : Executor;
  _last_plan_signature : gmap string Signature
}.

Definition new_loop : Loop :=
  {| executor := new_executor; _last_plan_signature := ∅ |}.

Definition plan_signature (plan : TradePlan) : Signature := _plan_signature plan.

(** The plan repeats the signature last acted on for the symbol. *)
Definition duplicate_plan (s : string) (plan : TradePlan) (lp : Loop) : bool :=
  from_option (signature_eqb (plan_signature plan)) false (_last_plan_signature lp !! s).

(** The body of [for s in SYMBOLS]. *)
Definition loop_symbol (cfg : Config) (term : Terminal) (host : Host) (s : string)
    (built : PlanOutcome) (lp : Loop) (w : World) : Loop * World :=
  let ex := tick_symbol cfg s (executor lp) in
  match built with
  | BuildRaises =>
      ({| executor := ex; _last_plan_signature := _last_plan_signature lp |}, w)
  | NoPlan =>
      ({| executor := clear_signal s ex;
          _last_plan_signature := _last_plan_signature lp |}, w)
  | Built plan =>
      if duplicate_plan s plan lp then
        ({| executor := ex; _last_plan_signature := _last_plan_signature lp |}, w)
      else
        let '(tk, (ex, w)) := execute_plan cfg term host plan ex w in
        ({| executor := ex;
            _last_plan_signature :=
              if ticket_truthy tk
              then <[s := plan_signature plan]> (_last_plan_signature lp)
              else _last_plan_signature lp |}, w)
  end.

(** One visit of the loop to a symbol, with the terminal and host it meets. *)
Record Visit := {
  visit_term : Terminal;
  visit_host : Host;
  visit_symbol : string;
  visit_built : PlanOutcome
}.

Definition visit (cfg : Config) (v : Visit) (lp : Loop) (w : World) : Loop * World :=
  loop_symbol cfg (visit_term v) (visit_host v) (visit_symbol v) (visit_built v) lp w.

Fixpoint visits (cfg : Config) (vs : list Visit) (lp : Loop) (w : World) : Loop * World :=
  match vs with
  | [] => (lp, w)
  | v :: rest => let '(lp, w) := visit cfg v lp w in visits cfg rest lp w
  end.

(** ** Bars *)

(** One row of the rates frame; [bar_time] is seconds since the epoch. *)
Record Bar := {
  bar_time : Z;
  bar_open : Q;
  bar_high : Q;
  bar_low : Q;
  bar_close : Q
}.

(** ** swing_strategy.py: the rejection-wick test *)

Definition candle_body (c : Bar) : Q := Qabs (bar_close c - bar_open c).
Definition wick_top (c : Bar) : Q := bar_high c - Qmax (bar_open c) (bar_close c).
Definition wick_bottom (c : Bar) : Q := Qmin (bar_open c) (bar_close c) - bar_low c.

(** [df] is [None] for a missing frame; the candle is [df.iloc[-1]].  Body
    and wicks are exact differences of the four prices; the program's are
    differences of doubles. *)
Definition _is_rejection_wick (df : option (list Bar)) (direction : string)
    (body_wick_ratio : Q) : bool :=
  match df ≫= last with
  | None => false
  | Some c =>
      let body := candle_body c in
      let full := bar_high c - bar_low c in
      if Qle_bool full 0 then false
      else if String.eqb direction "bull" then
        Qle_bool (body * (1.5 / Qmax 1 body_wick_ratio)) (wick_bottom c)
        && Qle_bool (wick_top c) (body * 1)
      else
        Qle_bool (body * (1.5 / Qmax 1 body_wick_ratio)) (wick_top c)
        && Qle_bool (wick_bottom c) (body * 1)
  end.

(** ** zones.py *)

(** Python's [sorted]: a stable sort, here by insertion. *)
Fixpoint insert_sorted {A : Type} (leb : A -> A -> bool) (x : A) (l : list A) : list A :=
  match l with
  | [] => [x]
  | y :: l' => if leb x y then x :: y :: l' else y :: insert_sorted leb x l'
  end.

Definition py_sorted {A : Type} (leb : A -> A -> bool) (l : list A) : list A :=
  foldr (insert_sorted leb) [] l.

Definition Qge_bool (a b : Q) : bool := Qle_bool b a.

(** The distinct values of a list of floats, first occurrences kept: what a
    [set] or [Series.unique()] retains. *)
Fixpoint py_set (l : list Q) : list Q :=
  match l with
  | [] => []
  | x :: l' => x :: List.filter (fun y => negb (Qeq_bool y x)) (py_set l')
  end.

(** [np.mean] *)
Definition mean (l : list Q) : Q :=
  foldr Qplus 0 l / inject_Z (Z.of_nat (length l)).

Definition upper_ascii (c : ascii) : ascii :=
  let n := nat_of_ascii c in
  if (97 <=? n)%nat && (n <=? 122)%nat then ascii_of_nat (n - 32) else c.

Fixpoint upper (s : string) : string :=
  match s with
  | EmptyString => EmptyString
  | String c s' => String (upper_ascii c) (upper s')
  end.

Definition _symbol_pip (symbol : string) : Q :=
  if contains "JPY" (upper symbol) then 0.01 else 0.0001.

(** The rates source: [mt5.copy_rates_from_pos] ([None] when it returns
    nothing or raises) and the wall clock in seconds. *)
Record Feed := {
  copy_rates_from_pos : string -> string -> nat -> option (list Bar);
  utc_now : Q
}.

Definition TIMEFRAME_MAP : list string := ["M1"; "M5"; "M15"; "M30"; "H1"; "H4"; "D1"].

(** data.py's [fetch_rates]; [None] is a raised exception. *)
Definition fetch_rates (feed : Feed) (symbol tf : string) (bars : nat) : option (list Bar) :=
  if existsb (String.eqb tf) TIMEFRAME_MAP
  then copy_rates_from_pos feed symbol tf bars
  else None.

Definition _filter_last_days (feed : Feed) (df : list Bar) (days : Z) : list Bar :=
  let cutoff := utc_now feed - inject_Z (days * 86400) in
  List.filter (fun b => Qle_bool cutoff (inject_Z (bar_time b))) df.

Definition window_max (w : list Q) : Q := foldr Qmax (default 0 (head w)) w.
Definition window_min (w : list Q) : Q := foldr Qmin (default 0 (head w)) w.

(** Indices of the local maxima and of the local minima of a series. *)
Definition _local_extrema (series : list Q) (order : nat) : list nat * list nat :=
  let n := length series in
  if (n <? order * 2 + 1)%nat then ([], [])
  else
    let indices := seq order (n - order - order) in
    let window i := take (order + order + 1) (drop (i - order) series) in
    let center i := default 0 (series !! i) in
    (List.filter (fun i => Qle_bool (window_max (window i)) (center i)
                           && Qeq_bool (center i) (window_max (window i))) indices,
     List.filter (fun i => Qle_bool (center i) (window_min (window i))
                           && Qeq_bool (center i) (window_min (window i))) indices).

(** The greedy pass over the sorted levels: [cur] is the cluster being
    filled, [rest] the levels still to place.  The distance to the mean is
    exact; the program's is a difference of doubles. *)
Fixpoint cluster_run (tol : Q) (cur rest : list Q) : list Q :=
  match rest with
  | [] => [mean cur]
  | lv :: rest' =>
      if Qle_bool (Qabs (lv - mean cur)) tol
      then cluster_run tol (cur ++ [lv])%list rest'
      else mean cur :: cluster_run tol [lv] rest'
  end.

(** Raw levels within [tol] of [r]. *)
Definition support (tol : Q) (levels : list Q) (r : Q) : nat :=
  length (List.filter (fun v => Qle_bool (Qabs (v - r)) tol) levels).

(** The order of [key=lambda x: (-x[1], x[0])]. *)
Definition by_support_then_price (a b : Q * nat) : bool :=
  (snd b <? snd a)%nat || ((snd a =? snd b)%nat && Qle_bool (fst a) (fst b)).

(** The order of [key=lambda x: (-x[1], -x[0])]. *)
Definition by_support_then_high_price (a b : Q * nat) : bool :=
  (snd b <? snd a)%nat || ((snd a =? snd b)%nat && Qle_bool (fst b) (fst a)).

Definition cluster_tol (pip cluster_tol_multiplier : Q) : Q :=
  Qmax 1e-8 (pip * cluster_tol_multiplier).

Definition cluster_prec (pip : Q) : nat := if Qltb pip 0.0005 then 6%nat else 4%nat.

Definition _cluster_levels (levels : list Q) (pip cluster_tol_multiplier : Q)
    (max_levels : nat) : list Q :=
  let tol := cluster_tol pip cluster_tol_multiplier in
  match py_sorted Qle_bool levels with
  | [] => []
  | first :: rest =>
      let clusters := cluster_run tol [first] rest in
      let prec := cluster_prec pip in
      let rounded := py_sorted Qle_bool (py_set (map (fun x => py_round x prec) clusters)) in
      if (length rounded <=? max_levels)%nat then rounded
      else
        let sig := map (fun r => (r, support tol levels r)) rounded in
        let sig_sorted := py_sorted by_support_then_price sig in
        let top := map fst (take max_levels sig_sorted) in
        py_sorted Qle_bool top
  end.

(** The raw levels of one frame: swing highs and lows, then the twelve
    highest highs and the twelve lowest lows. *)
Definition raw_levels (df : list Bar) : list Q :=
  let highs := map bar_high df in
  let lows := map bar_low df in
  let highs_idx := fst (_local_extrema highs 3) in
  let lows_idx := snd (_local_extrema lows 3) in
  let top_highs := py_set (take 12 (py_sorted Qge_bool highs)) in
  let top_lows := py_set (take 12 (py_sorted Qle_bool lows)) in
  (omap (fun i => highs !! i) highs_idx ++ omap (fun i => lows !! i) lows_idx
   ++ top_highs ++ top_lows)%list.

Definition compute_zones_from_tf (feed : Feed) (symbol tf : string) (lookback_bars : nat)
    (days_limit : option Z) : list Q :=
  match fetch_rates feed symbol tf lookback_bars with
  | None | Some [] => []
  | Some df =>
      let df := match days_limit with
                | Some days => if (days =? 0)%Z then df else _filter_last_days feed df days
                | None => df
                end in
      match df with
      | [] => []
      | _ =>
          if (length df <? 5)%nat then []
          else
            let clustered := _cluster_levels (raw_levels df) (_symbol_pip symbol) 8 60 in
            py_sorted Qle_bool clustered
      end
  end.

Definition compute_zones_for_symbol (feed : Feed) (symbol : string)
    (tfs : option (list string)) (lookback_bars keep_top : nat) : list Q :=
  let tfs := default ["D1"; "H4"] tfs in
  let all_levels :=
    concat (map (fun tf => compute_zones_from_tf feed symbol tf lookback_bars None) tfs) in
  let pip := _symbol_pip symbol in
  let merged := _cluster_levels all_levels pip 8 (keep_top * 3) in
  match merged with
  | [] => []
  | _ =>
      let tol := pip * 8 in
      let significance := map (fun m => (m, support tol all_levels m)) merged in
      let significance_sorted := py_sorted by_support_then_high_price significance in
      let top := map (fun x => py_round (fst x) 6) (take keep_top significance_sorted) in
      py_sorted Qge_bool top
  end.

(** ** main.py: one iteration of the trading loop *)

(** [mt5.account_info()] as the loop reads it. *)
Record AccountInfo := {
  acc_balance : Q;
  acc_equity : Q
}.

(** [float(acc.equity) if acc else 0.0], and [0.0] when the call raises;
    likewise for the balance. *)
Definition equity_of (acc : Answer (option AccountInfo)) : Q :=
  match acc with
  | Returns (Some a) => acc_equity a
  | _ => 0
  end.

Definition balance_of (acc : Answer (option AccountInfo)) : Q :=
  match acc with
  | Returns (Some a) => acc_balance a
  | _ => 0
  end.

(** What one iteration meets: whether the clock is inside the session, the
    account snapshot, the risk gate's readers, the visits of
    [for s in SYMBOLS] and the terminal of the lifecycle sweep. *)
Record Cycle := {
  cycle_in_session : bool;
  cycle_account : Answer (option AccountInfo);
  cycle_feeds : RiskFeeds;
  cycle_visits : list Visit;
  cycle_sweep : Terminal
}.

(** The body of [while not _stop_event.is_set()], up to the lifecycle
    sweep.  Outside the session and under a denying risk gate the iteration
    is left by [continue]. *)
Definition trading_cycle (cfg : Config) (equity_start : Q) (c : Cycle)
    (lp : Loop) (st : OneShot) (w : World) : Loop * OneShot * World :=
  if negb (cycle_in_session c) then (lp, st, w)
  else
    let balance := balance_of (cycle_account c) in
    let equity := equity_of (cycle_account c) in
    if negb (risk_gates_ok cfg (cycle_feeds c) equity_start balance equity)
    then (lp, st, w)
    else
      let '(lp, w) := visits cfg (cycle_visits c) lp w in
      let '(st, w) :=
        manage_open_positions cfg (cycle_sweep c) (USE_TRAILING cfg) (TRAILING_R_MULT cfg)
          st w in
      (lp, st, w).

(** ** swing_strategy.py: candle patterns, zone touches, stop and target *)

(** [df.iloc[-2]] and [df.iloc[-1]] of a frame with at least two rows. *)
Definition last_two (df : list Bar) : option (Bar * Bar) :=
  match rev df with
  | cur :: prev :: _ => Some (prev, cur)
  | _ => None
  end.

Definition _is_bullish_engulfing (df : option (list Bar)) : bool :=
  match df ≫= last_two with
  | None => false
  | Some (prev, cur) =>
      Qltb (bar_close prev) (bar_open prev)
      && Qltb (bar_open cur) (bar_close cur)
      && Qltb (bar_open prev) (bar_close cur)
  end.

Definition _is_bearish_engulfing (df : option (list Bar)) : bool :=
  match df ≫= last_two with
  | None => false
  | Some (prev, cur) =>
      Qltb (bar_open prev) (bar_close prev)
      && Qltb (bar_close cur) (bar_open cur)
      && Qltb (bar_close cur) (bar_open prev)
  end.

(** Rows whose range comes within [tol] of [level]. *)
Definition _count_zone_touches (df : option (list Bar)) (level tol : Q) : nat :=
  match df with
  | None => 0%nat
  | Some rows =>
      length (List.filter (fun b => Qle_bool (level - tol) (bar_high b)
                                    && Qle_bool (bar_low b) (level + tol)) rows)
  end.

(** The volatility estimate of [_choose_sl_tp_from_rej]: the mean range of
    the last 14 bars, or half the range of the last bar of a shorter frame.
    [None] is the [IndexError] of an empty frame. *)
Definition entry_atr (df_entry : list Bar) : option Q :=
  if (14 <=? length df_entry)%nat
  then Some (mean (map (fun b => bar_high b - bar_low b)
                     (drop (length df_entry - 14) df_entry)))
  else (fun b => (bar_high b - bar_low b) * 0.5) <$> last df_entry.

(** [pip_size(symbol) if symbol else 0.0001], where [symbol] is the last
    entry of the frame's "symbol" column, [None] without such a column. *)
Definition entry_pip (df_symbol : option string) : Q :=
  match df_symbol with
  | Some s => if String.eqb s "" then 0.0001 else pip_size s
  | None => 0.0001
  end.

(** [_choose_sl_tp_from_rej]: entry, stop and target.  [None] is the
    [IndexError] raised on a frame of fewer than two rows. *)
Definition _choose_sl_tp_from_rej (df_entry : list Bar) (df_symbol : option string)
    (rej_idx : option nat) (direction : string) (account_equity : Q)
    : option (Q * Q * Q) :=
  let n := length df_entry in
  let fallback := Nat.max 1 (n - 2) in
  let rej_idx := match rej_idx with
                 | None => fallback
                 | Some i => if (i <? 1)%nat || (n <=? i)%nat then fallback else i
                 end in
  candle ← df_entry !! rej_idx;
  latest ← last df_entry;
  atr ← entry_atr df_entry;
  before ← df_entry !! (rej_idx - 1)%nat;
  let entry := bar_close latest in
  let buffer := Qmax (atr * 0.15) (entry * 0.0003) in
  let pip_buffer := 5 * entry_pip df_symbol in
  if String.eqb direction "bear" then
    let sl_candidate := Qmax (bar_high candle) (bar_high before) + buffer in
    let sl := Qmax sl_candidate (entry + pip_buffer) in
    let risk := Qabs (entry - sl) in
    let tp := entry - Qmax (risk * 2) (atr * 2) in
    Some (entry, sl, tp)
  else
    let sl_candidate := Qmin (bar_low candle) (bar_low before) - buffer in
    let sl := Qmin sl_candidate (entry - pip_buffer) in
    let risk := Qabs (entry - sl) in
    let tp := entry + Qmax (risk * 2) (atr * 2) in
    Some (entry, sl, tp).

(** ** utils.py: the session window *)

(** The decision of [in_ny_session] once the current instant has been
    converted to New York time: [tnow], [start_time] and [end_time] are
    times of day, in microseconds since midnight. *)
Definition in_ny_session (tnow start_time end_time : Z) : bool :=
  if (start_time <=? end_time)%Z
  then (start_time <=? tnow)%Z && (tnow <? end_time)%Z
  else (start_time <=? tnow)%Z || (tnow <? end_time)%Z.

(** ** position_watcher.py and metrics.py: closed deals *)

(** A deal of [mt5.history_deals_get]; an attribute is [None] when the
    terminal's object does not carry it. *)
Record HistoryDeal := {
  hd_entry : option Z;
  hd_position_id : option Z;
  hd_order : option Z;
  hd_profit : option Q;
  hd_commission : option Q;
  hd_swap : option Q;
  hd_symbol : option string
}.

(** [a or b] on optional integers: [None] and [0] are falsy. *)
Definition py_or (a b : option Z) : option Z :=
  match a with
  | Some z => if (z =? 0)%Z then b else a
  | None => b
  end.

(** [getattr(d, "entry", None) != mt5.DEAL_ENTRY_OUT], negated. *)
Definition is_exit (DEAL_ENTRY_OUT : Z) (d : HistoryDeal) : bool :=
  match hd_entry d with
  | Some e => (e =? DEAL_ENTRY_OUT)%Z
  | None => false
  end.

(** [profit + commission + swap], each read as [float(x or 0.0)]. *)
Definition aggregated (d : HistoryDeal) : Q :=
  or_default (hd_profit d) 0 + or_default (hd_commission d) 0 + or_default (hd_swap d) 0.

(** One value of the [closed_trades] dictionary. *)
Record ClosedTrade := {
  ct_pnl : Q;
  ct_symbol : string;
  ct_deals : nat
}.

(** [info = closed_trades[ticket]] followed by the three updates.  The
    dictionary is kept as the list of its items in insertion order, the
    order in which [closed_trades.items()] yields them. *)
Fixpoint record_deal (tk : Z) (pnl : Q) (sym : string) (closed : list (Z * ClosedTrade))
    : list (Z * ClosedTrade) :=
  match closed with
  | [] => [(tk, {| ct_pnl := 0 + pnl; ct_symbol := sym; ct_deals := 1 |})]
  | (k, info) :: rest =>
      if (k =? tk)%Z
      then (k, {| ct_pnl := ct_pnl info + pnl; ct_symbol := sym;
                  ct_deals := ct_deals info + 1 |}) :: rest
      else (k, info) :: record_deal tk pnl sym rest
  end.

(** The first loop of [scan_history_and_update]. *)
Definition closed_trades (DEAL_ENTRY_OUT : Z) (deals : list HistoryDeal)
    : list (Z * ClosedTrade) :=
  foldl (fun closed d =>
           if is_exit DEAL_ENTRY_OUT d then
             match py_or (hd_position_id d) (hd_order d) with
             | None => closed
             | Some tk => record_deal tk (aggregated d) (default "?" (hd_symbol d)) closed
             end
           else closed)
        [] deals.

Inductive CloseSummary := TP | SL | Flat.

(** The second loop of [scan_history_and_update]: per ticket, the journal
    row [update_closed_trade(ticket, pnl)] and the kind of notification. *)
Definition scan_history_and_update (DEAL_ENTRY_OUT : Z) (deals : list HistoryDeal)
    : list (Z * Q * CloseSummary) :=
  map (fun item =>
         let pnl := ct_pnl (snd item) in
         (fst item, pnl, if Qltb 0 pnl then TP else if Qltb pnl 0 then SL else Flat))
      (closed_trades DEAL_ENTRY_OUT deals).

(** metrics.py's [_sum_deals_pnl_mt5] over the deals the terminal returned:
    the number of distinct positions closed and the rounded sum. *)
Definition _sum_deals_pnl_mt5 (DEAL_ENTRY_OUT : Z) (deals : list HistoryDeal) : nat * Q :=
  let '(pnl_sum, closed_positions) :=
    foldl (fun '(pnl_sum, closed_positions) d =>
             if is_exit DEAL_ENTRY_OUT d then
               (pnl_sum + aggregated d,
                match py_or (py_or (hd_position_id d) (hd_order d)) None with
                | Some tk => {[tk]} ∪ closed_positions
                | None => closed_positions
                end)
             else (pnl_sum, closed_positions))
          (0, (∅ : gset Z)) deals in
  (size closed_positions, py_round pnl_sum 2).


(** * Vocabulary of the statements *)

(** Being a whole number of volume steps. *)
Definition on_grid (step v : Q) : Prop := exists n : Z, v == inject_Z n * step.

(** ** The submission log *)

(** The submissions made between an earlier world and a later one, most
    recent first. *)
Definition since (w w' : World) : list Submission :=
  take (length (submissions w') - length (submissions w)) (submissions w').

Definition is_breakeven_for (tk : Z) (s : Submission) : bool :=
  match sub_origin s, sub_request s with
  | ByBreakeven, Sltp m => (sltp_position m =? tk)%Z
  | _, _ => false
  end.

(** The submission came back (it did not raise). *)
Definition completed (s : Submission) : bool :=
  match sub_answer s with
  | Raises => false
  | Returns _ => true
  end.

(** Breakeven stop modifications issued for a ticket so far. *)
Definition breakeven_issued (tk : Z) (w : World) : nat :=
  length (List.filter (is_breakeven_for tk) (submissions w)).

(** Those among them that came back, i.e. after which the ticket was
    recorded. *)
Definition breakeven_applied (tk : Z) (w : World) : nat :=
  length (List.filter (fun s => is_breakeven_for tk s && completed s) (submissions w)).

(** How a stretch of execution may change what is known about ticket [tk]:
    once recorded it stays recorded and nothing more is issued for it;
    before that, either no breakeven modification came back for it, or
    exactly one did and recorded it. *)
Definition one_shot_step (tk : Z) (st : OneShot) (w : World) (st' : OneShot) (w' : World) : Prop :=
  (tk ∈ _breakeven_set_tickets st ->
     tk ∈ _breakeven_set_tickets st'
     /\ breakeven_issued tk w' = breakeven_issued tk w
     /\ breakeven_applied tk w' = breakeven_applied tk w)
  /\ (tk ∉ _breakeven_set_tickets st ->
        ((tk ∉ _breakeven_set_tickets st') /\ breakeven_applied tk w' = breakeven_applied tk w)
        \/ (tk ∈ _breakeven_set_tickets st'
            /\ breakeven_applied tk w' = S (breakeven_applied tk w))).

(** The later log is the earlier one with new submissions in front, each
    of them satisfying [P]. *)
Definition log_grows (P : Submission -> Prop) (w w' : World) : Prop :=
  exists new, submissions w' = (new ++ submissions w)%list /\ Forall P new.

(** A stop [new_sl] for the listed position [p] that tightens it: the
    position has a stop at a positive distance from its entry, the new stop
    differs from it by more than [1e-8], and it lies on the favourable side
    of both the listed stop and the entry. *)
Definition tightening (p : Position) (new_sl : Q) : Prop :=
  ~ pos_sl p == 0
  /\ 0 < Qabs (price_open p - pos_sl p)
  /\ 1e-8 < Qabs (new_sl - pos_sl p)
  /\ match pos_type p with
     | POSITION_TYPE_BUY => pos_sl p <= new_sl /\ price_open p <= new_sl
     | POSITION_TYPE_SELL => new_sl <= pos_sl p /\ new_sl <= price_open p
     end.

(** If the submission is a trailing move, it tightens the stop of one of
    the listed positions. *)
Definition trailing_justified (pos_list : list Position) (sub : Submission) : Prop :=
  sub_origin sub = ByTrailing ->
  exists p new_sl keep_tp,
    p ∈ pos_list
    /\ sub_request sub = Sltp {| sltp_position := ticket p; sltp_sl := new_sl; sltp_tp := keep_tp |}
    /\ tightening p new_sl.

(** The positions a sweep of [manage_open_positions] works on. *)
Definition listed_positions (term : Terminal) : list Position :=
  match positions_get term None with
  | Raises => []
  | Returns pos_list => default [] pos_list
  end.

(** The filling modes of a stretch of submissions, in the order they were
    tried ([None] is the default mode). *)
Definition filling_of (s : Submission) : option Z :=
  match sub_request s with
  | Deal d => deal_type_filling d
  | Sltp _ => None
  end.

Definition fillings_tried (new : list Submission) : list (option Z) :=
  map filling_of (rev new).

Definition succeeded (term : Terminal) (s : Submission) : bool :=
  _is_success term (result_of (sub_answer s)).

(** The checks of [place_trade] that come before the first submission, with
    the adjusted volume as result. *)
Definition reaches_submission (cfg : Config) (term : Terminal) (plan : TradePlan) : option Q :=
  if NOTIFY_ONLY cfg || negb (TRADE_ENABLED cfg) then None
  else if Qltb (FAT_FINGER_MAX_LOTS cfg) (lots plan) then None
  else symbol_info term (symbol plan) ≫= (fun si => venue_volume si plan).

(** The answer leaves the fallback loop running: nothing came back, or a
    rejection put down to the filling mode. *)
Definition filling_rejected (term : Terminal) (a : Answer (option OrderResult)) : bool :=
  match result_of a with
  | None => true
  | Some r => negb (success_code term (retcode r)) && unsupported_filling r
  end.

(** The terminal's answer to its [n]-th submission, whatever the request. *)
Definition answers_at (term : Terminal) (n : nat) (a : Answer (option OrderResult)) : Prop :=
  forall req, order_send term n req = a.

(** The terminal has a tick for the symbol whenever it is asked. *)
Definition quotes (term : Terminal) (sym : string) : Prop :=
  forall n, symbol_info_tick term n sym <> None.

(** What one run of the submission protocol leaves behind: the modes tried
    are taken in order from [modes], no submission before the latest one
    succeeded, and the result is the ticket of the latest one if that
    succeeded and nothing otherwise. *)
Definition protocol_log (term : Terminal) (modes : list (option Z)) (result : option Z)
    (new : list Submission) : Prop :=
  fillings_tried new `sublist_of` modes
  /\ match new with
     | [] => result = None
     | latest :: older =>
         Forall (fun s => succeeded term s = false) older
         /\ (succeeded term latest = true ->
             result = _extract_ticket_from_result <$> result_of (sub_answer latest))
         /\ (succeeded term latest = false -> result = None)
     end.

(** ** The execution coordinator *)

(** [_last_signal.get(sym, False)] and [_started.get(sym, False)] *)
Definition last_signal_of (ex : Executor) (sym : string) : bool :=
  default false (_last_signal ex !! sym).

Definition started_of (ex : Executor) (sym : string) : bool :=
  default false (_started ex !! sym).

(** Calls of [place_trade] made so far for a symbol: the execution attempts. *)
Definition attempts_for (sym : string) (w : World) : nat :=
  length (List.filter (fun p => String.eqb (symbol p) sym) (place_trade_calls w)).

(** A visit of the loop that is neither a plan for [s] nor a cycle without
    plan for [s]: [build_plan] raised, or the visit is to another symbol
    (whose plan, if any, is for the symbol visited). *)
Definition passes_by (s : string) (v : Visit) : Prop :=
  match visit_built v with
  | BuildRaises => True
  | NoPlan => visit_symbol v <> s
  | Built plan => visit_symbol v <> s /\ symbol plan = visit_symbol v
  end.

(** ** Levels *)

(** In lowest terms, as every result of [py_round] is. *)
Definition canonical (q : Q) : Prop := Qred q = q.

(** Neighbouring levels are more than [tol] apart. *)
Definition spaced (tol : Q) (l : list Q) : Prop :=
  Sorted (fun a b => tol < b - a) l.

(** A frame the zone detector gives up on: no data, or fewer than 5 bars. *)
Definition too_few_bars (feed : Feed) (symbol tf : string) (lookback_bars : nat) : Prop :=
  match fetch_rates feed symbol tf lookback_bars with
  | None => True
  | Some df => (length df < 5)%nat
  end.

(** A level as [_cluster_levels] emits it: a number rounded to [prec]
    decimals. *)
Definition rounded_to (prec : nat) (q : Q) : Prop := exists x, q = py_round x prec.

(** ** Orders of the execution engine *)



(** ** Sweeps of the lifecycle manager *)

(** The terminal quoted [tick] for the symbol at some query. *)
Definition quoted (term : Terminal) (sym : string) (tick : Tick) : Prop :=
  exists n, symbol_info_tick term n sym = Some tick.

(** The listed stop lies on the losing side of the entry, more than [1e-9]
    away from it. *)
Definition stop_behind_entry (p : Position) : Prop :=
  ~ pos_sl p == 0
  /\ match pos_type p with
     | POSITION_TYPE_BUY => pos_sl p < price_open p - 1e-9
     | POSITION_TYPE_SELL => price_open p + 1e-9 < pos_sl p
     end.

(** The breakeven modification of the listed position [p]: the stop goes to
    the entry price and the target is kept. *)
Definition breakeven_move (cfg : Config) (term : Terminal) (p : Position) (req : Request)
    : Prop :=
  stop_behind_entry p
  /\ (exists tick, quoted term (pos_symbol p) tick
                   /\ BREAKEVEN_RR cfg <= snap_rr (snapshot p tick))
  /\ req = Sltp {| sltp_position := ticket p;
                   sltp_sl := price_open p;
                   sltp_tp := truthy_price (pos_tp p) |}.

(** The side and the price of an order that closes part of [p]. *)
Definition closing_side (p : Position) : OrderType :=
  match pos_type p with
  | POSITION_TYPE_BUY => ORDER_TYPE_SELL
  | POSITION_TYPE_SELL => ORDER_TYPE_BUY
  end.

Definition closing_price (p : Position) (tick : Tick) : Q :=
  match pos_type p with
  | POSITION_TYPE_BUY => bid tick
  | POSITION_TYPE_SELL => ask tick
  end.

(** The least volume a partial close may have: the venue's minimum, or
    [PARTIAL_TP_MIN_LOT] where the venue names none. *)
Definition partial_min (cfg : Config) (term : Terminal) (p : Position) : Q :=
  or_default (symbol_info term (pos_symbol p) ≫= volume_min) (PARTIAL_TP_MIN_LOT cfg).

(** The partial close of the listed position [p]: a market order on the
    opposite side, without stop or target, for a volume of at least the
    minimum and less than the position's. *)
Definition partial_close (cfg : Config) (term : Terminal) (p : Position) (req : Request)
    : Prop :=
  ~ pos_sl p == 0
  /\ exists tick d,
       quoted term (pos_symbol p) tick
       /\ PARTIAL_TP_RR cfg <= snap_rr (snapshot p tick)
       /\ req = Deal d
       /\ deal_symbol d = pos_symbol p
       /\ deal_type d = closing_side p
       /\ deal_price d = closing_price p tick
       /\ partial_min cfg term p <= deal_volume d
       /\ deal_volume d < pos_volume p - 1e-9
       /\ deal_sl d = None /\ deal_tp d = None.

(** Both ticket sets only gain members. *)
Definition one_shots_grow (st st' : OneShot) : Prop :=
  _breakeven_set_tickets st ⊆ _breakeven_set_tickets st'
  /\ _partial_closed_tickets st ⊆ _partial_closed_tickets st'.

(** What entitles a sweep that started in state [st] over the positions
    [all] to a submission. *)
Definition sweep_justified (cfg : Config) (term : Terminal) (use_trailing : bool)
    (st : OneShot) (all : list Position) (sub : Submission) : Prop :=
  match sub_origin sub with
  | ByPlaceTrade => False
  | ByBreakeven =>
      USE_TRAILING cfg = true /\ use_trailing = true
      /\ exists p, p ∈ all /\ (ticket p ∉ _breakeven_set_tickets st)
                   /\ breakeven_move cfg term p (sub_request sub)
  | ByPartialTP =>
      PARTIAL_TP_ENABLED cfg = true
      /\ exists p, p ∈ all /\ (ticket p ∉ _partial_closed_tickets st)
                   /\ partial_close cfg term p (sub_request sub)
  | ByTrailing => USE_TRAILING cfg = true /\ use_trailing = true
  end.



(** ** Admission to execution *)

(** The plan as [execute_plan] hands it on: with the loaded comment, when
    one was loaded. *)
Definition with_comment (host : Host) (plan : TradePlan) : TradePlan :=
  match load_comment host (direction plan) with
  | Some c =>
      if String.eqb c "" then plan
      else {| symbol := symbol plan; direction := direction plan;
              entry_price := entry_price plan; sl := sl plan; tp := tp plan;
              lots := lots plan; tf_entry := tf_entry plan; score := score plan;
              comment := c |}
  | None => plan
  end.

(** The four conditions under which [execute_plan] attempts an order: the
    warm-up is over, the last-signal flag is down, the position cap is not
    reached, and the cooldown since the last opening has elapsed on the
    clock reading the check takes. *)
Definition admitted (cfg : Config) (term : Terminal) (host : Host) (sym : string)
    (ex : Executor) (w : World) : Prop :=
  started_of ex sym = true
  /\ last_signal_of ex sym = false
  /\ _has_open_trade cfg term sym = false
  /\ inject_Z (COOLDOWN_SECONDS cfg)
     <= clock host (clock_reads w) - default 0 (_last_open_time ex !! sym).

(** Visits of the loop to symbol [s]. *)
Definition visits_to (s : string) (vs : list Visit) : nat :=
  length (List.filter (fun v => String.eqb (visit_symbol v) s) vs).

(** The plan a visit built, if any, is for the symbol visited. *)
Definition plan_for_visited_symbol (v : Visit) : Prop :=
  match visit_built v with
  | Built plan => symbol plan = visit_symbol v
  | _ => True
  end.

(** The visit executes no plan for [s]. *)
Definition plans_elsewhere (s : string) (v : Visit) : Prop :=
  match visit_built v with
  | Built plan => symbol plan <> s
  | _ => True
  end.

(** The signature the journal last logged for the plan's symbol is the
    plan's own. *)
Definition journal_repeats (plan : TradePlan) (ex : Executor) : bool :=
  from_option (signature_eqb (_plan_signature plan)) false
    (_journal_logged_signature ex !! symbol plan).

(** ** The account snapshot *)

(** [mt5.account_info()] raised or returned nothing. *)
Definition unavailable (acc : Answer (option AccountInfo)) : Prop :=
  acc = Raises \/ acc = Returns None.

(** ** Volumes *)

(** The number of decimals [_round_volume_to_step] rounds its result to. *)
Definition volume_digits (vol_step : Q) : nat :=
  (if Qltb vol_step 1 then neg_floor_log10 vol_step else 0%nat) + 2.

(** A decimal number with at most [n] digits after the point. *)
Definition decimal (n : nat) (q : Q) : Prop :=
  exists m : Z, q == inject_Z m / pow10 n.

(** ** Prices *)

(** Every high and low of the bar lies within [lo] and [hi]. *)
Definition bar_within (lo hi : Q) (b : Bar) : Prop :=
  lo <= bar_low b /\ bar_low b <= hi /\ lo <= bar_high b /\ bar_high b <= hi.

(** The level lies between the two bounds, each rounded as levels are. *)
Definition level_within (prec : nat) (lo hi z : Q) : Prop :=
  py_round lo prec <= z /\ z <= py_round hi prec.

(** ** Closed deals *)

Definition sum_Q (l : list Q) : Q := foldr Qplus 0 l.

(** The ticket under which [scan_history_and_update] books a deal, if it
    books it: the deal is an exit and names a position or an order. *)
Definition booked_ticket (DEAL_ENTRY_OUT : Z) (d : HistoryDeal) : option Z :=
  if is_exit DEAL_ENTRY_OUT d then py_or (hd_position_id d) (hd_order d) else None.

(** The deals that are booked, with their profit and loss. *)
Definition booked_pnl (DEAL_ENTRY_OUT : Z) (deals : list HistoryDeal) : list Q :=
  omap (fun d => (fun _ => aggregated d) <$> booked_ticket DEAL_ENTRY_OUT d) deals.

(** Every exit deal names a position or an order. *)
Definition exits_are_ticketed (DEAL_ENTRY_OUT : Z) (deals : list HistoryDeal) : Prop :=
  Forall (fun d => is_exit DEAL_ENTRY_OUT d = true ->
                   py_or (hd_position_id d) (hd_order d) <> None) deals.

Definition row_ticket (row : Z * Q * CloseSummary) : Z := fst (fst row).
Definition row_pnl (row : Z * Q * CloseSummary) : Q := snd (fst row).

(** ** Distance from a threshold *)

(** The models compute in exact rationals, the program in doubles.  On a
    comparison of computed numbers the two can disagree only where the two
    sides are within the rounding error of the double operations of each
    other: a drawdown of exactly the threshold, (1002 - 921.84) / 1002, is
    0.07999999999999997 in doubles and passes the [>=] test that the exact
    quotient 0.08 meets.  A statement about such a comparison is therefore
    made at a distance from the threshold, [slack scale], where [scale] is
    the magnitude of the numbers that enter the comparison.  One part in
    [10^12] is some thousand times the relative error [2^-53] of one double
    operation; inside the band nothing is stated. *)
Definition slack (scale : Q) : Q := 1e-12 * scale.

(** The drawdown gate compares a quotient of equities, of magnitude one at
    the threshold, with [MAX_DRAWDOWN_PCT]. *)
Definition drawdown_slack (cfg : Config) : Q := slack (1 + Qabs (MAX_DRAWDOWN_PCT cfg)).

(** The wick test compares differences of the candle's four prices. *)
Definition bar_slack (c : Bar) : Q :=
  slack (Qabs (bar_open c) + Qabs (bar_high c) + Qabs (bar_low c) + Qabs (bar_close c)).

(** The wick the test for [direction] wants long, and the one it wants
    short: lower and upper wick for ["bull"], upper and lower wick for any
    other direction. *)
Definition rejecting_wick (direction : string) (c : Bar) : Q :=
  if String.eqb direction "bull" then wick_bottom c else wick_top c.

Definition other_wick (direction : string) (c : Bar) : Q :=
  if String.eqb direction "bull" then wick_top c else wick_bottom c.

(** The number of bodies the rejecting wick has to reach. *)
Definition wick_factor (body_wick_ratio : Q) : Q := 1.5 / Qmax 1 body_wick_ratio.

(** The clustering pass compares the difference of two levels with the
    tolerance. *)
Definition level_slack (tol a b : Q) : Q := slack (Qabs a + Qabs b + tol).

(** Neighbouring levels are more than [tol] apart, by more than the slack. *)
Definition clearly_spaced (tol : Q) (l : list Q) : Prop :=
  Sorted (fun a b => tol + level_slack tol a b < b - a) l.

(** Two neighbouring levels are within [tol] of each other, with the slack
    to spare. *)
Definition clearly_crowded (tol : Q) (l : list Q) : Prop :=
  exists (l1 l2 : list Q) (a b : Q),
    l = (l1 ++ a :: b :: l2)%list /\ b - a + level_slack tol a b <= tol.

(** The volume adjustment floors a quotient of differences of volumes. *)
Definition volume_slack (vol vol_min : Q) : Q := slack (Qabs vol + Qabs vol_min).


(** * Concrete venues, plans and bars used in the examples *)

(** A five-digit FX symbol as most venues describe it. *)
Definition eurusd : SymbolInfo := {|
  trade_tick_value := Some 1;
  trade_tick_size := Some 0.00001;
  trade_contract_size := Some 100000;
  volume_step := Some 0.01;
  volume_min := Some 0.01;
  volume_max := Some 100;
  trade_allowed := Some true
|}.

(** A share CFD traded in whole lots, ten at least. *)
Definition share_cfd : SymbolInfo := {|
  trade_tick_value := Some 0.01;
  trade_tick_size := Some 0.01;
  trade_contract_size := Some 1;
  volume_step := Some 1;
  volume_min := Some 10;
  volume_max := Some 1000;
  trade_allowed := Some true
|}.

(** Both readers of the risk gate answer and report a quiet day. *)
Definition quiet_feeds : RiskFeeds := {|
  daily_pnl_from_logs := Some (0%Z, 0);
  consecutive_losses_today := Some 0%Z
|}.

(** Scenario D of the specification: a long position, entry 1.1000, stop
    1.0950, and a terminal quoting 1.1050 that lists it. *)
Definition scenario_d_position : Position := {|
  ticket := 7;
  pos_symbol := "EURUSD";
  pos_type := POSITION_TYPE_BUY;
  price_open := 1.1;
  pos_sl := 1.095;
  pos_tp := 1.12;
  pos_volume := 0.1
|}.

Definition accepted : OrderResult :=
  {| retcode := 10009; res_comment := "Request executed"; deal := 0; order := 0 |}.

Definition scenario_d_terminal (quote : Q) : Terminal := {|
  symbol_info := fun _ => Some eurusd;
  symbol_info_tick := fun _ _ => Some {| bid := quote; ask := quote |};
  order_send := fun _ _ => Returns (Some accepted);
  positions_get := fun _ => Returns (Some [scenario_d_position]);
  ORDER_FILLING_IOC := Some 1%Z;
  ORDER_FILLING_FOK := Some 0%Z;
  ORDER_FILLING_RETURN := Some 2%Z;
  TRADE_RETCODE_DONE := Some 10009%Z
|}.

(** Scenario C of the specification: the venue rejects the default mode and
    IOC as unsupported filling modes and fills the FOK request. *)
Definition rejected_filling : OrderResult :=
  {| retcode := 10030; res_comment := "Unsupported filling mode"; deal := 0; order := 0 |}.

Definition filled_42 : OrderResult :=
  {| retcode := 10009; res_comment := "Request executed"; deal := 42; order := 41 |}.

Definition scenario_c_terminal : Terminal := {|
  symbol_info := fun _ => Some eurusd;
  symbol_info_tick := fun _ _ => Some {| bid := 1.1050; ask := 1.1051 |};
  order_send := fun n _ =>
    match n with
    | 0%nat | 1%nat => Returns (Some rejected_filling)
    | _ => Returns (Some filled_42)
    end;
  positions_get := fun _ => Returns (Some []);
  ORDER_FILLING_IOC := Some 1%Z;
  ORDER_FILLING_FOK := Some 0%Z;
  ORDER_FILLING_RETURN := Some 2%Z;
  TRADE_RETCODE_DONE := Some 10009%Z
|}.

Definition scenario_plan : TradePlan := {|
  symbol := "EURUSD";
  direction := "long";
  entry_price := 1.1051;
  sl := 1.1001;
  tp := 1.1151;
  lots := 0.10;
  tf_entry := "M5";
  score := 0;
  comment := "SWING long lvl_hit"
|}.

(** A terminal that fills every order, and a host whose clock advances a
    minute per reading. *)
Definition filling_terminal : Terminal := {|
  symbol_info := fun _ => Some eurusd;
  symbol_info_tick := fun _ _ => Some {| bid := 1.1050; ask := 1.1051 |};
  order_send := fun _ _ => Returns (Some filled_42);
  positions_get := fun _ => Returns (Some []);
  ORDER_FILLING_IOC := Some 1%Z;
  ORDER_FILLING_FOK := Some 0%Z;
  ORDER_FILLING_RETURN := Some 2%Z;
  TRADE_RETCODE_DONE := Some 10009%Z
|}.

Definition minute_host : Host := {|
  clock := fun n => inject_Z (1000 + 60 * Z.of_nat n);
  load_comment := fun _ => None
|}.

Definition plan_visit (plan : TradePlan) : Visit := {|
  visit_term := filling_terminal;
  visit_host := minute_host;
  visit_symbol := symbol plan;
  visit_built := Built plan
|}.

Definition no_plan_visit (s : string) : Visit := {|
  visit_term := filling_terminal;
  visit_host := minute_host;
  visit_symbol := s;
  visit_built := NoPlan
|}.

(** A second plan for the same symbol with another entry, hence another
    signature. *)
Definition other_plan : TradePlan := {|
  symbol := "EURUSD";
  direction := "long";
  entry_price := 1.1062;
  sl := 1.1012;
  tp := 1.1162;
  lots := 0.10;
  tf_entry := "M5";
  score := 0;
  comment := "SWING long lvl_hit"
|}.

(** Five daily bars between 1 and 2, the same on every timeframe. *)
Definition flat_bar (t : Z) : Bar :=
  {| bar_time := t; bar_open := 1.5; bar_high := 2; bar_low := 1; bar_close := 1.5 |}.

Definition five_bar_feed : Feed := {|
  copy_rates_from_pos := fun _ _ _ =>
    Some [flat_bar 0; flat_bar 86400; flat_bar 172800; flat_bar 259200; flat_bar 345600];
  utc_now := 400000
|}.

(** A bullish candle with a lower wick of two bodies and no upper wick. *)
Definition hammer : Bar :=
  {| bar_time := 0; bar_open := 1.0; bar_high := 1.1; bar_low := 0.8; bar_close := 1.1 |}.

(** Four bars only, on every timeframe. *)
Definition four_bar_feed : Feed := {|
  copy_rates_from_pos := fun _ _ _ =>
    Some [flat_bar 0; flat_bar 86400; flat_bar 172800; flat_bar 259200];
  utc_now := 400000
|}.

(** A terminal that rejects every order for a reason other than the
    filling mode. *)
Definition rejecting_terminal : Terminal := {|
  symbol_info := fun _ => Some eurusd;
  symbol_info_tick := fun _ _ => Some {| bid := 1.1050; ask := 1.1051 |};
  order_send := fun _ _ =>
    Returns (Some {| retcode := 10006; res_comment := "Rejected"; deal := 0; order := 0 |});
  positions_get := fun _ => Returns (Some []);
  ORDER_FILLING_IOC := Some 1%Z;
  ORDER_FILLING_FOK := Some 0%Z;
  ORDER_FILLING_RETURN := Some 2%Z;
  TRADE_RETCODE_DONE := Some 10009%Z
|}.

Definition rejected_plan_visit (plan : TradePlan) : Visit := {|
  visit_term := rejecting_terminal;
  visit_host := minute_host;
  visit_symbol := symbol plan;
  visit_built := Built plan
|}.


(** The default configuration with the partial take-profit switched on. *)
Definition partial_tp_config : Config := {|
  POSITION_MODE := "PERCENT";
  RISK_PCT := 0.01;
  MAX_RISK_PER_TRADE_PCT := 0.005;
  LOTS_FIXED := 0.01;
  FAT_FINGER_MAX_LOTS := 5;
  MAX_DRAWDOWN_PCT := 0.08;
  MAX_DAILY_LOSS_PCT := 0.02;
  CONSECUTIVE_LOSS_LIMIT := 2;
  MAX_POSITIONS_PER_SYMBOL := 2;
  USE_TRAILING := true;
  TRAILING_R_MULT := 0.5;
  BREAKEVEN_RR := 1;
  PARTIAL_TP_ENABLED := true;
  PARTIAL_TP_PERCENT := 50;
  PARTIAL_TP_RR := 1;
  PARTIAL_TP_MIN_LOT := 0.01;
  TRADE_ENABLED := true;
  NOTIFY_ONLY := false;
  COOLDOWN_SECONDS := 30;
  STARTUP_PROTECTION_CYCLES := 3
|}.

(** A long position opened without a stop, and a terminal that lists it
    deep in profit. *)
Definition stopless_position : Position := {|
  ticket := 9;
  pos_symbol := "EURUSD";
  pos_type := POSITION_TYPE_BUY;
  price_open := 1.1;
  pos_sl := 0;
  pos_tp := 1.12;
  pos_volume := 0.1
|}.

Definition stopless_terminal : Terminal := {|
  symbol_info := fun _ => Some eurusd;
  symbol_info_tick := fun _ _ => Some {| bid := 1.115; ask := 1.115 |};
  order_send := fun _ _ => Returns (Some accepted);
  positions_get := fun _ => Returns (Some [stopless_position]);
  ORDER_FILLING_IOC := Some 1%Z;
  ORDER_FILLING_FOK := Some 0%Z;
  ORDER_FILLING_RETURN := Some 2%Z;
  TRADE_RETCODE_DONE := Some 10009%Z
|}.

(** An executor past the warm-up for EURUSD, and a host whose clock stands
    ten seconds after [minute_host]'s second reading. *)
Definition warm_executor : Executor :=
  executor (fst (visits default_config
                   [no_plan_visit "EURUSD"; no_plan_visit "EURUSD";
                    no_plan_visit "EURUSD"; no_plan_visit "EURUSD"]
                   new_loop new_world)).

Definition ten_seconds_later : Host := {|
  clock := fun _ => 1070;
  load_comment := fun _ => None
|}.

(** A terminal that accepts every order but names neither deal nor order
    in its result. *)
Definition anonymous_terminal : Terminal := {|
  symbol_info := fun _ => Some eurusd;
  symbol_info_tick := fun _ _ => Some {| bid := 1.1050; ask := 1.1051 |};
  order_send := fun _ _ => Returns (Some accepted);
  positions_get := fun _ => Returns (Some []);
  ORDER_FILLING_IOC := Some 1%Z;
  ORDER_FILLING_FOK := Some 0%Z;
  ORDER_FILLING_RETURN := Some 2%Z;
  TRADE_RETCODE_DONE := Some 10009%Z
|}.

(** An iteration inside the session during which the terminal gives no
    account snapshot, while a plan is built and a position waits for its
    breakeven move. *)
Definition outage_cycle : Cycle := {|
  cycle_in_session := true;
  cycle_account := Returns None;
  cycle_feeds := quiet_feeds;
  cycle_visits := [plan_visit scenario_plan];
  cycle_sweep := scenario_d_terminal 1.105
|}.

(** Two M5 bars ending in a bullish close at 1.1051. *)
Definition two_bar_entry : list Bar :=
  [ {| bar_time := 0; bar_open := 1.1040; bar_high := 1.1046; bar_low := 1.1030;
       bar_close := 1.1034 |};
    {| bar_time := 300; bar_open := 1.1034; bar_high := 1.1053; bar_low := 1.1032;
       bar_close := 1.1051 |} ].

(** Three deals of one day: position 7 closed in two parts, one at a loss
    and one at a larger profit, and the opening deal of position 8. *)
Definition history_of_the_day : list HistoryDeal :=
  [ {| hd_entry := Some 1%Z; hd_position_id := Some 7%Z; hd_order := Some 70%Z;
       hd_profit := Some (-12.5); hd_commission := Some (-0.35); hd_swap := None;
       hd_symbol := Some "EURUSD" |};
    {| hd_entry := Some 0%Z; hd_position_id := Some 8%Z; hd_order := Some 80%Z;
       hd_profit := Some 0; hd_commission := Some (-0.35); hd_swap := None;
       hd_symbol := Some "GBPUSD" |};
    {| hd_entry := Some 1%Z; hd_position_id := Some 7%Z; hd_order := Some 71%Z;
       hd_profit := Some 30; hd_commission := Some (-0.35); hd_swap := Some (-0.1);
       hd_symbol := Some "EURUSD" |} ].

(** The loop after three cycles without plan for EURUSD: the warm-up of
    the symbol is over, nothing has been sent. *)
Definition warm_loop : Loop * World :=
  visits default_config
    [no_plan_visit "EURUSD"; no_plan_visit "EURUSD"; no_plan_visit "EURUSD"]
    new_loop new_world.

(** * Proofs *)

(** ** Rational arithmetic helpers *)

Lemma Qltb_lt (a b : Q) : Qltb a b = true <-> a < b.
Proof.
  unfold Qltb. rewrite negb_true_iff. split.
  - intros H. apply Qnot_le_lt. intros Hle. apply Qle_bool_iff in Hle. congruence.
  - intros H. destruct (Qle_bool b a) eqn:E; [|reflexivity].
    apply Qle_bool_iff in E. exfalso. exact (Qlt_not_le _ _ H E).
Qed.

Lemma Qle_bool_false (a b : Q) : Qle_bool a b = false <-> b < a.
Proof.
  split.
  - intros H. apply Qnot_le_lt. intros Hle. apply Qle_bool_iff in Hle. congruence.
  - intros H. destruct (Qle_bool a b) eqn:E; [|reflexivity].
    apply Qle_bool_iff in E. exfalso. exact (Qlt_not_le _ _ H E).
Qed.

Lemma Qeq_bool_false (a b : Q) : Qeq_bool a b = false <-> ~ a == b.
Proof.
  split.
  - intros H Heq. apply Qeq_bool_iff in Heq. congruence.
  - intros H. destruct (Qeq_bool a b) eqn:E; [|reflexivity].
    apply Qeq_bool_iff in E. contradiction.
Qed.

Lemma Qmax_cases (a b : Q) : Qmax a b = a \/ Qmax a b = b.
Proof. unfold Qmax, GenericMinMax.gmax. destruct (Qcompare a b); auto. Qed.

Lemma Qmin_cases (a b : Q) : Qmin a b = a \/ Qmin a b = b.
Proof. unfold Qmin, GenericMinMax.gmin. destruct (Qcompare a b); auto. Qed.

Lemma pow10_pos (n : nat) : 0 < pow10 n.
Proof.
  unfold pow10. change 0 with (inject_Z 0). rewrite <- Zlt_Qlt.
  apply Z.pow_pos_nonneg; lia.
Qed.

Lemma pow10_nonzero (n : nat) : ~ pow10 n == 0.
Proof. intros H. pose proof (pow10_pos n) as Hp. rewrite H in Hp. exact (Qlt_irrefl _ Hp). Qed.

Lemma pow10_add (a b : nat) : pow10 (a + b) == pow10 a * pow10 b.
Proof.
  unfold pow10. rewrite <- inject_Z_mult, Nat2Z.inj_add, Z.pow_add_r by lia. reflexivity.
Qed.

(** ** Risk gate (risk.py) *)

Lemma risk_gates_ok_drawdown (cfg : Config) (feeds : RiskFeeds) (equity_start balance equity : Q) :
  1e-9 <= equity_start ->
  daily_loss_trips cfg feeds balance = false ->
  consecutive_loss_trips cfg feeds = false ->
  risk_gates_ok cfg feeds equity_start balance equity
  = negb (Qle_bool (MAX_DRAWDOWN_PCT cfg) ((equity_start - equity) / equity_start)).
Proof.
  intros Hes Hd Hc. unfold risk_gates_ok. rewrite Hd, Hc.
  assert (Hmax : Qmax 1e-9 equity_start == equity_start) by (apply Q.max_r; exact Hes).
  assert (E : Qle_bool (MAX_DRAWDOWN_PCT cfg) ((equity_start - equity) / Qmax 1e-9 equity_start)
            = Qle_bool (MAX_DRAWDOWN_PCT cfg) ((equity_start - equity) / equity_start)).
  { rewrite Hmax. reflexivity. }
  rewrite E. destruct (Qle_bool _ _); reflexivity.
Qed.

Lemma slack_nonneg (scale : Q) : 0 <= scale -> 0 <= slack scale.
Proof. intros H. unfold slack. apply Qmult_le_0_compat; [discriminate | exact H]. Qed.

Lemma drawdown_slack_pos (cfg : Config) : 0 < drawdown_slack cfg.
Proof.
  unfold drawdown_slack, slack.
  pose proof (Qabs_nonneg (MAX_DRAWDOWN_PCT cfg)) as Ha.
  apply Qmult_lt_0_compat; [reflexivity | lra].
Qed.

(** C5 (amended).  For a starting equity of at least [1e-9] (the floor the
    gate puts under its divisor), and with the daily-loss and
    consecutive-loss gates not tripping, [risk_gates_ok] denies whenever
    the relative loss [(equity_start - equity) / equity_start] is at least
    [MAX_DRAWDOWN_PCT] plus the slack, and allows whenever it is at most
    [MAX_DRAWDOWN_PCT] less the slack.  Within the slack of the threshold,
    exact equality included, the rounding of the double subtraction and
    division decides, and nothing is stated. *)
Theorem risk_gate_drawdown_boundary (cfg : Config) (feeds : RiskFeeds)
    (equity_start balance equity : Q) :
  1e-9 <= equity_start ->
  daily_loss_trips cfg feeds balance = false ->
  consecutive_loss_trips cfg feeds = false ->
  (MAX_DRAWDOWN_PCT cfg + drawdown_slack cfg <= (equity_start - equity) / equity_start ->
   risk_gates_ok cfg feeds equity_start balance equity = false) /\
  ((equity_start - equity) / equity_start <= MAX_DRAWDOWN_PCT cfg - drawdown_slack cfg ->
   risk_gates_ok cfg feeds equity_start balance equity = true).
Proof.
  intros Hes Hd Hc.
  rewrite (risk_gates_ok_drawdown cfg feeds equity_start balance equity Hes Hd Hc).
  pose proof (drawdown_slack_pos cfg) as Hs.
  split; intros H.
  - assert (H' : MAX_DRAWDOWN_PCT cfg <= (equity_start - equity) / equity_start) by lra.
    apply Qle_bool_iff in H'. rewrite H'. reflexivity.
  - assert (H' : (equity_start - equity) / equity_start < MAX_DRAWDOWN_PCT cfg) by lra.
    apply Qle_bool_false in H'. rewrite H'. reflexivity.
Qed.

Lemma risk_gate_drawdown_boundary_witness :
  risk_gates_ok default_config quiet_feeds 10000 10000 9100 = false
  /\ risk_gates_ok default_config quiet_feeds 10000 10000 9300 = true.
Proof.
  split.
  - apply (proj1 (risk_gate_drawdown_boundary default_config quiet_feeds 10000 10000 9100
                    ltac:(discriminate) eq_refl eq_refl)).
    vm_compute. discriminate.
  - apply (proj2 (risk_gate_drawdown_boundary default_config quiet_feeds 10000 10000 9300
                    ltac:(discriminate) eq_refl eq_refl)).
    vm_compute. discriminate.
Defined.

(** C5 as stated fails below the divisor floor: from a starting equity of
    [5e-10] a loss of one tenth is above the 8% threshold, yet the gate
    divides by [1e-9], sees 5% and allows. *)
Lemma risk_gate_allows_below_divisor_floor :
  MAX_DRAWDOWN_PCT default_config <= (5e-10 - 4.5e-10) / 5e-10 /\
  risk_gates_ok default_config quiet_feeds 5e-10 10000 4.5e-10 = true.
Proof. split; [discriminate | reflexivity]. Qed.

(** ** Position sizer (risk.py) *)

Lemma round_neg_log10_from_least (s : Q) (k : nat) :
  forall fuel j : nat,
    (j <= k)%nat -> (k <= j + fuel)%nat ->
    (forall i : nat, (j <= i < k)%nat -> Qltb 1 (s * s * pow10 (2 * i + 1)) = false) ->
    Qltb 1 (s * s * pow10 (2 * k + 1)) = true ->
    round_neg_log10_from fuel j s = k.
Proof.
  induction fuel as [|fuel IH]; intros j Hjk Hfuel Hbelow Hat; cbn [round_neg_log10_from].
  - lia.
  - destruct (Nat.eq_dec j k) as [->|Hne].
    + rewrite Hat. reflexivity.
    + rewrite (Hbelow j) by lia. apply IH; try lia; auto.
      intros i Hi. apply Hbelow. lia.
Qed.

Lemma pow10_S (n : nat) : pow10 (S n) == 10 * pow10 n.
Proof. change (S n) with (1 + n)%nat. rewrite pow10_add. reflexivity. Qed.

Lemma pow10_ge_1 (n : nat) : 1 <= pow10 n.
Proof.
  unfold pow10. change 1 with (inject_Z 1). rewrite <- Zle_Qle.
  change 1%Z with (10 ^ 0)%Z. apply Z.pow_le_mono_r; lia.
Qed.

Lemma pow10_le (a b : nat) : (a <= b)%nat -> pow10 a <= pow10 b.
Proof.
  intros H. unfold pow10. rewrite <- Zle_Qle. apply Z.pow_le_mono_r; lia.
Qed.

(** The square of [10^-k], scaled by [10^(2i+1)]. *)
Lemma decimal_step_square (s : Q) (k i : nat) :
  s == 1 / pow10 k ->
  s * s * pow10 (2 * i + 1) * (pow10 k * pow10 k) == pow10 (2 * i + 1).
Proof.
  intros Hs. rewrite Hs. field. apply pow10_nonzero.
Qed.

Lemma decimal_step_test_true (s : Q) (k : nat) :
  s == 1 / pow10 k -> Qltb 1 (s * s * pow10 (2 * k + 1)) = true.
Proof.
  intros Hs. apply Qltb_lt.
  assert (E : s * s * pow10 (2 * k + 1) == 10).
  { rewrite Hs. replace (2 * k + 1)%nat with (S (k + k)) by lia.
    rewrite pow10_S, pow10_add. field. apply pow10_nonzero. }
  rewrite E. reflexivity.
Qed.

Lemma decimal_step_test_false (s : Q) (k i : nat) :
  s == 1 / pow10 k -> (i < k)%nat -> Qltb 1 (s * s * pow10 (2 * i + 1)) = false.
Proof.
  intros Hs Hi. unfold Qltb. rewrite negb_false_iff. apply Qle_bool_iff.
  assert (E : s * s * pow10 (2 * i + 1) == pow10 (2 * i + 1) / pow10 (2 * k)).
  { rewrite Hs. replace (2 * k)%nat with (k + k)%nat by lia.
    rewrite (pow10_add k k). field. apply pow10_nonzero. }
  rewrite E. apply Qle_shift_div_r; [apply pow10_pos|].
  rewrite Qmult_1_l. apply pow10_le. lia.
Qed.

Lemma decimal_step_fuel (s : Q) (k : nat) :
  s == 1 / pow10 k -> (k <= Z.to_nat (Z.log2 (Zpos (Qden s))))%nat.
Proof.
  intros Hs.
  assert (Hd : (10 ^ Z.of_nat k <= Zpos (Qden s))%Z).
  { unfold Qeq, pow10 in Hs. simpl in Hs.
    destruct s as [n d]. simpl in *.
    assert (Hp : (0 < 10 ^ Z.of_nat k)%Z) by (apply Z.pow_pos_nonneg; lia).
    destruct (10 ^ Z.of_nat k)%Z as [|p|p] eqn:Ep; try lia.
    simpl in Hs. rewrite Pos.mul_1_l in Hs.
    assert (0 < n)%Z by nia. nia. }
  assert (H2 : (2 ^ Z.of_nat k <= Zpos (Qden s))%Z).
  { etransitivity; [|exact Hd]. apply Z.pow_le_mono_l. lia. }
  apply Z.log2_le_pow2 in H2; lia.
Qed.

Lemma step_decimals_decimal (s : Q) (k : nat) :
  s == 1 / pow10 k -> step_decimals s = k.
Proof.
  intros Hs. unfold step_decimals.
  assert (Hpos : 0 < s).
  { rewrite Hs. apply Qlt_shift_div_l; [apply pow10_pos|]. rewrite Qmult_0_l. reflexivity. }
  apply Qle_bool_false in Hpos. rewrite Hpos.
  unfold round_neg_log10. apply round_neg_log10_from_least.
  - lia.
  - pose proof (decimal_step_fuel s k Hs). lia.
  - intros i Hi. apply (decimal_step_test_false s k i Hs). lia.
  - apply decimal_step_test_true. exact Hs.
Qed.

Lemma round_half_even_integer (x : Q) (m : Z) :
  x == inject_Z m -> round_half_even x = m.
Proof.
  intros Hx. unfold round_half_even.
  rewrite (Qfloor_comp x (inject_Z m) Hx), Qfloor_Z.
  assert (E : Qcompare (x - inject_Z m) (1 # 2) = Lt).
  { rewrite Hx. apply Qlt_alt. setoid_replace (inject_Z m - inject_Z m) with 0 using relation Qeq by ring. reflexivity. }
  rewrite E. reflexivity.
Qed.

(** Rounding to [k] decimals leaves a number with [k] decimals alone. *)
Lemma py_round_decimal (x : Q) (k : nat) (m : Z) :
  x == inject_Z m / pow10 k -> py_round x k == x.
Proof.
  intros Hx. unfold py_round. rewrite Qred_correct.
  rewrite (round_half_even_integer (x * pow10 k) m).
  - symmetry. exact Hx.
  - rewrite Hx. field. apply pow10_nonzero.
Qed.

Lemma pip_size_pos (symbol : string) : 0 < pip_size symbol.
Proof.
  unfold pip_size. destruct (endswith symbol "JPY"); [reflexivity|].
  destruct (startswith symbol "XAU"); reflexivity.
Qed.

Lemma or_default_nonzero (o : option Q) (d : Q) : ~ d == 0 -> ~ or_default o d == 0.
Proof.
  intros Hd. unfold or_default. destruct o as [v|]; [|exact Hd].
  destruct (Qeq_bool v 0) eqn:E; [exact Hd|]. apply Qeq_bool_false. exact E.
Qed.

Lemma Qdiv_nonzero (a b : Q) : ~ a == 0 -> ~ b == 0 -> ~ a / b == 0.
Proof.
  intros Ha Hb H. apply Ha.
  setoid_replace a with (a / b * b) using relation Qeq by (field; exact Hb).
  rewrite H. ring.
Qed.

Lemma Qmult_nonzero (a b : Q) : ~ a == 0 -> ~ b == 0 -> ~ a * b == 0.
Proof. intros Ha Hb H. destruct (Qmult_integral _ _ H); contradiction. Qed.

Lemma py_div_defined (a b : Q) : ~ b == 0 -> py_div a b = Some (a / b).
Proof. intros Hb. unfold py_div. apply Qeq_bool_false in Hb. rewrite Hb. reflexivity. Qed.

(** A symbol whose contract size is not zero never makes the sizing raise. *)
Lemma raw_lots_defined (cfg : Config) (info : SymbolInfo) (symbol : string) (entry sl equity : Q) :
  ~ default 1 (trade_contract_size info) == 0 ->
  exists lots, raw_lots cfg info symbol entry sl equity = Some lots.
Proof.
  intros Hc. unfold raw_lots.
  destruct (String.eqb _ _); [eexists; reflexivity|].
  pose proof (pip_size_pos symbol) as Hpip.
  assert (Hpip0 : ~ pip_size symbol == 0).
  { intros H. rewrite H in Hpip. exact (Qlt_irrefl _ Hpip). }
  rewrite py_div_defined.
  - cbn. rewrite py_div_defined by exact Hc. eexists; reflexivity.
  - apply Qmult_nonzero.
    + intros H. pose proof (Q.le_max_l 1e-9 (Qabs (entry - sl) / pip_size symbol)) as Hm.
      rewrite H in Hm. revert Hm. apply Qlt_not_le. reflexivity.
    + apply Qmult_nonzero.
      * apply or_default_nonzero. discriminate.
      * apply Qdiv_nonzero; [exact Hpip0|]. apply or_default_nonzero. exact Hpip0.
Qed.

Lemma on_grid_clamp (step lo hi x : Q) :
  on_grid step lo -> on_grid step hi -> on_grid step x ->
  on_grid step (Qmax lo (Qmin hi x)).
Proof.
  intros Hlo Hhi Hx.
  destruct (Qmax_cases lo (Qmin hi x)) as [->| ->]; [exact Hlo|].
  destruct (Qmin_cases hi x) as [->| ->]; assumption.
Qed.

Lemma clamp_bounds (lo hi x : Q) :
  lo <= hi -> lo <= Qmax lo (Qmin hi x) /\ Qmax lo (Qmin hi x) <= hi.
Proof.
  intros H. split; [apply Q.le_max_l|].
  apply Q.max_lub; [exact H | apply Q.le_min_l].
Qed.

(** C4 (amended).  When the venue's step is a decimal unit [10^-k], the
    venue minimum and the effective maximum [min(volume_max,
    FAT_FINGER_MAX_LOTS)] are whole numbers of steps, the minimum does not
    exceed that maximum and the contract size is not zero, [compute_lots]
    returns a volume that is a whole number of steps and lies between the
    minimum and the effective maximum. *)
Theorem compute_lots_step_and_range (cfg : Config) (info : SymbolInfo)
    (symbol : string) (entry sl equity : Q) (k : nat) :
  lot_step_of info == 1 / pow10 k ->
  on_grid (lot_step_of info) (min_lot_of info) ->
  on_grid (lot_step_of info) (max_lot_of cfg info) ->
  min_lot_of info <= max_lot_of cfg info ->
  ~ default 1 (trade_contract_size info) == 0 ->
  exists v,
    compute_lots cfg (Some info) symbol entry sl equity = Some v /\
    on_grid (lot_step_of info) v /\
    min_lot_of info <= v /\ v <= max_lot_of cfg info.
Proof.
  intros Hstep Hmin Hmax Hle Hc.
  destruct (raw_lots_defined cfg info symbol entry sl equity Hc) as [l Hl].
  unfold compute_lots. cbn [mbind option_bind]. rewrite Hl. cbn [mbind option_bind].
  eexists. split; [reflexivity|].
  assert (Hpos : 0 < lot_step_of info).
  { rewrite Hstep. apply Qlt_shift_div_l; [apply pow10_pos|]. rewrite Qmult_0_l. reflexivity. }
  apply Qltb_lt in Hpos. rewrite Hpos.
  rewrite (step_decimals_decimal _ k Hstep).
  set (floored := inject_Z (Qfloor (Qmax 0 l / lot_step_of info)) * lot_step_of info).
  set (clamped := Qmax (min_lot_of info) (Qmin (max_lot_of cfg info) floored)).
  assert (Hgrid : on_grid (lot_step_of info) clamped).
  { apply on_grid_clamp; try assumption. eexists. reflexivity. }
  assert (Hround : py_round clamped k == clamped).
  { destruct Hgrid as [c Hc']. apply (py_round_decimal clamped k c).
    rewrite Hc', Hstep. field. apply pow10_nonzero. }
  destruct (clamp_bounds (min_lot_of info) (max_lot_of cfg info) floored Hle) as [Hlo Hhi].
  fold clamped in Hlo, Hhi.
  split; [|split].
  - destruct Hgrid as [c Hc']. exists c. rewrite Hround. exact Hc'.
  - rewrite Hround. exact Hlo.
  - rewrite Hround. exact Hhi.
Qed.

Lemma compute_lots_step_and_range_witness :
  exists v,
    compute_lots default_config (Some eurusd) "EURUSD" 1.1 1.095 10000 = Some v /\
    on_grid (lot_step_of eurusd) v /\
    min_lot_of eurusd <= v /\ v <= max_lot_of default_config eurusd.
Proof.
  apply (compute_lots_step_and_range default_config eurusd "EURUSD" 1.1 1.095 10000 2).
  - reflexivity.
  - exists 1%Z. reflexivity.
  - exists 500%Z. reflexivity.
  - discriminate.
  - discriminate.
Defined.

(** C4 as stated fails: a symbol whose venue minimum (10 lots) lies above
    the fat-finger ceiling (5 lots) is sized at the venue minimum, outside
    [[volume_min, min(volume_max, FAT_FINGER_MAX_LOTS)]]. *)
Lemma compute_lots_exceeds_fat_finger_cap :
  exists v,
    compute_lots default_config (Some share_cfd) "ACME" 100 95 10000 = Some v /\
    ~ (on_grid (lot_step_of share_cfd) v /\
       min_lot_of share_cfd <= v /\ v <= max_lot_of default_config share_cfd).
Proof.
  exists 10. split; [vm_compute; reflexivity|].
  intros (_ & _ & H). vm_compute in H. apply H. reflexivity.
Qed.

(** The rounding to [step_decimals] digits is exact only for decimal
    steps: with a quarter-lot step, three quarters of a lot leave as 0.8. *)
Example compute_lots_quarter_step :
  compute_lots default_config
    (Some {| trade_tick_value := Some 1; trade_tick_size := Some 0.00001;
             trade_contract_size := Some 1; volume_step := Some 0.25;
             volume_min := Some 0.25; volume_max := Some 100;
             trade_allowed := Some true |})
    "EURUSD" 1.1 1.099375 10000 = Some (4 # 5).
Proof. vm_compute. reflexivity. Qed.

(** ** Lifecycle manager (trade.py): the breakeven one-shot *)

Lemma one_shot_step_refl (tk : Z) (st : OneShot) (w : World) : one_shot_step tk st w st w.
Proof. split; intros H; auto. Qed.

Lemma one_shot_step_trans (tk : Z) (st1 st2 st3 : OneShot) (w1 w2 w3 : World) :
  one_shot_step tk st1 w1 st2 w2 -> one_shot_step tk st2 w2 st3 w3 ->
  one_shot_step tk st1 w1 st3 w3.
Proof.
  intros [Hin1 Hout1] [Hin2 Hout2]. split.
  - intros H. destruct (Hin1 H) as (H2 & Hi & Ha).
    destruct (Hin2 H2) as (H3 & Hi' & Ha'). repeat split; [assumption | congruence | congruence].
  - intros H. destruct (Hout1 H) as [[Hn Ha] | [Hy Ha]].
    + destruct (Hout2 Hn) as [[Hn' Ha'] | [Hy' Ha']]; [left | right]; split; auto; congruence.
    + destruct (Hin2 Hy) as (H3 & _ & Ha'). right. split; [assumption | congruence].
Qed.

(** A step that leaves the breakeven set alone and issues no breakeven
    modification. *)
Lemma one_shot_step_other (tk : Z) (st st' : OneShot) (w w' : World) :
  _breakeven_set_tickets st' = _breakeven_set_tickets st ->
  breakeven_issued tk w' = breakeven_issued tk w ->
  breakeven_applied tk w' = breakeven_applied tk w ->
  one_shot_step tk st w st' w'.
Proof.
  intros Hs Hi Ha. split; intros H; rewrite Hs; auto.
Qed.

Lemma query_tick_submissions (term : Terminal) (sym : string) (w : World) :
  submissions (snd (query_tick term sym w)) = submissions w.
Proof. reflexivity. Qed.

Lemma submit_submissions (term : Terminal) (origin : Origin) (req : Request) (w : World) :
  submissions (snd (submit term origin req w))
  = {| sub_origin := origin; sub_request := req;
       sub_answer := fst (submit term origin req w) |} :: submissions w.
Proof. reflexivity. Qed.

Lemma breakeven_step_one_shot (cfg : Config) (term : Terminal) (use_trailing : bool)
    (p : Position) (s : Snapshot) (st : OneShot) (w : World) (tk : Z) :
  one_shot_step tk st w
    (fst (breakeven_step cfg term use_trailing p s st w))
    (snd (breakeven_step cfg term use_trailing p s st w)).
Proof.
  unfold breakeven_step.
  destruct (_ && _ && _ && _); [|apply one_shot_step_refl].
  case_bool_decide as Hmem; [apply one_shot_step_refl|].
  destruct (breakeven_tightens p s); [|apply one_shot_step_refl].
  destruct (submit term ByBreakeven _ w) as [answer w'] eqn:Es.
  assert (Hw : submissions w' = {| sub_origin := ByBreakeven;
                                   sub_request := Sltp {| sltp_position := ticket p;
                                                          sltp_sl := snap_entry s;
                                                          sltp_tp := snap_tp s |};
                                   sub_answer := answer |} :: submissions w).
  { pose proof (submit_submissions term ByBreakeven
                  (Sltp {| sltp_position := ticket p; sltp_sl := snap_entry s;
                           sltp_tp := snap_tp s |}) w) as H.
    rewrite Es in H. exact H. }
  destruct (Z.eq_dec (ticket p) tk) as [Heq | Hne].
  - subst tk. destruct answer as [|r]; cbn [fst snd].
    + split; intros H; [contradiction|]. left. split; [assumption|].
      unfold breakeven_applied. rewrite Hw. cbn.
      rewrite andb_false_r. reflexivity.
    + split; intros H; [contradiction|]. right.
      split; [apply elem_of_union_l, elem_of_singleton; reflexivity|].
      unfold breakeven_applied. rewrite Hw. cbn.
      rewrite Z.eqb_refl. reflexivity.
  - assert (Hi : breakeven_issued tk w' = breakeven_issued tk w).
    { unfold breakeven_issued. rewrite Hw. cbn.
      apply Z.eqb_neq in Hne. rewrite Hne. reflexivity. }
    assert (Ha : breakeven_applied tk w' = breakeven_applied tk w).
    { unfold breakeven_applied. rewrite Hw. cbn.
      apply Z.eqb_neq in Hne. rewrite Hne. reflexivity. }
    destruct answer as [|r]; cbn [fst snd].
    + apply one_shot_step_other; auto.
    + split; intros H.
      * repeat split; auto. apply elem_of_union_r. exact H.
      * left. split; [|assumption].
        intros [Hs%elem_of_singleton | Hs]%elem_of_union; [congruence | contradiction].
Qed.

Lemma partial_tp_step_one_shot (cfg : Config) (term : Terminal)
    (p : Position) (tick : Tick) (s : Snapshot) (st : OneShot) (w : World) (tk : Z) :
  one_shot_step tk st w
    (fst (partial_tp_step cfg term p tick s st w))
    (snd (partial_tp_step cfg term p tick s st w)).
Proof.
  unfold partial_tp_step.
  destruct (_ && _ && _); [|apply one_shot_step_refl].
  case_bool_decide; [apply one_shot_step_refl|].
  destruct (_ && _); [|apply one_shot_step_refl].
  match goal with
  | |- context [submit term ByPartialTP ?req w] =>
      pose proof (submit_submissions term ByPartialTP req w) as Hw;
      destruct (submit term ByPartialTP req w) as [answer w'] eqn:Es
  end.
  cbn [fst snd] in Hw.
  assert (Hi : breakeven_issued tk w' = breakeven_issued tk w)
    by (unfold breakeven_issued; rewrite Hw; reflexivity).
  assert (Ha : breakeven_applied tk w' = breakeven_applied tk w)
    by (unfold breakeven_applied; rewrite Hw; reflexivity).
  destruct answer as [|[r|]]; cbn [fst snd]; try (apply one_shot_step_other; auto; fail).
  destruct (success_code term (retcode r)); apply one_shot_step_other; auto.
Qed.

Lemma trailing_step_one_shot (cfg : Config) (term : Terminal) (use_trailing : bool)
    (mult : Q) (p : Position) (s : Snapshot) (st : OneShot) (w : World) (tk : Z) :
  one_shot_step tk st w st (trailing_step cfg term use_trailing mult p s w).
Proof.
  unfold trailing_step.
  destruct (trailing_target cfg use_trailing mult p s); [|apply one_shot_step_refl].
  apply one_shot_step_other; reflexivity.
Qed.

Lemma manage_position_one_shot (cfg : Config) (term : Terminal) (use_trailing : bool)
    (mult : Q) (p : Position) (st : OneShot) (w : World) (tk : Z) :
  one_shot_step tk st w
    (fst (manage_position cfg term use_trailing mult p st w))
    (snd (manage_position cfg term use_trailing mult p st w)).
Proof.
  unfold manage_position.
  destruct (query_tick term (pos_symbol p) w) as [tick w0] eqn:Eq.
  assert (H0 : one_shot_step tk st w st w0).
  { apply one_shot_step_other; auto;
      unfold breakeven_issued, breakeven_applied;
      rewrite <- (query_tick_submissions term (pos_symbol p) w), Eq; reflexivity. }
  destruct tick as [tick|]; [|exact H0].
  pose proof (breakeven_step_one_shot cfg term use_trailing p (snapshot p tick) st w0 tk) as H1.
  destruct (breakeven_step cfg term use_trailing p (snapshot p tick) st w0) as [st1 w1].
  pose proof (partial_tp_step_one_shot cfg term p tick (snapshot p tick) st1 w1 tk) as H2.
  destruct (partial_tp_step cfg term p tick (snapshot p tick) st1 w1) as [st2 w2].
  cbn [fst snd] in *.
  eapply one_shot_step_trans; [exact H0|].
  eapply one_shot_step_trans; [exact H1|].
  eapply one_shot_step_trans; [exact H2|].
  apply trailing_step_one_shot.
Qed.

Lemma manage_positions_one_shot (cfg : Config) (term : Terminal) (use_trailing : bool)
    (mult : Q) (pos_list : list Position) (tk : Z) :
  forall (st : OneShot) (w : World),
    one_shot_step tk st w
      (fst (manage_positions cfg term use_trailing mult pos_list st w))
      (snd (manage_positions cfg term use_trailing mult pos_list st w)).
Proof.
  induction pos_list as [|p rest IH]; intros st w; cbn [manage_positions].
  - apply one_shot_step_refl.
  - pose proof (manage_position_one_shot cfg term use_trailing mult p st w tk) as H1.
    destruct (manage_position cfg term use_trailing mult p st w) as [st1 w1].
    eapply one_shot_step_trans; [exact H1 | apply IH].
Qed.

Lemma manage_open_positions_one_shot (cfg : Config) (term : Terminal) (use_trailing : bool)
    (mult : Q) (st : OneShot) (w : World) (tk : Z) :
  one_shot_step tk st w
    (fst (manage_open_positions cfg term use_trailing mult st w))
    (snd (manage_open_positions cfg term use_trailing mult st w)).
Proof.
  unfold manage_open_positions.
  destruct (positions_get term None); [apply one_shot_step_refl|].
  apply manage_positions_one_shot.
Qed.

Lemma lifecycle_cycles_one_shot (cfg : Config) (cycles : list Terminal) (tk : Z) :
  forall (st : OneShot) (w : World),
    one_shot_step tk st w
      (fst (lifecycle_cycles cfg cycles st w))
      (snd (lifecycle_cycles cfg cycles st w)).
Proof.
  induction cycles as [|term rest IH]; intros st w; cbn [lifecycle_cycles].
  - apply one_shot_step_refl.
  - pose proof (manage_open_positions_one_shot cfg term (USE_TRAILING cfg)
                  (TRAILING_R_MULT cfg) st w tk) as H1.
    destruct (manage_open_positions cfg term (USE_TRAILING cfg) (TRAILING_R_MULT cfg) st w)
      as [st1 w1].
    eapply one_shot_step_trans; [exact H1 | apply IH].
Qed.

(** C1.  Over any number of cycles of [manage_open_positions], against any
    terminals: a ticket in the breakeven set stays in it and no further
    breakeven stop modification is issued for it, whatever [rr] does; a
    ticket not yet in the set either stays out with no breakeven
    modification having come back for it, or enters the set together with
    exactly one such modification. *)
Theorem breakeven_one_shot (cfg : Config) (cycles : list Terminal)
    (st : OneShot) (w : World) (tk : Z) :
  let st' := fst (lifecycle_cycles cfg cycles st w) in
  let w' := snd (lifecycle_cycles cfg cycles st w) in
  (tk ∈ _breakeven_set_tickets st ->
     tk ∈ _breakeven_set_tickets st'
     /\ breakeven_issued tk w' = breakeven_issued tk w)
  /\ (tk ∉ _breakeven_set_tickets st ->
        ((tk ∉ _breakeven_set_tickets st') /\ breakeven_applied tk w' = breakeven_applied tk w)
        \/ (tk ∈ _breakeven_set_tickets st'
            /\ breakeven_applied tk w' = S (breakeven_applied tk w))).
Proof.
  intros st' w'.
  destruct (lifecycle_cycles_one_shot cfg cycles tk st w) as [Hin Hout].
  split.
  - intros H. destruct (Hin H) as (H1 & H2 & _). split; assumption.
  - exact Hout.
Qed.

Lemma breakeven_one_shot_witness :
  7%Z ∈ _breakeven_set_tickets
          {| _breakeven_set_tickets := {[7%Z]}; _partial_closed_tickets := ∅ |}
  /\ 7%Z ∈ _breakeven_set_tickets
             (fst (lifecycle_cycles default_config
                     [scenario_d_terminal 1.105; scenario_d_terminal 1.105]
                     {| _breakeven_set_tickets := {[7%Z]}; _partial_closed_tickets := ∅ |}
                     new_world))
  /\ breakeven_issued 7
       (snd (lifecycle_cycles default_config
               [scenario_d_terminal 1.105; scenario_d_terminal 1.105]
               {| _breakeven_set_tickets := {[7%Z]}; _partial_closed_tickets := ∅ |}
               new_world))
     = breakeven_issued 7 new_world.
Proof.
  assert (H : 7%Z ∈ _breakeven_set_tickets
                      {| _breakeven_set_tickets := {[7%Z]}; _partial_closed_tickets := ∅ |})
    by (change (7%Z ∈ ({[7%Z]} : gset Z)); apply elem_of_singleton; reflexivity).
  split; [exact H|].
  exact (proj1 (breakeven_one_shot default_config
                  [scenario_d_terminal 1.105; scenario_d_terminal 1.105]
                  {| _breakeven_set_tickets := {[7%Z]}; _partial_closed_tickets := ∅ |}
                  new_world 7) H).
Defined.

(** Scenario D: at a quote of 1.1015 ([rr = 0.3]) nothing is sent; at
    1.1050 ([rr = 1]) the stop goes to the entry, 1.1000; a third sweep at
    the same quote, the terminal still listing the old stop, sends no second
    breakeven modification. *)
Example scenario_d :
  let run := lifecycle_cycles default_config
               [scenario_d_terminal 1.1015; scenario_d_terminal 1.105;
                scenario_d_terminal 1.105] no_one_shots new_world in
  List.filter (is_breakeven_for 7) (submissions (snd run))
  = [ {| sub_origin := ByBreakeven;
         sub_request := Sltp {| sltp_position := 7; sltp_sl := 1.1; sltp_tp := Some 1.12 |};
         sub_answer := Returns (Some accepted) |} ]
  /\ submissions (snd (lifecycle_cycles default_config [scenario_d_terminal 1.1015]
                         no_one_shots new_world)) = [].
Proof. split; vm_compute; reflexivity. Qed.

(** ** Lifecycle manager (trade.py): trailing *)

Lemma since_app (w w' : World) (new : list Submission) :
  submissions w' = (new ++ submissions w)%list -> since w w' = new.
Proof.
  intros H. unfold since. rewrite H, length_app.
  replace (length new + length (submissions w) - length (submissions w))%nat
    with (length new) by lia.
  apply take_app_length.
Qed.

Lemma log_grows_refl (P : Submission -> Prop) (w : World) : log_grows P w w.
Proof. exists []. split; [reflexivity | constructor]. Qed.

Lemma log_grows_same (P : Submission -> Prop) (w w' : World) :
  submissions w' = submissions w -> log_grows P w w'.
Proof. intros H. exists []. split; [exact H | constructor]. Qed.

Lemma log_grows_trans (P : Submission -> Prop) (w1 w2 w3 : World) :
  log_grows P w1 w2 -> log_grows P w2 w3 -> log_grows P w1 w3.
Proof.
  intros (n1 & H1 & F1) (n2 & H2 & F2). exists (n2 ++ n1)%list. split.
  - rewrite H2, H1, app_assoc. reflexivity.
  - apply Forall_app. split; assumption.
Qed.

Lemma log_grows_submit (P : Submission -> Prop) (term : Terminal) (origin : Origin)
    (req : Request) (w : World) :
  P {| sub_origin := origin; sub_request := req;
       sub_answer := fst (submit term origin req w) |} ->
  log_grows P w (snd (submit term origin req w)).
Proof.
  intros H. eexists [_]. split; [apply submit_submissions|].
  constructor; [exact H | constructor].
Qed.

Lemma log_grows_since (P : Submission -> Prop) (w w' : World) :
  log_grows P w w' -> Forall P (since w w').
Proof. intros (new & H & F). rewrite (since_app w w' new H). exact F. Qed.

(** A positive risk distance means the position carries a stop. *)
Lemma snapshot_risk_positive (p : Position) (tick : Tick) :
  0 < snap_risk (snapshot p tick) ->
  snap_sl (snapshot p tick) = Some (pos_sl p)
  /\ ~ pos_sl p == 0
  /\ snap_risk (snapshot p tick) = Qabs (price_open p - pos_sl p).
Proof.
  unfold snapshot, truthy_price. cbn [snap_risk snap_sl snap_entry].
  destruct (Qeq_bool (pos_sl p) 0) eqn:E.
  - intros H. exfalso. exact (Qlt_irrefl _ H).
  - intros _. repeat split. apply Qeq_bool_false. exact E.
Qed.

Lemma or_default_some_nonzero (v d : Q) : ~ v == 0 -> or_default (Some v) d = v.
Proof. intros H. unfold or_default. apply Qeq_bool_false in H. rewrite H. reflexivity. Qed.

(** What the trailing block asks for is a tightening of the listed stop. *)
Lemma trailing_target_tightens (cfg : Config) (use_trailing : bool) (mult : Q)
    (p : Position) (tick : Tick) (new_sl : Q) :
  trailing_target cfg use_trailing mult p (snapshot p tick) = Some new_sl ->
  tightening p new_sl.
Proof.
  unfold trailing_target.
  destruct use_trailing; [|discriminate]. cbn [andb].
  destruct (Qltb 0 (snap_risk (snapshot p tick))) eqn:Er; [|discriminate]. cbn [andb].
  destruct (USE_TRAILING cfg); [|discriminate].
  apply Qltb_lt in Er.
  destruct (snapshot_risk_positive p tick Er) as (Hsl & Hnz & Hrisk).
  rewrite Hsl, !(fun d => or_default_some_nonzero (pos_sl p) d Hnz).
  assert (Hentry : snap_entry (snapshot p tick) = price_open p) by reflexivity.
  rewrite Hentry. unfold tightening.
  remember (snapshot p tick) as s eqn:Hs_def. clear Hs_def Hsl Hentry.
  destruct (pos_type p).
  - destruct (Qle_bool _ _) eqn:Ec; [|discriminate]. apply Qle_bool_iff in Ec.
    destruct (Qltb 1e-8 _) eqn:Ed; [|discriminate]. apply Qltb_lt in Ed.
    intros [= <-]. repeat split; try assumption.
    + rewrite <- Hrisk. exact Er.
    + apply Q.le_max_l.
    + apply Qle_trans with (snap_price s - mult * snap_risk s); [lra | apply Q.le_max_r].
  - destruct (Qle_bool _ _) eqn:Ec; [|discriminate]. apply Qle_bool_iff in Ec.
    destruct (Qltb 1e-8 _) eqn:Ed; [|discriminate]. apply Qltb_lt in Ed.
    intros [= <-]. repeat split; try assumption.
    + rewrite <- Hrisk. exact Er.
    + apply Q.le_min_l.
    + apply Qle_trans with (snap_price s + mult * snap_risk s); [apply Q.le_min_r | lra].
Qed.

Lemma trailing_justified_other (all : list Position) (origin : Origin) (req : Request)
    (answer : Answer (option OrderResult)) :
  origin <> ByTrailing ->
  trailing_justified all {| sub_origin := origin; sub_request := req; sub_answer := answer |}.
Proof. intros Hne Ho. cbn in Ho. contradiction. Qed.

Lemma breakeven_step_log (cfg : Config) (term : Terminal) (use_trailing : bool)
    (p : Position) (s : Snapshot) (st : OneShot) (w : World) (all : list Position) :
  log_grows (trailing_justified all) w (snd (breakeven_step cfg term use_trailing p s st w)).
Proof.
  unfold breakeven_step.
  destruct (_ && _ && _ && _); [|apply log_grows_refl].
  case_bool_decide; [apply log_grows_refl|].
  destruct (breakeven_tightens p s); [|apply log_grows_refl].
  match goal with
  | |- context [submit term ByBreakeven ?req w] =>
      pose proof (log_grows_submit (trailing_justified all) term ByBreakeven req w) as Hsubmit;
      destruct (submit term ByBreakeven req w) as [answer w']
  end.
  cbn [fst snd] in Hsubmit.
  destruct answer; cbn [snd]; apply Hsubmit; apply trailing_justified_other; discriminate.
Qed.

Lemma partial_tp_step_log (cfg : Config) (term : Terminal)
    (p : Position) (tick : Tick) (s : Snapshot) (st : OneShot) (w : World)
    (all : list Position) :
  log_grows (trailing_justified all) w (snd (partial_tp_step cfg term p tick s st w)).
Proof.
  unfold partial_tp_step.
  destruct (_ && _ && _); [|apply log_grows_refl].
  case_bool_decide; [apply log_grows_refl|].
  destruct (_ && _); [|apply log_grows_refl].
  match goal with
  | |- context [submit term ByPartialTP ?req w] =>
      pose proof (log_grows_submit (trailing_justified all) term ByPartialTP req w) as Hsubmit;
      destruct (submit term ByPartialTP req w) as [answer w']
  end.
  cbn [fst snd] in Hsubmit.
  assert (Hg : log_grows (trailing_justified all) w w')
    by (apply Hsubmit; apply trailing_justified_other; discriminate).
  destruct answer as [|[r|]]; cbn [snd]; try exact Hg.
  destruct (success_code term (retcode r)); exact Hg.
Qed.

Lemma trailing_step_log (cfg : Config) (term : Terminal) (use_trailing : bool) (mult : Q)
    (p : Position) (tick : Tick) (w : World) (all : list Position) :
  p ∈ all ->
  log_grows (trailing_justified all) w
    (trailing_step cfg term use_trailing mult p (snapshot p tick) w).
Proof.
  intros Hp. unfold trailing_step.
  destruct (trailing_target cfg use_trailing mult p (snapshot p tick)) as [new_sl|] eqn:Et;
    [|apply log_grows_refl].
  apply log_grows_submit. intros _. cbn [sub_request].
  exists p, new_sl, (snap_tp (snapshot p tick)).
  split; [exact Hp|]. split; [reflexivity|].
  exact (trailing_target_tightens cfg use_trailing mult p tick new_sl Et).
Qed.

Lemma manage_position_log (cfg : Config) (term : Terminal) (use_trailing : bool) (mult : Q)
    (p : Position) (st : OneShot) (w : World) (all : list Position) :
  p ∈ all ->
  log_grows (trailing_justified all) w
    (snd (manage_position cfg term use_trailing mult p st w)).
Proof.
  intros Hp. unfold manage_position.
  destruct (query_tick term (pos_symbol p) w) as [tick w0] eqn:Eq.
  assert (H0 : log_grows (trailing_justified all) w w0).
  { apply log_grows_same.
    rewrite <- (query_tick_submissions term (pos_symbol p) w), Eq. reflexivity. }
  destruct tick as [tick|]; [|exact H0].
  pose proof (breakeven_step_log cfg term use_trailing p (snapshot p tick) st w0 all) as H1.
  destruct (breakeven_step cfg term use_trailing p (snapshot p tick) st w0) as [st1 w1].
  pose proof (partial_tp_step_log cfg term p tick (snapshot p tick) st1 w1 all) as H2.
  destruct (partial_tp_step cfg term p tick (snapshot p tick) st1 w1) as [st2 w2].
  cbn [fst snd] in *.
  eapply log_grows_trans; [exact H0|].
  eapply log_grows_trans; [exact H1|].
  eapply log_grows_trans; [exact H2|].
  apply trailing_step_log. exact Hp.
Qed.

Lemma manage_positions_log (cfg : Config) (term : Terminal) (use_trailing : bool) (mult : Q)
    (all : list Position) (pos_list : list Position) :
  (forall p, p ∈ pos_list -> p ∈ all) ->
  forall (st : OneShot) (w : World),
    log_grows (trailing_justified all) w
      (snd (manage_positions cfg term use_trailing mult pos_list st w)).
Proof.
  induction pos_list as [|p rest IH]; intros Hsub st w; cbn [manage_positions].
  - apply log_grows_refl.
  - pose proof (manage_position_log cfg term use_trailing mult p st w all
                  (Hsub p (list_elem_of_here p rest))) as H1.
    destruct (manage_position cfg term use_trailing mult p st w) as [st1 w1].
    eapply log_grows_trans; [exact H1|].
    apply IH. intros q Hq. apply Hsub. apply list_elem_of_further. exact Hq.
Qed.

(** C3.  Every trailing stop modification that a sweep of
    [manage_open_positions] issues belongs to a listed position with a stop
    at a positive distance from its entry, and the stop it asks for is at
    least as favourable as the listed one (not below it for a long, not
    above it for a short), not less favourable than the entry, and more
    than [1e-8] away from the listed stop. *)
Theorem trailing_never_loosens (cfg : Config) (term : Terminal) (use_trailing : bool)
    (trailing_r_mult : Q) (st : OneShot) (w : World) :
  Forall (trailing_justified (listed_positions term))
    (since w (snd (manage_open_positions cfg term use_trailing trailing_r_mult st w))).
Proof.
  apply log_grows_since. unfold manage_open_positions, listed_positions.
  destruct (positions_get term None) as [|pos_list]; [apply log_grows_refl|].
  apply manage_positions_log. auto.
Qed.

(** The sweep of scenario D at a quote of 1.1050 trails the stop from
    1.0950 to 1.1025 after the breakeven move. *)
Example trailing_in_scenario_d :
  since new_world
    (snd (manage_open_positions default_config (scenario_d_terminal 1.105) true 0.5
            no_one_shots new_world))
  = [ {| sub_origin := ByTrailing;
         sub_request := Sltp {| sltp_position := 7; sltp_sl := 1.10250000;
                                sltp_tp := Some 1.12 |};
         sub_answer := Returns (Some accepted) |};
      {| sub_origin := ByBreakeven;
         sub_request := Sltp {| sltp_position := 7; sltp_sl := 1.1; sltp_tp := Some 1.12 |};
         sub_answer := Returns (Some accepted) |} ].
Proof. vm_compute. reflexivity. Qed.

(** ** Execution engine (trade.py): the filling-mode fallback *)

Lemma build_order_request_log (term : Terminal) (plan : TradePlan) (v : option Q)
    (f : option Z) (w : World) :
  submissions (snd (build_order_request term plan v f w)) = submissions w
  /\ forall req, fst (build_order_request term plan v f w) = Some req ->
                 deal_type_filling req = f.
Proof.
  unfold build_order_request.
  destruct (query_tick term (symbol plan) w) as [tick w0] eqn:Eq.
  assert (Hw : submissions w0 = submissions w).
  { rewrite <- (query_tick_submissions term (symbol plan) w), Eq. reflexivity. }
  destruct tick; cbn [fst snd]; split; try assumption.
  - intros req [= <-]. reflexivity.
  - intros req H. discriminate.
Qed.

Lemma build_order_request_quotes (term : Terminal) (plan : TradePlan) (v : option Q)
    (f : option Z) (w : World) :
  quotes term (symbol plan) ->
  exists req, fst (build_order_request term plan v f w) = Some req.
Proof.
  intros Hq. unfold build_order_request, query_tick.
  destruct (symbol_info_tick term (tick_queries w) (symbol plan)) eqn:E.
  - eexists. reflexivity.
  - exfalso. exact (Hq _ E).
Qed.

Lemma fillings_tried_snoc (new : list Submission) (e : Submission) :
  fillings_tried (new ++ [e])%list = filling_of e :: fillings_tried new.
Proof. unfold fillings_tried. rewrite rev_app_distr. reflexivity. Qed.

Lemma protocol_log_first (term : Terminal) (modes : list (option Z)) (result : option Z)
    (new : list Submission) (e : Submission) :
  succeeded term e = false ->
  protocol_log term modes result new ->
  protocol_log term (filling_of e :: modes) result (new ++ [e])%list.
Proof.
  intros He [Hsub Hres]. split.
  - rewrite fillings_tried_snoc. apply sublist_skip. exact Hsub.
  - destruct new as [|latest older]; cbn [app].
    + repeat split; [constructor | congruence | auto].
    + destruct Hres as (Hold & Hyes & Hno). repeat split; try assumption.
      apply Forall_app. split; [exact Hold|]. constructor; [exact He | constructor].
Qed.

Lemma protocol_log_single (term : Terminal) (modes : list (option Z)) (e : Submission) :
  protocol_log term (filling_of e :: modes)
    (if succeeded term e then _extract_ticket_from_result <$> result_of (sub_answer e) else None)
    [e].
Proof.
  split.
  - unfold fillings_tried. cbn. apply sublist_skip. apply sublist_nil_l.
  - repeat split; [constructor | |]; intros H; rewrite H; reflexivity.
Qed.

Lemma protocol_log_skip (term : Terminal) (m : option Z) (modes : list (option Z))
    (result : option Z) (new : list Submission) :
  protocol_log term modes result new -> protocol_log term (m :: modes) result new.
Proof. intros [Hsub Hres]. split; [apply sublist_cons; exact Hsub | exact Hres]. Qed.

(** The fallback loop, whatever the terminal does. *)
Lemma fallback_fillings_protocol (term : Terminal) (plan : TradePlan) (vol_ok : Q)
    (candidates : list Z) :
  forall w : World,
    exists new,
      submissions (snd (fallback_fillings term plan vol_ok candidates w))
      = (new ++ submissions w)%list
      /\ protocol_log term (map Some candidates)
           (fst (fallback_fillings term plan vol_ok candidates w)) new.
Proof.
  induction candidates as [|fm rest IH]; intros w; cbn [fallback_fillings].
  - exists []. split; [reflexivity|]. split; [apply sublist_nil_l | reflexivity].
  - destruct (build_order_request_log term plan (Some vol_ok) (Some fm) w) as [Hw0 Hf].
    destruct (build_order_request term plan (Some vol_ok) (Some fm) w) as [[req_f|] w0];
      cbn [fst snd] in *.
    + specialize (Hf req_f eq_refl).
      pose proof (submit_submissions term ByPlaceTrade (Deal req_f) w0) as Hw1.
      destruct (submit term ByPlaceTrade (Deal req_f) w0) as [answer w1].
      cbn [fst snd] in Hw1. rewrite Hw0 in Hw1.
      set (e := {| sub_origin := ByPlaceTrade; sub_request := Deal req_f;
                   sub_answer := answer |}) in *.
      assert (Hfe : filling_of e = Some fm) by exact Hf.
      pose proof (protocol_log_single term (map Some rest) e) as Hsingle.
      rewrite Hfe in Hsingle. unfold succeeded in Hsingle. cbn [sub_answer e] in Hsingle.
      assert (Hretry : _is_success term (result_of answer) = false ->
                exists new,
                  submissions (snd (fallback_fillings term plan vol_ok rest w1))
                  = (new ++ submissions w)%list
                  /\ protocol_log term (Some fm :: map Some rest)
                       (fst (fallback_fillings term plan vol_ok rest w1)) new).
      { intros Hfail. destruct (IH w1) as (new & Hn & Hp).
        exists (new ++ [e])%list. split.
        - rewrite Hn, Hw1, <- app_assoc. reflexivity.
        - rewrite <- Hfe. apply protocol_log_first; [exact Hfail | exact Hp]. }
      destruct (_is_success term (result_of answer)) eqn:Es; cbn [fst snd map].
      * exists [e]. split; [exact Hw1 | exact Hsingle].
      * destruct (result_of answer) as [r|] eqn:Er; [|apply Hretry; reflexivity].
        destruct (unsupported_filling r); [apply Hretry; reflexivity|].
        cbn [fst snd]. exists [e]. split; [exact Hw1 | exact Hsingle].
    + destruct (IH w0) as (new & Hn & Hp). exists new.
      split; [rewrite Hn, Hw0; reflexivity|].
      cbn [map]. apply protocol_log_skip. exact Hp.
Qed.

Lemma place_trade_protocol (cfg : Config) (term : Terminal) (plan : TradePlan) (w : World) :
  exists new,
    submissions (snd (place_trade cfg term plan w)) = (new ++ submissions w)%list
    /\ protocol_log term (None :: map Some (filling_candidates term))
         (fst (place_trade cfg term plan w)) new.
Proof.
  assert (Hnone : forall w', submissions w' = submissions w ->
            exists new, submissions w' = (new ++ submissions w)%list
              /\ protocol_log term (None :: map Some (filling_candidates term)) None new).
  { intros w' H. exists []. split; [exact H|]. split; [apply sublist_nil_l | reflexivity]. }
  unfold place_trade.
  destruct (NOTIFY_ONLY cfg || negb (TRADE_ENABLED cfg)); [apply Hnone; reflexivity|].
  destruct (Qltb (FAT_FINGER_MAX_LOTS cfg) (lots plan)); [apply Hnone; reflexivity|].
  destruct (query_tick term (symbol plan) (note_place_trade plan w)) as [tick0 wq] eqn:Eq.
  assert (Hwq : submissions wq = submissions w).
  { pose proof (query_tick_submissions term (symbol plan) (note_place_trade plan w)) as Hq.
    rewrite Eq in Hq. exact Hq. }
  destruct (symbol_info term (symbol plan) ≫= _) as [vol_ok|]; [|apply Hnone; exact Hwq].
  destruct (build_order_request_log term plan (Some vol_ok) None wq) as [Hw0 Hf].
  destruct (build_order_request term plan (Some vol_ok) None wq) as [[req|] w0];
    cbn [fst snd] in *; [|apply Hnone; congruence].
  specialize (Hf req eq_refl).
  pose proof (submit_submissions term ByPlaceTrade (Deal req) w0) as Hw1.
  destruct (submit term ByPlaceTrade (Deal req) w0) as [answer w1].
  cbn [fst snd] in Hw1. rewrite Hw0, Hwq in Hw1.
  set (e := {| sub_origin := ByPlaceTrade; sub_request := Deal req;
               sub_answer := answer |}) in *.
  assert (Hfe : filling_of e = None) by exact Hf.
  pose proof (protocol_log_single term (map Some (filling_candidates term)) e) as Hsingle.
  rewrite Hfe in Hsingle. unfold succeeded in Hsingle. cbn [sub_answer e] in Hsingle.
  assert (Hretry : _is_success term (result_of answer) = false ->
            exists new,
              submissions (snd (fallback_fillings term plan vol_ok (filling_candidates term) w1))
              = (new ++ submissions w)%list
              /\ protocol_log term (None :: map Some (filling_candidates term))
                   (fst (fallback_fillings term plan vol_ok (filling_candidates term) w1)) new).
  { intros Hfail.
    destruct (fallback_fillings_protocol term plan vol_ok (filling_candidates term) w1)
      as (new & Hn & Hp).
    exists (new ++ [e])%list. split.
    - rewrite Hn, Hw1, <- app_assoc. reflexivity.
    - rewrite <- Hfe. apply protocol_log_first; [exact Hfail | exact Hp]. }
  destruct (_is_success term (result_of answer)) eqn:Es; cbn [fst snd].
  - exists [e]. split; [exact Hw1 | exact Hsingle].
  - destruct (result_of answer) as [r|] eqn:Er; [|apply Hretry; reflexivity].
    destruct (unsupported_filling r); [apply Hretry; reflexivity|].
    cbn [fst snd]. exists [e]. split; [exact Hw1 | exact Hsingle].
Qed.

Lemma dict_fromkeys_NoDup (l : list Z) : NoDup (dict_fromkeys l).
Proof.
  induction l as [|x l IH]; cbn [dict_fromkeys]; constructor.
  - rewrite list_elem_of_In, filter_In. intros [_ H].
    rewrite Z.eqb_refl in H. discriminate.
  - apply NoDup_ListNoDup, List.NoDup_filter, NoDup_ListNoDup. exact IH.
Qed.

Lemma protocol_modes_NoDup (term : Terminal) :
  NoDup (None :: map Some (filling_candidates term)).
Proof.
  constructor.
  - rewrite list_elem_of_In, in_map_iff. intros (x & H & _). discriminate.
  - apply (NoDup_fmap_2 Some). apply dict_fromkeys_NoDup.
Qed.

Lemma filling_rejected_not_success (term : Terminal) (a : Answer (option OrderResult)) :
  filling_rejected term a = true -> _is_success term (result_of a) = false.
Proof.
  unfold filling_rejected, _is_success. destruct (result_of a) as [r|]; [|reflexivity].
  intros H. apply andb_true_iff in H. destruct H as [H _].
  apply negb_true_iff in H. exact H.
Qed.

(** One turn of the fallback loop against a terminal that quotes the symbol
    and answers this submission with [a]. *)
Lemma fallback_fillings_turn (term : Terminal) (plan : TradePlan) (vol_ok : Q)
    (fm : Z) (rest : list Z) (w : World) (a : Answer (option OrderResult)) :
  quotes term (symbol plan) ->
  answers_at term (length (submissions w)) a ->
  exists e w1,
    filling_of e = Some fm /\ sub_answer e = a
    /\ submissions w1 = e :: submissions w
    /\ fallback_fillings term plan vol_ok (fm :: rest) w
       = if _is_success term (result_of a)
         then (_extract_ticket_from_result <$> result_of a, w1)
         else if filling_rejected term a
              then fallback_fillings term plan vol_ok rest w1
              else (None, w1).
Proof.
  intros Hq Ha. cbn [fallback_fillings].
  destruct (build_order_request_quotes term plan (Some vol_ok) (Some fm) w Hq) as [req Hreq].
  destruct (build_order_request_log term plan (Some vol_ok) (Some fm) w) as [Hw0 Hf].
  destruct (build_order_request term plan (Some vol_ok) (Some fm) w) as [o w0].
  cbn [fst snd] in *. subst o. specialize (Hf req eq_refl).
  pose proof (submit_submissions term ByPlaceTrade (Deal req) w0) as Hw1.
  assert (Hans : fst (submit term ByPlaceTrade (Deal req) w0) = a).
  { unfold submit. cbn [fst]. rewrite Hw0. apply Ha. }
  destruct (submit term ByPlaceTrade (Deal req) w0) as [answer w1].
  cbn [fst snd] in Hw1, Hans. subst answer. rewrite Hw0 in Hw1.
  exists {| sub_origin := ByPlaceTrade; sub_request := Deal req; sub_answer := a |}, w1.
  split; [exact Hf|]. split; [reflexivity|]. split; [exact Hw1|].
  destruct (_is_success term (result_of a)) eqn:Es; [reflexivity|].
  unfold filling_rejected. destruct (result_of a) as [r|]; [|reflexivity].
  cbn in Es. rewrite Es. cbn [negb andb].
  destruct (unsupported_filling r); reflexivity.
Qed.

(** The default-mode submission of [place_trade], under the same
    conditions, once the checks before it have passed. *)
Lemma place_trade_turn (cfg : Config) (term : Terminal) (plan : TradePlan) (w : World)
    (vol_ok : Q) (a : Answer (option OrderResult)) :
  reaches_submission cfg term plan = Some vol_ok ->
  quotes term (symbol plan) ->
  answers_at term (length (submissions w)) a ->
  exists e w1,
    filling_of e = None /\ sub_answer e = a
    /\ submissions w1 = e :: submissions w
    /\ place_trade cfg term plan w
       = if _is_success term (result_of a)
         then (_extract_ticket_from_result <$> result_of a, w1)
         else if filling_rejected term a
              then fallback_fillings term plan vol_ok (filling_candidates term) w1
              else (None, w1).
Proof.
  intros Hr Hq Ha. unfold reaches_submission in Hr. unfold place_trade.
  destruct (NOTIFY_ONLY cfg || negb (TRADE_ENABLED cfg)); [discriminate|].
  destruct (Qltb (FAT_FINGER_MAX_LOTS cfg) (lots plan)); [discriminate|].
  rewrite Hr.
  destruct (query_tick term (symbol plan) (note_place_trade plan w)) as [tick0 wq] eqn:Eq.
  assert (Hwq : submissions wq = submissions w).
  { pose proof (query_tick_submissions term (symbol plan) (note_place_trade plan w)) as H.
    rewrite Eq in H. exact H. }
  destruct (build_order_request_quotes term plan (Some vol_ok) None wq Hq) as [req Hreq].
  destruct (build_order_request_log term plan (Some vol_ok) None wq) as [Hw0 Hf].
  destruct (build_order_request term plan (Some vol_ok) None wq) as [o w0].
  cbn [fst snd] in *. subst o. specialize (Hf req eq_refl).
  pose proof (submit_submissions term ByPlaceTrade (Deal req) w0) as Hw1.
  assert (Hans : fst (submit term ByPlaceTrade (Deal req) w0) = a).
  { unfold submit. cbn [fst]. rewrite Hw0, Hwq. apply Ha. }
  destruct (submit term ByPlaceTrade (Deal req) w0) as [answer w1].
  cbn [fst snd] in Hw1, Hans. subst answer. rewrite Hw0, Hwq in Hw1.
  exists {| sub_origin := ByPlaceTrade; sub_request := Deal req; sub_answer := a |}, w1.
  split; [exact Hf|]. split; [reflexivity|]. split; [exact Hw1|].
  destruct (_is_success term (result_of a)) eqn:Es; [reflexivity|].
  unfold filling_rejected. destruct (result_of a) as [r|]; [|reflexivity].
  cbn in Es. rewrite Es. cbn [negb andb].
  destruct (unsupported_filling r); reflexivity.
Qed.

(** C2 (amended).  Whatever the terminal does, [place_trade] tries the
    default mode and then the alternate filling modes (IOC, FOK, RETURN) in
    that order, each at most once, and no submission follows a successful
    one, whose ticket is the result.  When the default submission is
    rejected for its filling mode, the first alternate is rejected likewise
    (or returns nothing) and the second alternate succeeds, the result is
    the identifier extracted from that successful attempt and exactly three
    submissions are recorded: default, first alternate, second alternate.
    When it is the first alternate that succeeds, exactly two are. *)
Theorem place_trade_filling_fallback (cfg : Config) (term : Terminal) (plan : TradePlan)
    (w : World) :
  let run := place_trade cfg term plan w in
  let new := since w (snd run) in
  let n := length (submissions w) in
  protocol_log term (None :: map Some (filling_candidates term)) (fst run) new
  /\ NoDup (fillings_tried new)
  /\ (forall vol_ok first second rest r0 a1 r2,
        reaches_submission cfg term plan = Some vol_ok ->
        quotes term (symbol plan) ->
        filling_candidates term = first :: second :: rest ->
        answers_at term n (Returns (Some r0)) ->
        filling_rejected term (Returns (Some r0)) = true ->
        answers_at term (S n) a1 ->
        filling_rejected term a1 = true ->
        answers_at term (S (S n)) (Returns (Some r2)) ->
        success_code term (retcode r2) = true ->
        fst run = Some (_extract_ticket_from_result r2)
        /\ fillings_tried new = [None; Some first; Some second]
        /\ length new = 3%nat)
  /\ (forall vol_ok first rest r0 r1,
        reaches_submission cfg term plan = Some vol_ok ->
        quotes term (symbol plan) ->
        filling_candidates term = first :: rest ->
        answers_at term n (Returns (Some r0)) ->
        filling_rejected term (Returns (Some r0)) = true ->
        answers_at term (S n) (Returns (Some r1)) ->
        success_code term (retcode r1) = true ->
        fst run = Some (_extract_ticket_from_result r1)
        /\ fillings_tried new = [None; Some first]
        /\ length new = 2%nat).
Proof.
  intros run new n.
  destruct (place_trade_protocol cfg term plan w) as (new' & Hnew & Hproto).
  assert (Hsince : new = new') by (apply since_app; exact Hnew).
  split; [rewrite Hsince; exact Hproto|].
  split.
  { rewrite Hsince. destruct Hproto as [Hsub _].
    eapply sublist_NoDup; [apply protocol_modes_NoDup | exact Hsub]. }
  split.
  - intros vol_ok first second rest r0 a1 r2 Hr Hq Hc H0 Hrej0 H1 Hrej1 H2 Hok2.
    destruct (place_trade_turn cfg term plan w vol_ok _ Hr Hq H0)
      as (e0 & w1 & Hf0 & _ & Hw1 & Hrun).
    rewrite (filling_rejected_not_success term _ Hrej0), Hrej0, Hc in Hrun.
    assert (H1' : answers_at term (length (submissions w1)) a1) by (rewrite Hw1; exact H1).
    destruct (fallback_fillings_turn term plan vol_ok first (second :: rest) w1 a1 Hq H1')
      as (e1 & w2 & Hf1 & _ & Hw2 & Hrun1).
    rewrite (filling_rejected_not_success term _ Hrej1), Hrej1 in Hrun1.
    assert (H2' : answers_at term (length (submissions w2)) (Returns (Some r2)))
      by (rewrite Hw2, Hw1; exact H2).
    destruct (fallback_fillings_turn term plan vol_ok second rest w2 _ Hq H2')
      as (e2 & w3 & Hf2 & _ & Hw3 & Hrun2).
    cbn [result_of _is_success] in Hrun2. rewrite Hok2 in Hrun2.
    assert (Hfinal : run = (Some (_extract_ticket_from_result r2), w3)).
    { unfold run. rewrite Hrun, Hrun1, Hrun2. reflexivity. }
    assert (Hlog : new = [e2; e1; e0]).
    { apply since_app. rewrite Hfinal. cbn [snd]. rewrite Hw3, Hw2, Hw1. reflexivity. }
    rewrite Hlog, Hfinal. unfold fillings_tried. cbn [fst rev app map length].
    rewrite Hf0, Hf1, Hf2. repeat split.
  - intros vol_ok first rest r0 r1 Hr Hq Hc H0 Hrej0 H1 Hok1.
    destruct (place_trade_turn cfg term plan w vol_ok _ Hr Hq H0)
      as (e0 & w1 & Hf0 & _ & Hw1 & Hrun).
    rewrite (filling_rejected_not_success term _ Hrej0), Hrej0, Hc in Hrun.
    assert (H1' : answers_at term (length (submissions w1)) (Returns (Some r1)))
      by (rewrite Hw1; exact H1).
    destruct (fallback_fillings_turn term plan vol_ok first rest w1 _ Hq H1')
      as (e1 & w2 & Hf1 & _ & Hw2 & Hrun1).
    cbn [result_of _is_success] in Hrun1. rewrite Hok1 in Hrun1.
    assert (Hfinal : run = (Some (_extract_ticket_from_result r1), w2)).
    { unfold run. rewrite Hrun, Hrun1. reflexivity. }
    assert (Hlog : new = [e1; e0]).
    { apply since_app. rewrite Hfinal. cbn [snd]. rewrite Hw2, Hw1. reflexivity. }
    rewrite Hlog, Hfinal. unfold fillings_tried. cbn [fst rev app map length].
    rewrite Hf0, Hf1. repeat split.
Qed.

Lemma place_trade_filling_fallback_witness :
  let run := place_trade default_config scenario_c_terminal scenario_plan new_world in
  fst run = Some (_extract_ticket_from_result filled_42)
  /\ fillings_tried (since new_world (snd run)) = [None; Some 1%Z; Some 0%Z]
  /\ length (since new_world (snd run)) = 3%nat.
Proof.
  destruct (place_trade_filling_fallback default_config scenario_c_terminal scenario_plan
              new_world) as (_ & _ & H & _).
  apply (H (1 # 10) 1%Z 0%Z [2%Z] rejected_filling (Returns (Some rejected_filling)) filled_42).
  - reflexivity.
  - intros n. discriminate.
  - reflexivity.
  - intros req. reflexivity.
  - reflexivity.
  - intros req. reflexivity.
  - reflexivity.
  - intros req. reflexivity.
  - reflexivity.
Defined.

(** C2 as stated fails: with the default mode rejected as an unsupported
    filling mode and the second alternate (FOK) the one that succeeds,
    [place_trade] returns the identifier of that attempt, 42, but three
    submissions are on record, not two, because the first alternate (IOC)
    was submitted, and rejected, in between. *)
Lemma place_trade_three_submissions :
  let run := place_trade default_config scenario_c_terminal scenario_plan new_world in
  fst run = Some 42%Z
  /\ map (fun s => (filling_of s, succeeded scenario_c_terminal s,
                    filling_rejected scenario_c_terminal (sub_answer s)))
         (rev (submissions (snd run)))
     = [ (None, false, true);
         (ORDER_FILLING_IOC scenario_c_terminal, false, true);
         (ORDER_FILLING_FOK scenario_c_terminal, true, false) ]
  /\ length (submissions (snd run)) <> 2%nat.
Proof. vm_compute. repeat split. discriminate. Qed.

(** ** Execution coordinator (executor.py, main.py) *)

Lemma build_order_request_books (term : Terminal) (plan : TradePlan) (v : option Q)
    (f : option Z) (w : World) :
  place_trade_calls (snd (build_order_request term plan v f w)) = place_trade_calls w
  /\ plan_skips (snd (build_order_request term plan v f w)) = plan_skips w.
Proof.
  unfold build_order_request, query_tick.
  destruct (symbol_info_tick term (tick_queries w) (symbol plan)); split; reflexivity.
Qed.

Lemma fallback_fillings_books (term : Terminal) (plan : TradePlan) (vol_ok : Q)
    (candidates : list Z) :
  forall w : World,
    place_trade_calls (snd (fallback_fillings term plan vol_ok candidates w))
    = place_trade_calls w
    /\ plan_skips (snd (fallback_fillings term plan vol_ok candidates w)) = plan_skips w.
Proof.
  induction candidates as [|fm rest IH]; intros w; cbn [fallback_fillings].
  - split; reflexivity.
  - destruct (build_order_request_books term plan (Some vol_ok) (Some fm) w) as [Hc Hs].
    destruct (build_order_request term plan (Some vol_ok) (Some fm) w) as [[req_f|] w0];
      cbn [fst snd] in *.
    + unfold submit.
      set (w1 := {| submissions := _ :: submissions w0; tick_queries := tick_queries w0;
                    clock_reads := clock_reads w0;
                    place_trade_calls := place_trade_calls w0;
                    plan_skips := plan_skips w0; journal := journal w0 |}).
      assert (H1 : place_trade_calls w1 = place_trade_calls w /\ plan_skips w1 = plan_skips w)
        by (split; assumption).
      destruct (IH w1) as [IHc IHs].
      assert (Hrest : place_trade_calls (snd (fallback_fillings term plan vol_ok rest w1))
                      = place_trade_calls w
                      /\ plan_skips (snd (fallback_fillings term plan vol_ok rest w1))
                         = plan_skips w)
        by (destruct H1; split; congruence).
      destruct (_is_success term _); [exact H1|].
      destruct (result_of _) as [r|]; [|exact Hrest].
      destruct (unsupported_filling r); [exact Hrest | exact H1].
    + destruct (IH w0) as [IHc IHs]. split; congruence.
Qed.

(** [place_trade] records one call of itself and no skip. *)
Lemma place_trade_books (cfg : Config) (term : Terminal) (plan : TradePlan) (w : World) :
  place_trade_calls (snd (place_trade cfg term plan w)) = plan :: place_trade_calls w
  /\ plan_skips (snd (place_trade cfg term plan w)) = plan_skips w.
Proof.
  unfold place_trade.
  destruct (NOTIFY_ONLY cfg || negb (TRADE_ENABLED cfg)); [split; reflexivity|].
  destruct (Qltb (FAT_FINGER_MAX_LOTS cfg) (lots plan)); [split; reflexivity|].
  unfold query_tick. cbn [note_place_trade tick_queries submissions clock_reads
                           place_trade_calls plan_skips journal].
  set (wq := {| submissions := submissions w; tick_queries := S (tick_queries w);
                clock_reads := clock_reads w;
                place_trade_calls := plan :: place_trade_calls w;
                plan_skips := plan_skips w; journal := journal w |}).
  destruct (symbol_info term (symbol plan) ≫= _) as [vol_ok|]; [|split; reflexivity].
  destruct (build_order_request_books term plan (Some vol_ok) None wq) as [Hc Hs].
  destruct (build_order_request term plan (Some vol_ok) None wq) as [[req|] w0];
    cbn [fst snd] in *; [|split; assumption].
  unfold submit.
  set (w1 := {| submissions := _ :: submissions w0; tick_queries := tick_queries w0;
                clock_reads := clock_reads w0;
                place_trade_calls := place_trade_calls w0;
                plan_skips := plan_skips w0; journal := journal w0 |}).
  assert (H1 : place_trade_calls w1 = plan :: place_trade_calls w
               /\ plan_skips w1 = plan_skips w) by (split; assumption).
  destruct (fallback_fillings_books term plan vol_ok (filling_candidates term) w1)
    as [Fc Fs].
  assert (Hrest : place_trade_calls
                    (snd (fallback_fillings term plan vol_ok (filling_candidates term) w1))
                  = plan :: place_trade_calls w
                  /\ plan_skips
                       (snd (fallback_fillings term plan vol_ok (filling_candidates term) w1))
                     = plan_skips w)
    by (destruct H1; split; congruence).
  destruct (_is_success term _); [exact H1|].
  destruct (result_of _) as [r|]; [|exact Hrest].
  destruct (unsupported_filling r); [exact Hrest | exact H1].
Qed.

(** The plan as [execute_plan] hands it on, with the loaded comment. *)
Lemma execute_plan_last_signal (cfg : Config) (term : Terminal) (host : Host)
    (plan : TradePlan) (ex : Executor) (w : World) :
  _last_signal (fst (snd (execute_plan cfg term host plan ex w))) !! symbol plan = Some true.
Proof.
  unfold execute_plan.
  destruct (admission cfg term host (symbol plan) ex w) as [reason w0].
  destruct reason as [reason|].
  - destruct (_ || _); cbn [fst snd set_last_signal _last_signal]; apply lookup_insert_eq.
  - destruct (place_trade cfg term _ w0) as [tk w1].
    destruct (ticket_truthy tk) eqn:Et.
    + destruct (read_clock host w1) as [now w2].
      rewrite Et. cbn [orb fst snd set_last_signal _last_signal]. apply lookup_insert_eq.
    + destruct (_ || _); cbn [fst snd set_last_signal _last_signal]; apply lookup_insert_eq.
Qed.

(** With the last-signal flag up, or before the warm-up is over, the
    admission decision is a skip, taken without reading the clock. *)
Lemma admission_suppressed (cfg : Config) (term : Terminal) (host : Host) (sym : string)
    (ex : Executor) (w : World) :
  last_signal_of ex sym = true \/ started_of ex sym = false ->
  admission cfg term host sym ex w
  = (Some (if started_of ex sym then no_rising_edge else startup_protection), w).
Proof.
  unfold admission, last_signal_of, started_of. intros [H | H]; rewrite H.
  - destruct (default false (_started ex !! sym)); reflexivity.
  - reflexivity.
Qed.

(** A suppressed plan: no ticket, nothing submitted, [place_trade] not
    called, one skip logged. *)
Lemma execute_plan_suppressed (cfg : Config) (term : Terminal) (host : Host)
    (plan : TradePlan) (ex : Executor) (w : World) :
  last_signal_of ex (symbol plan) = true \/ started_of ex (symbol plan) = false ->
  fst (execute_plan cfg term host plan ex w) = None
  /\ submissions (snd (snd (execute_plan cfg term host plan ex w))) = submissions w
  /\ place_trade_calls (snd (snd (execute_plan cfg term host plan ex w)))
     = place_trade_calls w
  /\ plan_skips (snd (snd (execute_plan cfg term host plan ex w)))
     = (symbol plan,
        if started_of ex (symbol plan) then no_rising_edge else startup_protection)
       :: plan_skips w.
Proof.
  intros H. unfold execute_plan.
  rewrite (admission_suppressed cfg term host (symbol plan) ex w H).
  destruct (_ || _); repeat split; reflexivity.
Qed.

(** [execute_plan] calls [place_trade] at most once, for the plan's symbol. *)
Lemma execute_plan_books (cfg : Config) (term : Terminal) (host : Host)
    (plan : TradePlan) (ex : Executor) (w : World) :
  place_trade_calls (snd (snd (execute_plan cfg term host plan ex w))) = place_trade_calls w
  \/ exists plan',
       symbol plan' = symbol plan
       /\ place_trade_calls (snd (snd (execute_plan cfg term host plan ex w)))
          = plan' :: place_trade_calls w.
Proof.
  unfold execute_plan.
  set (plan' := match load_comment host (direction plan) with
                | Some c => if String.eqb c "" then plan else _
                | None => plan
                end).
  assert (Hsym : symbol plan' = symbol plan).
  { unfold plan'. destruct (load_comment host (direction plan)) as [c|]; [|reflexivity].
    destruct (String.eqb c ""); reflexivity. }
  destruct (admission cfg term host (symbol plan) ex w) as [reason w0] eqn:Ea.
  assert (Hw0 : place_trade_calls w0 = place_trade_calls w).
  { revert Ea. unfold admission, _can_open_now, read_clock.
    repeat match goal with
           | |- context [if ?b then _ else _] => destruct b
           end; intros [= _ <-]; reflexivity. }
  destruct reason as [reason|].
  - left. destruct (_ || _); cbn [fst snd]; exact Hw0.
  - right. exists plan'. split; [exact Hsym|].
    destruct (place_trade_books cfg term plan' w0) as [Hc _].
    destruct (place_trade cfg term plan' w0) as [tk w1]. cbn [snd] in Hc.
    rewrite Hw0 in Hc.
    destruct (ticket_truthy tk) eqn:Et.
    + unfold read_clock. rewrite Et. cbn [orb fst snd append_journal place_trade_calls].
      exact Hc.
    + destruct (_ || _); cbn [fst snd append_journal place_trade_calls]; exact Hc.
Qed.

(** What [execute_plan] leaves alone for another symbol. *)
Lemma execute_plan_other (cfg : Config) (term : Terminal) (host : Host)
    (plan : TradePlan) (ex : Executor) (w : World) (s : string) :
  symbol plan <> s ->
  _last_signal (fst (snd (execute_plan cfg term host plan ex w))) !! s = _last_signal ex !! s
  /\ _started (fst (snd (execute_plan cfg term host plan ex w))) !! s = _started ex !! s.
Proof.
  intros Hne. unfold execute_plan.
  destruct (admission cfg term host (symbol plan) ex w) as [reason w0].
  destruct reason as [reason|].
  - destruct (_ || _); cbn [fst snd set_last_signal set_journal_signature
                              _last_signal _started];
      (split; [apply lookup_insert_ne; exact Hne | reflexivity]).
  - destruct (place_trade cfg term _ w0) as [tk w1].
    destruct (ticket_truthy tk) eqn:Et.
    + destruct (read_clock host w1) as [now w2]. rewrite Et.
      cbn [orb fst snd set_last_signal set_journal_signature set_last_open_time
             _last_signal _started].
      split; [apply lookup_insert_ne; exact Hne | reflexivity].
    + destruct (_ || _); cbn [fst snd set_last_signal set_journal_signature
                                _last_signal _started];
        (split; [apply lookup_insert_ne; exact Hne | reflexivity]).
Qed.

Lemma tick_symbol_last_signal (cfg : Config) (sym : string) (ex : Executor) :
  _last_signal (tick_symbol cfg sym ex) = _last_signal ex.
Proof. reflexivity. Qed.

Lemma attempts_for_cons_other (s : string) (plan : TradePlan) (w w' : World) :
  symbol plan <> s ->
  place_trade_calls w' = plan :: place_trade_calls w ->
  attempts_for s w' = attempts_for s w.
Proof.
  intros Hne H. unfold attempts_for. rewrite H. cbn [List.filter].
  apply String.eqb_neq in Hne. rewrite Hne. reflexivity.
Qed.

Lemma attempts_for_same (s : string) (w w' : World) :
  place_trade_calls w' = place_trade_calls w -> attempts_for s w' = attempts_for s w.
Proof. intros H. unfold attempts_for. rewrite H. reflexivity. Qed.

(** A visit that passes [s] by leaves it as it was. *)
Lemma visit_passes_by (cfg : Config) (v : Visit) (lp : Loop) (w : World) (s : string) :
  passes_by s v ->
  last_signal_of (executor (fst (visit cfg v lp w))) s = last_signal_of (executor lp) s
  /\ _last_plan_signature (fst (visit cfg v lp w)) !! s = _last_plan_signature lp !! s
  /\ attempts_for s (snd (visit cfg v lp w)) = attempts_for s w.
Proof.
  unfold passes_by, visit, loop_symbol, last_signal_of.
  destruct (visit_built v) as [| |plan]; cbn [fst snd executor _last_plan_signature].
  - repeat split.
  - intros Hne. cbn [clear_signal set_last_signal _last_signal].
    rewrite lookup_insert_ne by exact Hne. repeat split.
  - intros [Hne Hplan].
    destruct (duplicate_plan (visit_symbol v) plan lp); cbn [fst snd executor].
    + repeat split.
    + assert (Hps : symbol plan <> s) by congruence.
      pose proof (execute_plan_other cfg (visit_term v) (visit_host v) plan
                    (tick_symbol cfg (visit_symbol v) (executor lp)) w s Hps) as [Hl _].
      pose proof (execute_plan_books cfg (visit_term v) (visit_host v) plan
                    (tick_symbol cfg (visit_symbol v) (executor lp)) w) as Hb.
      destruct (execute_plan cfg (visit_term v) (visit_host v) plan
                  (tick_symbol cfg (visit_symbol v) (executor lp)) w) as [tk [ex' w']].
      cbn [fst snd executor _last_plan_signature] in *.
      split; [rewrite Hl; reflexivity|]. split.
      * destruct (ticket_truthy tk); [apply lookup_insert_ne; exact Hne | reflexivity].
      * destruct Hb as [Hb | (plan' & Hsym & Hb)].
        -- apply attempts_for_same. exact Hb.
        -- apply (attempts_for_cons_other s plan'); [congruence | exact Hb].
Qed.

Lemma visits_pass_by (cfg : Config) (vs : list Visit) (s : string) :
  Forall (passes_by s) vs ->
  forall (lp : Loop) (w : World),
    last_signal_of (executor (fst (visits cfg vs lp w))) s = last_signal_of (executor lp) s
    /\ _last_plan_signature (fst (visits cfg vs lp w)) !! s = _last_plan_signature lp !! s
    /\ attempts_for s (snd (visits cfg vs lp w)) = attempts_for s w.
Proof.
  induction 1 as [|v vs Hv _ IH]; intros lp w; cbn [visits].
  - repeat split.
  - destruct (visit_passes_by cfg v lp w s Hv) as (H1 & H2 & H3).
    destruct (visit cfg v lp w) as [lp1 w1]. cbn [fst snd] in *.
    destruct (IH lp1 w1) as (I1 & I2 & I3). repeat split; congruence.
Qed.

Lemma signature_eqb_sym (a b : Signature) : signature_eqb a b = signature_eqb b a.
Proof.
  unfold signature_eqb.
  rewrite (String.eqb_sym (sig_symbol a)), (String.eqb_sym (sig_direction a)).
  f_equal. destruct (Qeq_bool (sig_entry a) (sig_entry b)) eqn:E.
  - symmetry. apply Qeq_bool_iff. symmetry. apply Qeq_bool_iff. exact E.
  - symmetry. apply Qeq_bool_false. intros H. apply Qeq_bool_false in E. apply E.
    symmetry. exact H.
Qed.

Lemma signature_eqb_trans (a b c : Signature) :
  signature_eqb a b = true -> signature_eqb b c = true -> signature_eqb a c = true.
Proof.
  unfold signature_eqb. rewrite !andb_true_iff, !String.eqb_eq, !Qeq_bool_iff.
  intros [[H1 H2] H3] [[H4 H5] H6]. repeat split; try congruence.
  rewrite H3. exact H6.
Qed.

(** A plan repeating the signature last acted on is dropped by the loop
    before [execute_plan]: the world is exactly as it was. *)
Lemma loop_symbol_duplicate (cfg : Config) (term : Terminal) (host : Host) (s : string)
    (plan : TradePlan) (lp : Loop) (w : World) :
  duplicate_plan s plan lp = true ->
  snd (loop_symbol cfg term host s (Built plan) lp w) = w
  /\ _last_plan_signature (fst (loop_symbol cfg term host s (Built plan) lp w))
     = _last_plan_signature lp
  /\ _last_signal (executor (fst (loop_symbol cfg term host s (Built plan) lp w)))
     = _last_signal (executor lp).
Proof. intros H. unfold loop_symbol. rewrite H. repeat split. Qed.

(** A plan that is not such a repetition goes to [execute_plan]: at most
    one call of [place_trade], and the last-signal flag is up afterwards. *)
Lemma loop_symbol_executed (cfg : Config) (term : Terminal) (host : Host)
    (plan : TradePlan) (lp : Loop) (w : World) :
  duplicate_plan (symbol plan) plan lp = false ->
  last_signal_of (executor (fst (loop_symbol cfg term host (symbol plan) (Built plan) lp w)))
    (symbol plan) = true
  /\ (attempts_for (symbol plan)
        (snd (loop_symbol cfg term host (symbol plan) (Built plan) lp w))
      <= S (attempts_for (symbol plan) w))%nat.
Proof.
  intros H. unfold loop_symbol. rewrite H.
  pose proof (execute_plan_last_signal cfg term host plan
                (tick_symbol cfg (symbol plan) (executor lp)) w) as Hl.
  pose proof (execute_plan_books cfg term host plan
                (tick_symbol cfg (symbol plan) (executor lp)) w) as Hb.
  destruct (execute_plan cfg term host plan (tick_symbol cfg (symbol plan) (executor lp)) w)
    as [tk [ex' w']].
  cbn [fst snd executor] in *. split.
  - unfold last_signal_of. rewrite Hl. reflexivity.
  - destruct Hb as [Hb | (plan' & Hsym & Hb)].
    + rewrite (attempts_for_same _ _ _ Hb). lia.
    + unfold attempts_for. rewrite Hb. cbn [List.filter].
      destruct (String.eqb (symbol plan') (symbol plan)); cbn [length]; lia.
Qed.

(** With the flag up, the loop makes no execution attempt for the symbol,
    whether it drops the plan itself or [execute_plan] skips it. *)
Lemma loop_symbol_flag_up (cfg : Config) (term : Terminal) (host : Host)
    (plan : TradePlan) (lp : Loop) (w : World) :
  last_signal_of (executor lp) (symbol plan) = true ->
  place_trade_calls (snd (loop_symbol cfg term host (symbol plan) (Built plan) lp w))
  = place_trade_calls w
  /\ submissions (snd (loop_symbol cfg term host (symbol plan) (Built plan) lp w))
     = submissions w.
Proof.
  intros Hflag. unfold loop_symbol.
  destruct (duplicate_plan (symbol plan) plan lp); [split; reflexivity|].
  assert (Hup : last_signal_of (tick_symbol cfg (symbol plan) (executor lp)) (symbol plan)
                = true) by exact Hflag.
  destruct (execute_plan_suppressed cfg term host plan
              (tick_symbol cfg (symbol plan) (executor lp)) w (or_introl Hup))
    as (_ & Hs & Hc & _).
  destruct (execute_plan cfg term host plan (tick_symbol cfg (symbol plan) (executor lp)) w)
    as [tk [ex' w']].
  cbn [fst snd] in *. split; assumption.
Qed.

Lemma filter_length_bound {A : Type} (f : A -> bool) (l : list A) :
  (length (List.filter f l) <= length l)%nat.
Proof.
  induction l as [|x l IH]; cbn [List.filter length]; [lia|].
  destruct (f x); cbn [length]; lia.
Qed.

Lemma dict_fromkeys_length (l : list Z) : (length (dict_fromkeys l) <= length l)%nat.
Proof.
  induction l as [|x l IH]; cbn [dict_fromkeys length]; [lia|].
  pose proof (filter_length_bound (fun y => negb (y =? x)%Z) (dict_fromkeys l)). lia.
Qed.

Lemma filling_candidates_length (term : Terminal) : (length (filling_candidates term) <= 3)%nat.
Proof.
  unfold filling_candidates.
  etransitivity; [apply dict_fromkeys_length|].
  destruct (ORDER_FILLING_IOC term), (ORDER_FILLING_FOK term), (ORDER_FILLING_RETURN term);
    cbn; lia.
Qed.

(** One call of [place_trade] adds at most four order submissions: one in
    the default filling mode and one for each distinct alternate. *)
Lemma place_trade_submissions_count (cfg : Config) (term : Terminal) (plan : TradePlan)
    (w : World) :
  (length (submissions (snd (place_trade cfg term plan w))) <= 4 + length (submissions w))%nat.
Proof.
  destruct (place_trade_protocol cfg term plan w) as (new & Hn & Hsub & _).
  rewrite Hn, length_app.
  apply sublist_length in Hsub. unfold fillings_tried in Hsub.
  rewrite length_map, length_rev in Hsub. cbn [length] in Hsub. rewrite length_map in Hsub.
  pose proof (filling_candidates_length term). lia.
Qed.

(** So does one call of [execute_plan], which calls [place_trade] at most
    once and sends nothing itself. *)
Lemma execute_plan_submissions_count (cfg : Config) (term : Terminal) (host : Host)
    (plan : TradePlan) (ex : Executor) (w : World) :
  (length (submissions (snd (snd (execute_plan cfg term host plan ex w))))
   <= 4 + length (submissions w))%nat.
Proof.
  unfold execute_plan.
  set (plan' := match load_comment host (direction plan) with
                | Some c => if String.eqb c "" then plan else _
                | None => plan
                end).
  destruct (admission cfg term host (symbol plan) ex w) as [reason w0] eqn:Ea.
  assert (Hw0 : submissions w0 = submissions w).
  { revert Ea. unfold admission, _can_open_now, read_clock.
    repeat match goal with
           | |- context [if ?b then _ else _] => destruct b
           end; intros [= _ <-]; reflexivity. }
  destruct reason as [reason|].
  - destruct (_ || _); cbn [fst snd note_skip append_journal submissions]; rewrite Hw0; lia.
  - pose proof (place_trade_submissions_count cfg term plan' w0) as Hc.
    destruct (place_trade cfg term plan' w0) as [tk w1]. cbn [snd] in Hc.
    rewrite Hw0 in Hc.
    destruct (ticket_truthy tk) eqn:Et.
    + unfold read_clock. rewrite Et. cbn [orb fst snd append_journal submissions].
      exact Hc.
    + destruct (_ || _); cbn [fst snd append_journal submissions]; exact Hc.
Qed.

Lemma loop_symbol_submissions_count (cfg : Config) (term : Terminal) (host : Host)
    (s : string) (plan : TradePlan) (lp : Loop) (w : World) :
  (length (submissions (snd (loop_symbol cfg term host s (Built plan) lp w)))
   <= 4 + length (submissions w))%nat.
Proof.
  unfold loop_symbol. destruct (duplicate_plan s plan lp); [cbn [snd]; lia|].
  pose proof (execute_plan_submissions_count cfg term host plan
                (tick_symbol cfg s (executor lp)) w) as H.
  destruct (execute_plan cfg term host plan (tick_symbol cfg s (executor lp)) w)
    as [tk [ex' w']].
  cbn [fst snd] in *. exact H.
Qed.

(** C6 (amended).  For every instrument [s]: of two plans for [s] with the
    same normalized signature, built in consecutive cycles (other
    instruments may be visited in between, and [build_plan] may have
    raised), the second never reaches [place_trade] and submits no order,
    so the two together make at most one execution attempt, one call of
    [place_trade]; that one attempt, made for the first plan, sends at most
    four orders (the default filling mode and up to three alternates).  A
    plan whose signature equals the last acted-on signature
    [_last_plan_signature[s]] is dropped with no effect on the outside at
    all. *)
Theorem debounce_consecutive_plans (cfg : Config) (term1 term2 : Terminal)
    (host1 host2 : Host) (s : string) (plan1 plan2 : TradePlan) (between : list Visit)
    (lp : Loop) (w : World) :
  symbol plan1 = s ->
  symbol plan2 = s ->
  signature_eqb (plan_signature plan1) (plan_signature plan2) = true ->
  Forall (passes_by s) between ->
  let first := loop_symbol cfg term1 host1 s (Built plan1) lp w in
  let mid := visits cfg between (fst first) (snd first) in
  let second := loop_symbol cfg term2 host2 s (Built plan2) (fst mid) (snd mid) in
  place_trade_calls (snd second) = place_trade_calls (snd mid)
  /\ submissions (snd second) = submissions (snd mid)
  /\ (attempts_for s (snd second) <= S (attempts_for s w))%nat
  /\ (length (submissions (snd first)) <= 4 + length (submissions w))%nat
  /\ (forall (term : Terminal) (host : Host) (plan : TradePlan) (lp' : Loop) (w' : World),
        duplicate_plan s plan lp' = true ->
        snd (loop_symbol cfg term host s (Built plan) lp' w') = w').
Proof.
  intros H1 H2 Hsig Hbetween first mid second. subst s.
  destruct (visits_pass_by cfg between (symbol plan1) Hbetween (fst first) (snd first))
    as (Mflag & Msig & Matt).
  fold mid in Mflag, Msig, Matt.
  pose proof (loop_symbol_submissions_count cfg term1 host1 (symbol plan1) plan1 lp w)
    as Hcount.
  fold first in Hcount.
  assert (Hlast : forall term host plan lp' w',
            duplicate_plan (symbol plan1) plan lp' = true ->
            snd (loop_symbol cfg term host (symbol plan1) (Built plan) lp' w') = w').
  { intros term host plan lp' w' Hd.
    exact (proj1 (loop_symbol_duplicate cfg term host (symbol plan1) plan lp' w' Hd)). }
  destruct (duplicate_plan (symbol plan1) plan1 lp) eqn:Hdup.
  - (* the first plan already repeats the last acted-on signature: so does the second *)
    destruct (loop_symbol_duplicate cfg term1 host1 (symbol plan1) plan1 lp w Hdup)
      as (Hw & Hsg & _).
    fold first in Hw, Hsg.
    assert (Hdup2 : duplicate_plan (symbol plan1) plan2 (fst mid) = true).
    { unfold duplicate_plan in *. rewrite Msig, Hsg.
      destruct (_last_plan_signature lp !! symbol plan1) as [sg|]; [|discriminate].
      cbn [from_option] in *.
      apply (signature_eqb_trans _ (plan_signature plan1)); [|exact Hdup].
      rewrite signature_eqb_sym. exact Hsig. }
    pose proof (Hlast term2 host2 plan2 (fst mid) (snd mid) Hdup2) as Hsecond.
    fold second in Hsecond. rewrite Hsecond.
    split; [reflexivity|]. split; [reflexivity|].
    split; [rewrite Matt, Hw; lia|]. split; [exact Hcount | exact Hlast].
  - (* the first plan is executed and raises the flag *)
    destruct (loop_symbol_executed cfg term1 host1 plan1 lp w Hdup) as [Hflag Hatt].
    fold first in Hflag, Hatt.
    assert (Hflag2 : last_signal_of (executor (fst mid)) (symbol plan2) = true)
      by (rewrite H2, Mflag; exact Hflag).
    pose proof (loop_symbol_flag_up cfg term2 host2 plan2 (fst mid) (snd mid) Hflag2)
      as [Hc Hs].
    rewrite H2 in Hc, Hs. fold second in Hc, Hs.
    split; [exact Hc|]. split; [exact Hs|].
    split; [rewrite (attempts_for_same _ _ _ Hc), Matt; exact Hatt|].
    split; [exact Hcount | exact Hlast].
Qed.

Lemma debounce_consecutive_plans_witness :
  let first := loop_symbol default_config filling_terminal minute_host "EURUSD"
                 (Built scenario_plan) new_loop new_world in
  let mid := visits default_config [no_plan_visit "GBPUSD"] (fst first) (snd first) in
  let second := loop_symbol default_config filling_terminal minute_host "EURUSD"
                  (Built scenario_plan) (fst mid) (snd mid) in
  place_trade_calls (snd second) = place_trade_calls (snd mid)
  /\ submissions (snd second) = submissions (snd mid)
  /\ (attempts_for "EURUSD" (snd second) <= S (attempts_for "EURUSD" new_world))%nat
  /\ (length (submissions (snd first)) <= 4 + length (submissions new_world))%nat
  /\ (forall (term : Terminal) (host : Host) (plan : TradePlan) (lp' : Loop) (w' : World),
        duplicate_plan "EURUSD" plan lp' = true ->
        snd (loop_symbol default_config term host "EURUSD" (Built plan) lp' w') = w').
Proof.
  apply (debounce_consecutive_plans default_config filling_terminal filling_terminal
           minute_host minute_host "EURUSD" scenario_plan scenario_plan
           [no_plan_visit "GBPUSD"] new_loop new_world).
  - reflexivity.
  - reflexivity.
  - reflexivity.
  - constructor; [|constructor]. discriminate.
Defined.

(** C6 as stated fails: after the warm-up, the venue of scenario C rejects
    the default filling mode and IOC and fills the FOK order, so the one
    execution attempt made for the first of two identical plans sends three
    order submissions, not at most one; the second plan sends none. *)
Lemma debounce_one_attempt_three_orders :
  let first := loop_symbol default_config scenario_c_terminal minute_host "EURUSD"
                 (Built scenario_plan) (fst warm_loop) (snd warm_loop) in
  let second := loop_symbol default_config scenario_c_terminal minute_host "EURUSD"
                  (Built scenario_plan) (fst first) (snd first) in
  signature_eqb (plan_signature scenario_plan) (plan_signature scenario_plan) = true
  /\ submissions (snd warm_loop) = []
  /\ attempts_for "EURUSD" (snd second) = 1%nat
  /\ length (submissions (snd first)) = 3%nat
  /\ length (submissions (snd second)) = 3%nat
  /\ ~ (length (submissions (snd second)) <= 1)%nat.
Proof. vm_compute. repeat split. intros H. lia. Qed.

(** After the warm-up, a filled plan followed by the same plan again: one
    execution attempt, one journal row. *)
Example debounce_after_warm_up :
  let run := visits default_config
               [no_plan_visit "EURUSD"; no_plan_visit "EURUSD"; no_plan_visit "EURUSD";
                plan_visit scenario_plan; plan_visit scenario_plan]
               new_loop new_world in
  attempts_for "EURUSD" (snd run) = 1%nat
  /\ length (journal (snd run)) = 1%nat
  /\ plan_skips (snd run) = [].
Proof. vm_compute. repeat split. Qed.

(** The debounce spans consecutive cycles only: a rejected plan leaves no
    acted-on signature, so once a cycle without plan has lowered the flag
    the same plan is attempted again. *)
Example rejected_plan_retried_after_gap :
  let run := visits default_config
               [no_plan_visit "EURUSD"; no_plan_visit "EURUSD"; no_plan_visit "EURUSD";
                rejected_plan_visit scenario_plan; rejected_plan_visit scenario_plan;
                no_plan_visit "EURUSD"; rejected_plan_visit scenario_plan]
               new_loop new_world in
  attempts_for "EURUSD" (snd run) = 2%nat
  /\ plan_skips (snd run) = [("EURUSD", no_rising_edge)].
Proof. vm_compute. repeat split. Qed.

(** [execute_plan] never lowers a last-signal flag. *)
Lemma execute_plan_keeps_flags (cfg : Config) (term : Terminal) (host : Host)
    (plan : TradePlan) (ex : Executor) (w : World) (s : string) :
  last_signal_of ex s = true ->
  last_signal_of (fst (snd (execute_plan cfg term host plan ex w))) s = true.
Proof.
  intros H. unfold last_signal_of in *.
  destruct (string_dec (symbol plan) s) as [<- | Hne].
  - rewrite execute_plan_last_signal. reflexivity.
  - rewrite (proj1 (execute_plan_other cfg term host plan ex w s Hne)). exact H.
Qed.

(** C10 (amended).  Every call of [execute_plan] leaves the instrument's
    last-signal flag true, whether the order was placed, rejected or
    skipped.  While the flag is true, every further plan for the instrument
    is skipped: no ticket, nothing submitted, [place_trade] not called; the
    logged reason is [no_rising_edge] once the warm-up is over and
    [startup_protection] before that.  The only visit of the loop that
    lowers the flag of an instrument is one to that instrument in which no
    plan was produced. *)
Theorem rising_edge_suppression (cfg : Config) (term : Terminal) (host : Host)
    (plan : TradePlan) (ex : Executor) (w : World) :
  let run := execute_plan cfg term host plan ex w in
  last_signal_of (fst (snd run)) (symbol plan) = true
  /\ (last_signal_of ex (symbol plan) = true ->
      fst run = None
      /\ submissions (snd (snd run)) = submissions w
      /\ place_trade_calls (snd (snd run)) = place_trade_calls w
      /\ plan_skips (snd (snd run))
         = (symbol plan,
            if started_of ex (symbol plan) then no_rising_edge else startup_protection)
           :: plan_skips w)
  /\ (forall (v : Visit) (lp : Loop) (w' : World) (s : string),
        last_signal_of (executor lp) s = true ->
        last_signal_of (executor (fst (visit cfg v lp w'))) s = false ->
        visit_symbol v = s /\ visit_built v = NoPlan).
Proof.
  intros run. split; [|split].
  - unfold last_signal_of, run. rewrite execute_plan_last_signal. reflexivity.
  - intros H. exact (execute_plan_suppressed cfg term host plan ex w (or_introl H)).
  - intros v lp w' s Hup Hdown. unfold visit, loop_symbol in Hdown.
    destruct (visit_built v) as [| |p].
    + cbn [fst executor] in Hdown. unfold last_signal_of in *.
      rewrite tick_symbol_last_signal in Hdown. congruence.
    + split; [|reflexivity].
      cbn [fst executor] in Hdown. unfold last_signal_of, clear_signal in *.
      cbn [set_last_signal _last_signal] in Hdown.
      destruct (string_dec (visit_symbol v) s) as [Heq | Hne]; [exact Heq|].
      rewrite lookup_insert_ne, tick_symbol_last_signal in Hdown by exact Hne. congruence.
    + exfalso. destruct (duplicate_plan (visit_symbol v) p lp).
      * cbn [fst executor] in Hdown. unfold last_signal_of in *.
        rewrite tick_symbol_last_signal in Hdown. congruence.
      * pose proof (execute_plan_keeps_flags cfg (visit_term v) (visit_host v) p
                      (tick_symbol cfg (visit_symbol v) (executor lp)) w' s Hup) as Hk.
        destruct (execute_plan cfg (visit_term v) (visit_host v) p
                    (tick_symbol cfg (visit_symbol v) (executor lp)) w') as [tk [ex' w'']].
        cbn [fst snd executor] in *. congruence.
Qed.

Lemma rising_edge_suppression_witness :
  let warm := fst (visits default_config
                     [no_plan_visit "EURUSD"; no_plan_visit "EURUSD";
                      no_plan_visit "EURUSD"; plan_visit scenario_plan]
                     new_loop new_world) in
  let run := execute_plan default_config filling_terminal minute_host other_plan
               (executor warm) new_world in
  last_signal_of (executor warm) (symbol other_plan) = true
  /\ fst run = None
  /\ submissions (snd (snd run)) = submissions new_world
  /\ place_trade_calls (snd (snd run)) = place_trade_calls new_world
  /\ plan_skips (snd (snd run)) = [(symbol other_plan, no_rising_edge)].
Proof.
  intros warm run.
  assert (H : last_signal_of (executor warm) (symbol other_plan) = true)
    by (vm_compute; reflexivity).
  split; [exact H|].
  exact (proj1 (proj2 (rising_edge_suppression default_config filling_terminal minute_host
                         other_plan (executor warm) new_world)) H).
Defined.

(** C10 as stated fails during the warm-up: the first plan of an instrument
    is skipped for startup protection and raises the flag; the next plan,
    with the flag up, is skipped too, but the reason logged is again
    [startup_protection], not [no_rising_edge]. *)
Lemma warm_up_skip_is_not_rising_edge :
  let first := visit default_config (plan_visit scenario_plan) new_loop new_world in
  let second := visit default_config (plan_visit other_plan) (fst first) (snd first) in
  last_signal_of (executor (fst first)) "EURUSD" = true
  /\ plan_skips (snd second)
     = [("EURUSD", startup_protection); ("EURUSD", startup_protection)]
  /\ head (plan_skips (snd second)) <> Some ("EURUSD", no_rising_edge).
Proof. vm_compute. repeat split. discriminate. Qed.

(** ** Pattern detector (swing_strategy.py) *)

Lemma bar_slack_nonneg (c : Bar) : 0 <= bar_slack c.
Proof.
  apply slack_nonneg.
  pose proof (Qabs_nonneg (bar_open c)). pose proof (Qabs_nonneg (bar_high c)).
  pose proof (Qabs_nonneg (bar_low c)). pose proof (Qabs_nonneg (bar_close c)). lra.
Qed.

(** The test on a series with a latest candle, in the words of the
    statements. *)
Lemma is_rejection_wick_unfold (bars : list Bar) (c : Bar) (direction : string) (ratio : Q) :
  last bars = Some c ->
  _is_rejection_wick (Some bars) direction ratio
  = if Qle_bool (bar_high c - bar_low c) 0 then false
    else Qle_bool (candle_body c * wick_factor ratio) (rejecting_wick direction c)
         && Qle_bool (other_wick direction c) (candle_body c).
Proof.
  intros Hlast. unfold _is_rejection_wick, rejecting_wick, other_wick, wick_factor.
  cbn [mbind option_bind]. rewrite Hlast.
  assert (Hone : forall x, Qle_bool x (candle_body c * 1) = Qle_bool x (candle_body c)).
  { intros x. rewrite Qmult_1_r. reflexivity. }
  rewrite !Hone. destruct (String.eqb direction "bull"); reflexivity.
Qed.

(** C9 (amended).  On the latest candle of a series, with the rejecting
    wick the lower one for ["bull"] and the upper one for any other
    direction, and the factor [1.5 / max(1, ratio)]:
    [_is_rejection_wick] is true whenever the high-low range exceeds the
    slack, the rejecting wick is at least factor times the body plus the
    slack, and the other wick at most the body less the slack; it is false
    whenever the high is not above the low, or the rejecting wick is short
    of factor times the body by more than the slack, or the other wick
    exceeds the body by more than the slack.  Within the slack of either
    threshold the rounding of the double operations decides, and nothing is
    stated.  The factor is [1.5 / ratio] when [ratio >= 1]. *)
Theorem rejection_wick_test (bars : list Bar) (c : Bar) (direction : string) (ratio : Q) :
  last bars = Some c ->
  (bar_slack c < bar_high c - bar_low c ->
   candle_body c * wick_factor ratio + bar_slack c <= rejecting_wick direction c ->
   other_wick direction c + bar_slack c <= candle_body c ->
   _is_rejection_wick (Some bars) direction ratio = true)
  /\ (bar_high c <= bar_low c
      \/ rejecting_wick direction c + bar_slack c < candle_body c * wick_factor ratio
      \/ candle_body c + bar_slack c < other_wick direction c ->
      _is_rejection_wick (Some bars) direction ratio = false)
  /\ (1 <= ratio -> wick_factor ratio == 1.5 / ratio).
Proof.
  intros Hlast. rewrite (is_rejection_wick_unfold bars c direction ratio Hlast).
  pose proof (bar_slack_nonneg c) as Hs.
  split; [|split].
  - intros Hfull Hlong Hshort.
    assert (Hf : Qle_bool (bar_high c - bar_low c) 0 = false)
      by (apply Qle_bool_false; lra).
    rewrite Hf. apply andb_true_iff. split; apply Qle_bool_iff; lra.
  - intros [Hflat | [Hlong | Hshort]].
    + assert (Hf : Qle_bool (bar_high c - bar_low c) 0 = true)
        by (apply Qle_bool_iff; lra).
      rewrite Hf. reflexivity.
    + destruct (Qle_bool (bar_high c - bar_low c) 0); [reflexivity|].
      assert (Hf : Qle_bool (candle_body c * wick_factor ratio) (rejecting_wick direction c)
                   = false) by (apply Qle_bool_false; lra).
      rewrite Hf. reflexivity.
    + destruct (Qle_bool (bar_high c - bar_low c) 0); [reflexivity|].
      assert (Hf : Qle_bool (other_wick direction c) (candle_body c) = false)
        by (apply Qle_bool_false; lra).
      rewrite Hf. apply andb_false_r.
  - intros H. unfold wick_factor. rewrite (Q.max_r 1 ratio H). reflexivity.
Qed.

Lemma rejection_wick_test_witness :
  _is_rejection_wick (Some [hammer]) "bull" 2 = true
  /\ _is_rejection_wick (Some [hammer]) "bear" 2 = false.
Proof.
  split.
  - apply (proj1 (rejection_wick_test [hammer] hammer "bull" 2 eq_refl)).
    + reflexivity.
    + vm_compute. discriminate.
    + vm_compute. discriminate.
  - apply (proj1 (proj2 (rejection_wick_test [hammer] hammer "bear" 2 eq_refl))).
    right. left. reflexivity.
Defined.

(** C9 as stated fails for a ratio below one, the default 0.4 included: the
    candle's lower wick is two bodies long, short of [1.5 / 0.4 = 3.75]
    bodies, and the test is true all the same. *)
Lemma rejection_wick_ignores_small_ratio :
  _is_rejection_wick (Some [hammer]) "bull" 0.4 = true
  /\ ~ (candle_body hammer * (1.5 / 0.4) <= wick_bottom hammer
        /\ wick_top hammer <= candle_body hammer).
Proof.
  split; [reflexivity|]. intros [H _]. vm_compute in H. apply H. reflexivity.
Qed.

(** ** Zone detector (zones.py): Python's [sorted] *)

Section Sorted.
Context {A : Type} (leb : A -> A -> bool).

Lemma insert_sorted_perm (x : A) (l : list A) : insert_sorted leb x l ≡ₚ x :: l.
Proof.
  induction l as [|y l IH]; cbn [insert_sorted]; [reflexivity|].
  destruct (leb x y); [reflexivity|].
  rewrite IH. apply Permutation_swap.
Qed.

Lemma py_sorted_perm (l : list A) : py_sorted leb l ≡ₚ l.
Proof.
  induction l as [|x l IH]; [reflexivity|].
  change (py_sorted leb (x :: l)) with (insert_sorted leb x (py_sorted leb l)).
  rewrite insert_sorted_perm, IH. reflexivity.
Qed.

Lemma py_sorted_length (l : list A) : length (py_sorted leb l) = length l.
Proof. apply Permutation_length, py_sorted_perm. Qed.

(** A list already in order is returned as it is. *)
Lemma py_sorted_fixed (l : list A) :
  Sorted (fun a b => leb a b = true) l -> py_sorted leb l = l.
Proof.
  induction 1 as [|x l Hs IH Hhd]; [reflexivity|].
  change (py_sorted leb (x :: l)) with (insert_sorted leb x (py_sorted leb l)).
  rewrite IH. destruct Hhd as [|y l Hxy]; cbn [insert_sorted]; [reflexivity|].
  rewrite Hxy. reflexivity.
Qed.

Hypothesis leb_total : forall a b, leb a b = false -> leb b a = true.
Hypothesis leb_trans : forall a b c, leb a b = true -> leb b c = true -> leb a c = true.

Lemma insert_sorted_ordered (x : A) (l : list A) :
  StronglySorted (fun a b => leb a b = true) l ->
  StronglySorted (fun a b => leb a b = true) (insert_sorted leb x l).
Proof.
  induction 1 as [|y l Hs IH Hall]; cbn [insert_sorted].
  - constructor; constructor.
  - destruct (leb x y) eqn:E.
    + constructor; [constructor; assumption|].
      constructor; [exact E|].
      eapply Forall_impl; [exact Hall|]. intros z Hz. exact (leb_trans x y z E Hz).
    + constructor; [exact IH|].
      rewrite insert_sorted_perm. constructor; [exact (leb_total x y E) | exact Hall].
Qed.

Lemma py_sorted_ordered (l : list A) :
  StronglySorted (fun a b => leb a b = true) (py_sorted leb l).
Proof.
  induction l as [|x l IH]; [constructor|].
  change (py_sorted leb (x :: l)) with (insert_sorted leb x (py_sorted leb l)).
  apply insert_sorted_ordered. exact IH.
Qed.
End Sorted.

Lemma Qle_bool_total (a b : Q) : Qle_bool a b = false -> Qle_bool b a = true.
Proof. intros H. apply Qle_bool_false in H. apply Qle_bool_iff, Qlt_le_weak. exact H. Qed.

Lemma Qle_bool_trans (a b c : Q) :
  Qle_bool a b = true -> Qle_bool b c = true -> Qle_bool a c = true.
Proof. rewrite !Qle_bool_iff. apply Qle_trans. Qed.

Lemma Qge_bool_total (a b : Q) : Qge_bool a b = false -> Qge_bool b a = true.
Proof. unfold Qge_bool. apply Qle_bool_total. Qed.

Lemma Qge_bool_trans (a b c : Q) :
  Qge_bool a b = true -> Qge_bool b c = true -> Qge_bool a c = true.
Proof. unfold Qge_bool. intros H1 H2. exact (Qle_bool_trans c b a H2 H1). Qed.

(** ** Zone detector: levels in lowest terms *)

Lemma canonical_py_round (x : Q) (n : nat) : canonical (py_round x n).
Proof. unfold canonical, py_round. apply Qred_involutive. Qed.

Lemma canonical_eq (a b : Q) : canonical a -> canonical b -> a == b -> a = b.
Proof. unfold canonical. intros Ha Hb H. rewrite <- Ha, <- Hb. apply Qred_complete. exact H. Qed.

(** Distinct levels in lowest terms, in ascending order, ascend strictly. *)
Lemma ascending_strict (l : list Q) :
  Forall canonical l -> NoDup l ->
  StronglySorted (fun a b => Qle_bool a b = true) l ->
  StronglySorted Qlt l.
Proof.
  intros Hc Hn Hs. induction Hs as [|x l Hs IH Hall]; [constructor|].
  apply Forall_cons in Hc. destruct Hc as [Hx Hc].
  apply NoDup_cons in Hn. destruct Hn as [Hnx Hn].
  constructor; [apply IH; assumption|].
  rewrite Forall_forall in *. intros y Hy.
  specialize (Hall y Hy). apply Qle_bool_iff in Hall.
  apply Qle_lteq in Hall. destruct Hall as [Hlt | Heq]; [exact Hlt|].
  exfalso. apply Hnx. rewrite (canonical_eq x y Hx (Hc y Hy) Heq). exact Hy.
Qed.

Lemma descending_strict (l : list Q) :
  Forall canonical l -> NoDup l ->
  StronglySorted (fun a b => Qge_bool a b = true) l ->
  StronglySorted (fun a b => b < a) l.
Proof.
  intros Hc Hn Hs. induction Hs as [|x l Hs IH Hall]; [constructor|].
  apply Forall_cons in Hc. destruct Hc as [Hx Hc].
  apply NoDup_cons in Hn. destruct Hn as [Hnx Hn].
  constructor; [apply IH; assumption|].
  rewrite Forall_forall in *. intros y Hy.
  specialize (Hall y Hy). apply Qle_bool_iff in Hall.
  apply Qle_lteq in Hall. destruct Hall as [Hlt | Heq]; [exact Hlt|].
  exfalso. apply Hnx. rewrite (canonical_eq x y Hx (Hc y Hy)); [exact Hy|].
  symmetry. exact Heq.
Qed.

Lemma strict_NoDup (l : list Q) : StronglySorted Qlt l -> NoDup l.
Proof.
  induction 1 as [|x l Hs IH Hall]; constructor; [|exact IH].
  intros Hin. rewrite Forall_forall in Hall. exact (Qlt_irrefl x (Hall x Hin)).
Qed.

Lemma py_set_NoDup (l : list Q) : NoDup (py_set l).
Proof.
  induction l as [|x l IH]; cbn [py_set]; constructor.
  - rewrite list_elem_of_In, filter_In. intros [_ H].
    rewrite (proj2 (Qeq_bool_iff x x) (Qeq_refl x)) in H. discriminate.
  - apply NoDup_ListNoDup, List.NoDup_filter, NoDup_ListNoDup. exact IH.
Qed.

Lemma py_set_Forall (P : Q -> Prop) (l : list Q) : Forall P l -> Forall P (py_set l).
Proof.
  induction 1 as [|x l Hx _ IH]; cbn [py_set]; constructor; [exact Hx|].
  rewrite Forall_forall in *. intros y Hy.
  apply list_elem_of_In, filter_In in Hy. destruct Hy as [Hy _].
  apply IH, list_elem_of_In. exact Hy.
Qed.

(** ** Zone detector: the shape of what [_cluster_levels] returns *)

Lemma support_pairs_fst (tol : Q) (levels l : list Q) :
  map fst (map (fun r => (r, support tol levels r)) l) = l.
Proof. rewrite map_map. cbn [fst]. apply map_id. Qed.

(** The levels come out rounded, distinct, in ascending order and no more
    than [max_levels] of them. *)
Lemma cluster_levels_shape (levels : list Q) (pip mult : Q) (max_levels : nat) :
  Forall (rounded_to (cluster_prec pip)) (_cluster_levels levels pip mult max_levels)
  /\ NoDup (_cluster_levels levels pip mult max_levels)
  /\ StronglySorted (fun a b => Qle_bool a b = true)
       (_cluster_levels levels pip mult max_levels)
  /\ (length (_cluster_levels levels pip mult max_levels) <= max_levels)%nat.
Proof.
  unfold _cluster_levels.
  destruct (py_sorted Qle_bool levels) as [|first rest].
  { repeat split; try constructor. cbn. lia. }
  set (clusters := cluster_run (cluster_tol pip mult) [first] rest).
  set (rounded := py_sorted Qle_bool
                    (py_set (map (fun x => py_round x (cluster_prec pip)) clusters))).
  assert (Hr : Forall (rounded_to (cluster_prec pip)) rounded).
  { unfold rounded. rewrite py_sorted_perm. apply py_set_Forall.
    apply Forall_forall. intros q Hq. apply list_elem_of_In, in_map_iff in Hq.
    destruct Hq as (x & <- & _). exists x. reflexivity. }
  assert (Hn : NoDup rounded).
  { unfold rounded. rewrite py_sorted_perm. apply py_set_NoDup. }
  destruct (length rounded <=? max_levels)%nat eqn:E.
  - apply Nat.leb_le in E. repeat split; try assumption.
    apply py_sorted_ordered; [exact Qle_bool_total | exact Qle_bool_trans].
  - set (sig := map (fun r => (r, support (cluster_tol pip mult) levels r)) rounded).
    set (top := map fst (take max_levels (py_sorted by_support_then_price sig))).
    assert (Htop : top `sublist_of` map fst (py_sorted by_support_then_price sig)).
    { unfold top. rewrite <- firstn_map. apply sublist_take. }
    assert (Hperm : map fst (py_sorted by_support_then_price sig) ≡ₚ rounded).
    { rewrite <- (support_pairs_fst (cluster_tol pip mult) levels rounded).
      apply Permutation_map, py_sorted_perm. }
    assert (Hrt : Forall (rounded_to (cluster_prec pip)) top).
    { rewrite <- Hperm in Hr. rewrite Forall_forall in *. intros q Hq.
      apply Hr. eapply elem_of_sublist; eassumption. }
    assert (Hnt : NoDup top).
    { eapply sublist_NoDup; [|exact Htop]. rewrite Hperm. exact Hn. }
    repeat split.
    + rewrite py_sorted_perm. exact Hrt.
    + rewrite py_sorted_perm. exact Hnt.
    + apply py_sorted_ordered; [exact Qle_bool_total | exact Qle_bool_trans].
    + rewrite py_sorted_length. unfold top. rewrite length_map. apply firstn_le_length.
Qed.

Lemma rounded_to_canonical (prec : nat) (l : list Q) :
  Forall (rounded_to prec) l -> Forall canonical l.
Proof.
  intros H. eapply Forall_impl; [exact H|]. intros q [x ->]. apply canonical_py_round.
Qed.

(** [_cluster_levels] returns its levels strictly ascending. *)
Lemma cluster_levels_ascending (levels : list Q) (pip mult : Q) (max_levels : nat) :
  StronglySorted Qlt (_cluster_levels levels pip mult max_levels).
Proof.
  destruct (cluster_levels_shape levels pip mult max_levels) as (Hr & Hn & Hs & _).
  apply ascending_strict; [|assumption|assumption].
  exact (rounded_to_canonical _ _ Hr).
Qed.

(** Rounding to more decimals than a level already has leaves it alone. *)
Lemma py_round_fixed (n k : nat) (q : Q) :
  rounded_to n q -> (n <= k)%nat -> py_round q k = q.
Proof.
  intros [x ->] Hnk.
  apply canonical_eq; try apply canonical_py_round.
  set (m := round_half_even (x * pow10 n)).
  apply (py_round_decimal _ k (m * 10 ^ Z.of_nat (k - n))).
  unfold py_round. fold m. rewrite Qred_correct.
  replace k with (n + (k - n))%nat at 2 by lia.
  rewrite pow10_add, inject_Z_mult. fold (pow10 (k - n)).
  field. split; apply pow10_nonzero.
Qed.

Lemma cluster_prec_le_6 (pip : Q) : (cluster_prec pip <= 6)%nat.
Proof. unfold cluster_prec. destruct (Qltb pip 0.0005); lia. Qed.

Lemma compute_zones_from_tf_ascending (feed : Feed) (symbol tf : string)
    (lookback_bars : nat) (days_limit : option Z) :
  StronglySorted Qlt (compute_zones_from_tf feed symbol tf lookback_bars days_limit).
Proof.
  unfold compute_zones_from_tf.
  destruct (fetch_rates feed symbol tf lookback_bars) as [[|b df]|]; try constructor.
  match goal with
  | |- context [match ?d with [] => [] | _ :: _ => _ end] => destruct d as [|b' df']
  end; [constructor|].
  destruct (length (b' :: df') <? 5)%nat; [constructor|].
  rewrite py_sorted_fixed; [apply cluster_levels_ascending|].
  apply StronglySorted_Sorted.
  destruct (cluster_levels_shape (raw_levels (b' :: df')) (_symbol_pip symbol) 8 60)
    as (_ & _ & Hs & _).
  exact Hs.
Qed.

Lemma compute_zones_from_tf_empty (feed : Feed) (symbol tf : string)
    (lookback_bars : nat) (days_limit : option Z) :
  too_few_bars feed symbol tf lookback_bars ->
  compute_zones_from_tf feed symbol tf lookback_bars days_limit = [].
Proof.
  unfold too_few_bars, compute_zones_from_tf.
  destruct (fetch_rates feed symbol tf lookback_bars) as [[|b df]|]; try reflexivity.
  intros Hlen.
  assert (Hshort : forall d : list Bar,
            (length d <= length (b :: df))%nat ->
            match d with
            | [] => []
            | _ :: _ =>
                if (length d <? 5)%nat then []
                else py_sorted Qle_bool
                       (_cluster_levels (raw_levels d) (_symbol_pip symbol) 8 60)
            end = []).
  { intros d Hd. destruct d as [|b' d']; [reflexivity|].
    assert (E : (length (b' :: d') <? 5)%nat = true) by (apply Nat.ltb_lt; lia).
    rewrite E. reflexivity. }
  apply Hshort.
  destruct days_limit as [days|]; [|lia].
  destruct (days =? 0)%Z; [lia|].
  apply filter_length_bound.
Qed.

Lemma compute_zones_for_symbol_descending (feed : Feed) (symbol : string)
    (tfs : option (list string)) (lookback_bars keep_top : nat) :
  StronglySorted (fun a b => b < a)
    (compute_zones_for_symbol feed symbol tfs lookback_bars keep_top).
Proof.
  unfold compute_zones_for_symbol.
  set (all_levels := concat _).
  set (pip := _symbol_pip symbol).
  destruct (cluster_levels_shape all_levels pip 8 (keep_top * 3)) as (Hr & Hn & _ & _).
  set (merged := _cluster_levels all_levels pip 8 (keep_top * 3)) in *.
  destruct merged as [|m0 merged'] eqn:Em; [constructor|].
  rewrite <- Em in *. clear Em m0 merged'.
  set (significance := map (fun m => (m, support (pip * 8) all_levels m)) merged).
  set (chosen := take keep_top (py_sorted by_support_then_high_price significance)).
  assert (Hsub : map fst chosen
                 `sublist_of` map fst (py_sorted by_support_then_high_price significance)).
  { unfold chosen. rewrite <- firstn_map. apply sublist_take. }
  assert (Hperm : map fst (py_sorted by_support_then_high_price significance) ≡ₚ merged).
  { rewrite <- (support_pairs_fst (pip * 8) all_levels merged).
    apply Permutation_map, py_sorted_perm. }
  assert (Hrc : Forall (rounded_to (cluster_prec pip)) (map fst chosen)).
  { rewrite <- Hperm in Hr. rewrite Forall_forall in *. intros q Hq.
    apply Hr. eapply elem_of_sublist; eassumption. }
  assert (Htop : map (fun x => py_round (fst x) 6) chosen = map fst chosen).
  { rewrite <- (map_map fst (fun q => py_round q 6)).
    rewrite <- (map_id (map fst chosen)) at 2.
    apply map_ext_Forall. eapply Forall_impl; [exact Hrc|].
    intros q Hq. apply (py_round_fixed (cluster_prec pip)); [exact Hq|].
    apply cluster_prec_le_6. }
  rewrite Htop.
  apply descending_strict.
  - rewrite py_sorted_perm. exact (rounded_to_canonical _ _ Hrc).
  - rewrite py_sorted_perm. eapply sublist_NoDup; [|exact Hsub]. rewrite Hperm. exact Hn.
  - apply py_sorted_ordered; [exact Qge_bool_total | exact Qge_bool_trans].
Qed.

Lemma compute_zones_for_symbol_empty (feed : Feed) (symbol : string)
    (tfs : option (list string)) (lookback_bars keep_top : nat) :
  (forall tf, tf ∈ default ["D1"; "H4"] tfs -> too_few_bars feed symbol tf lookback_bars) ->
  compute_zones_for_symbol feed symbol tfs lookback_bars keep_top = [].
Proof.
  intros Hfew. unfold compute_zones_for_symbol.
  assert (Hall : concat (map (fun tf => compute_zones_from_tf feed symbol tf lookback_bars
                                          None) (default ["D1"; "H4"] tfs)) = []).
  { induction (default ["D1"; "H4"] tfs) as [|tf l IH]; [reflexivity|].
    cbn [map concat].
    rewrite (compute_zones_from_tf_empty feed symbol tf lookback_bars None)
      by (apply Hfew; left).
    rewrite IH; [reflexivity|]. intros tf' Htf'. apply Hfew. right. exact Htf'. }
  rewrite Hall. reflexivity.
Qed.

(** C8 (amended).  The single-timeframe zone computation returns distinct
    price levels in ascending order; the multi-timeframe merging variant
    returns distinct price levels in descending order (highest first); with
    no data or fewer than 5 bars the result of either is the empty list. *)
Theorem zone_output_shape (feed : Feed) (symbol : string) :
  (forall tf lookback_bars days_limit,
     StronglySorted Qlt (compute_zones_from_tf feed symbol tf lookback_bars days_limit))
  /\ (forall tfs lookback_bars keep_top,
        StronglySorted (fun a b => b < a)
          (compute_zones_for_symbol feed symbol tfs lookback_bars keep_top))
  /\ (forall tf lookback_bars days_limit,
        too_few_bars feed symbol tf lookback_bars ->
        compute_zones_from_tf feed symbol tf lookback_bars days_limit = [])
  /\ (forall tfs lookback_bars keep_top,
        (forall tf, tf ∈ default ["D1"; "H4"] tfs ->
                    too_few_bars feed symbol tf lookback_bars) ->
        compute_zones_for_symbol feed symbol tfs lookback_bars keep_top = []).
Proof.
  split; [|split; [|split]].
  - intros. apply compute_zones_from_tf_ascending.
  - intros. apply compute_zones_for_symbol_descending.
  - intros. apply compute_zones_from_tf_empty. assumption.
  - intros. apply compute_zones_for_symbol_empty. assumption.
Qed.

Lemma zone_output_shape_witness :
  too_few_bars four_bar_feed "EURUSD" "D1" 400
  /\ compute_zones_from_tf four_bar_feed "EURUSD" "D1" 400 None = []
  /\ compute_zones_for_symbol four_bar_feed "EURUSD" None 400 12 = [].
Proof.
  assert (H : forall tf, too_few_bars four_bar_feed "EURUSD" tf 400).
  { intros tf. unfold too_few_bars, fetch_rates.
    destruct (existsb (String.eqb tf) TIMEFRAME_MAP); [cbn; lia | exact I]. }
  destruct (zone_output_shape four_bar_feed "EURUSD") as (_ & _ & H1 & H2).
  split; [apply H|]. split.
  - apply H1, H.
  - apply H2. intros tf _. apply H.
Defined.

(** C8 as stated fails for the multi-timeframe variant: from five bars
    between 1 and 2 it returns the two levels highest first. *)
Lemma merged_zones_descend :
  compute_zones_from_tf five_bar_feed "EURUSD" "D1" 400 None = [1; 2]
  /\ compute_zones_for_symbol five_bar_feed "EURUSD" None 400 12 = [2; 1]
  /\ ~ StronglySorted Qlt (compute_zones_for_symbol five_bar_feed "EURUSD" None 400 12).
Proof.
  assert (E : compute_zones_for_symbol five_bar_feed "EURUSD" None 400 12 = [2; 1])
    by (vm_compute; reflexivity).
  split; [vm_compute; reflexivity|]. split; [exact E|].
  rewrite E. intros H. apply StronglySorted_inv in H. destruct H as [_ H].
  apply Forall_cons in H. destruct H as [H _]. revert H. discriminate.
Qed.

(** ** Zone detector: clustering a clustered level set again *)

Lemma round_half_even_comp (x y : Q) : x == y -> round_half_even x = round_half_even y.
Proof.
  intros H. unfold round_half_even.
  rewrite (Qfloor_comp x y H).
  assert (E : Qcompare (x - inject_Z (Qfloor y)) (1 # 2)
            = Qcompare (y - inject_Z (Qfloor y)) (1 # 2)) by (rewrite H; reflexivity).
  rewrite E. reflexivity.
Qed.

Lemma py_round_comp (x y : Q) (n : nat) : x == y -> py_round x n = py_round y n.
Proof.
  intros H. unfold py_round. apply Qred_complete.
  rewrite (round_half_even_comp (x * pow10 n) (y * pow10 n)); [reflexivity|].
  rewrite H. reflexivity.
Qed.

Lemma mean_singleton (x : Q) : mean [x] == x.
Proof. unfold mean. cbn. field. Qed.

(** Levels more than the tolerance apart are each a cluster of their own. *)
Lemma cluster_run_spaced (tol : Q) (rest : list Q) :
  forall a : Q,
    spaced tol (a :: rest) ->
    cluster_run tol [a] rest = map (fun x => mean [x]) (a :: rest).
Proof.
  induction rest as [|b rest IH]; intros a Hsp; cbn [cluster_run map]; [reflexivity|].
  apply Sorted_inv in Hsp. destruct Hsp as [Hrest Hhd].
  apply HdRel_inv in Hhd.
  assert (Hfar : Qle_bool (Qabs (b - mean [a])) tol = false).
  { apply Qle_bool_false. rewrite mean_singleton.
    eapply Qlt_le_trans; [exact Hhd | apply Qle_Qabs]. }
  rewrite Hfar. f_equal. exact (IH b Hrest).
Qed.

Lemma filter_keeps_all {A : Type} (f : A -> bool) (l : list A) :
  Forall (fun y => f y = true) l -> List.filter f l = l.
Proof.
  induction 1 as [|x l Hx _ IH]; cbn [List.filter]; [reflexivity|].
  rewrite Hx, IH. reflexivity.
Qed.

Lemma py_set_fixed (l : list Q) : StronglySorted Qlt l -> py_set l = l.
Proof.
  induction 1 as [|x l Hs IH Hall]; cbn [py_set]; [reflexivity|].
  rewrite IH. f_equal. apply filter_keeps_all.
  eapply Forall_impl; [exact Hall|]. intros y Hy. cbn beta.
  apply negb_true_iff, Qeq_bool_false. intros Heq. rewrite Heq in Hy.
  exact (Qlt_irrefl _ Hy).
Qed.

Lemma round_of_singleton_means (prec : nat) (l : list Q) :
  Forall (rounded_to prec) l ->
  map (fun x => py_round x prec) (map (fun x => mean [x]) l) = l.
Proof.
  induction 1 as [|x l Hx _ IH]; cbn [map]; [reflexivity|].
  rewrite IH. f_equal.
  rewrite (py_round_comp (mean [x]) x prec (mean_singleton x)).
  apply (py_round_fixed prec); [exact Hx | lia].
Qed.

Lemma cluster_run_length (tol : Q) (rest : list Q) :
  forall cur : list Q, (length (cluster_run tol cur rest) <= S (length rest))%nat.
Proof.
  induction rest as [|lv rest IH]; intros cur; cbn [cluster_run length]; [lia|].
  destruct (Qle_bool _ tol); cbn [length].
  - specialize (IH (cur ++ [lv])%list). lia.
  - specialize (IH [lv]). lia.
Qed.

Lemma spaced_dec (tol : Q) (l : list Q) : spaced tol l \/ ~ spaced tol l.
Proof.
  induction l as [|a l IH]; [left; constructor|].
  destruct IH as [IH | IH].
  - destruct l as [|b l]; [left; repeat constructor|].
    destruct (Qlt_le_dec tol (b - a)) as [Hfar | Hnear].
    + left. constructor; [exact IH | constructor; exact Hfar].
    + right. intros H. apply Sorted_inv in H. destruct H as [_ H].
      apply HdRel_inv in H. exact (Qlt_not_le _ _ H Hnear).
  - right. intros H. apply Sorted_inv in H. destruct H as [H _]. exact (IH H).
Qed.

(** Ascending levels with two neighbours within the tolerance lose a level
    in the greedy pass. *)
Lemma cluster_run_merges (tol : Q) (rest : list Q) :
  forall a : Q,
    StronglySorted Qlt (a :: rest) ->
    ~ spaced tol (a :: rest) ->
    (length (cluster_run tol [a] rest) <= length rest)%nat.
Proof.
  induction rest as [|b rest IH]; intros a Hasc Hnsp.
  - exfalso. apply Hnsp. repeat constructor.
  - cbn [cluster_run length].
    apply StronglySorted_inv in Hasc. destruct Hasc as [Hasc Hall].
    destruct (Qlt_le_dec tol (b - a)) as [Hfar | Hnear].
    + assert (Hfar' : Qle_bool (Qabs (b - mean [a])) tol = false).
      { apply Qle_bool_false. rewrite mean_singleton.
        eapply Qlt_le_trans; [exact Hfar | apply Qle_Qabs]. }
      rewrite Hfar'. cbn [length].
      assert (Hrest : ~ spaced tol (b :: rest)).
      { intros H. apply Hnsp. constructor; [exact H | constructor; exact Hfar]. }
      specialize (IH b Hasc Hrest). lia.
    + assert (Hab : a < b) by (apply Forall_cons in Hall; tauto).
      assert (Hnear' : Qle_bool (Qabs (b - mean [a])) tol = true).
      { apply Qle_bool_iff. rewrite mean_singleton, Qabs_pos; [exact Hnear | lra]. }
      rewrite Hnear'. apply cluster_run_length.
Qed.

Lemma py_set_length (l : list Q) : (length (py_set l) <= length l)%nat.
Proof.
  induction l as [|x l IH]; cbn [py_set length]; [lia|].
  pose proof (filter_length_bound (fun y => negb (Qeq_bool y x)) (py_set l)). lia.
Qed.

(** What a second pass over an output does, by the spacing of the output:
    it returns it unchanged when the neighbours are more than the tolerance
    apart, and returns fewer levels otherwise. *)
Lemma cluster_levels_again (levels : list Q) (pip mult : Q) (max_levels : nat) :
  let out := _cluster_levels levels pip mult max_levels in
  (spaced (cluster_tol pip mult) out -> _cluster_levels out pip mult max_levels = out)
  /\ (~ spaced (cluster_tol pip mult) out ->
      (length (_cluster_levels out pip mult max_levels) < length out)%nat).
Proof.
  cbn zeta.
  destruct (cluster_levels_shape levels pip mult max_levels) as (Hr & Hn & Hs & Hlen).
  pose proof (cluster_levels_ascending levels pip mult max_levels) as Hasc.
  set (out := _cluster_levels levels pip mult max_levels) in *.
  assert (Hunfold :
    _cluster_levels out pip mult max_levels
    = match out with
      | [] => []
      | first :: rest =>
          let clusters := cluster_run (cluster_tol pip mult) [first] rest in
          let rounded :=
            py_sorted Qle_bool
              (py_set (map (fun x => py_round x (cluster_prec pip)) clusters)) in
          if (length rounded <=? max_levels)%nat then rounded
          else py_sorted Qle_bool
                 (map fst (take max_levels
                    (py_sorted by_support_then_price
                       (map (fun r => (r, support (cluster_tol pip mult) out r))
                            rounded))))
      end).
  { unfold _cluster_levels at 1.
    rewrite (py_sorted_fixed Qle_bool out (StronglySorted_Sorted Hs)). reflexivity. }
  rewrite Hunfold. clear Hunfold.
  split.
  - intros Hsp. destruct out as [|first rest] eqn:Eout; [reflexivity|].
    cbv zeta.
    rewrite (cluster_run_spaced _ rest first Hsp).
    rewrite (round_of_singleton_means _ _ Hr).
    rewrite (py_set_fixed _ Hasc).
    rewrite (py_sorted_fixed Qle_bool _ (StronglySorted_Sorted Hs)).
    apply Nat.leb_le in Hlen. rewrite Hlen. reflexivity.
  - intros Hnsp. destruct out as [|first rest]; [exfalso; apply Hnsp; constructor|].
    pose proof (cluster_run_merges _ rest first Hasc Hnsp) as Hm.
    cbv zeta.
    set (rounded := py_sorted Qle_bool _).
    assert (Hrl : (length rounded <= length rest)%nat).
    { unfold rounded. rewrite py_sorted_length.
      etransitivity; [apply py_set_length|]. rewrite length_map. exact Hm. }
    cbn [length] in Hlen |- *.
    assert (E : (length rounded <=? max_levels)%nat = true) by (apply Nat.leb_le; lia).
    rewrite E. lia.
Qed.

Lemma level_slack_nonneg (tol a b : Q) : 0 <= tol -> 0 <= level_slack tol a b.
Proof.
  intros Ht. apply slack_nonneg.
  pose proof (Qabs_nonneg a). pose proof (Qabs_nonneg b). lra.
Qed.

Lemma cluster_tol_pos (pip mult : Q) : 0 < cluster_tol pip mult.
Proof.
  unfold cluster_tol. eapply Qlt_le_trans; [|apply Q.le_max_l]. reflexivity.
Qed.

Lemma clearly_spaced_spaced (tol : Q) (l : list Q) :
  0 <= tol -> clearly_spaced tol l -> spaced tol l.
Proof.
  intros Ht. unfold clearly_spaced, spaced.
  induction 1 as [|a l Hl IH Hhd]; constructor; [exact IH|].
  destruct Hhd as [|b l Hab]; constructor.
  pose proof (level_slack_nonneg tol a b Ht). lra.
Qed.

Lemma clearly_crowded_not_spaced (tol : Q) (l : list Q) :
  0 <= tol -> clearly_crowded tol l -> ~ spaced tol l.
Proof.
  intros Ht (l1 & l2 & a & b & -> & Hab) Hsp.
  pose proof (level_slack_nonneg tol a b Ht) as Hs.
  unfold spaced in Hsp. induction l1 as [|x l1 IH]; cbn [app] in Hsp.
  - apply Sorted_inv in Hsp. destruct Hsp as [_ Hhd]. apply HdRel_inv in Hhd. lra.
  - apply Sorted_inv in Hsp. destruct Hsp as [Hsp _]. exact (IH Hsp).
Qed.

(** C7 (amended).  Applying [_cluster_levels], with the same pip size,
    tolerance multiplier and cap, to one of its own outputs returns that
    output whenever the neighbouring levels of the output are more than the
    tolerance [max(1e-8, pip * multiplier)] apart by more than the slack,
    and returns fewer levels, hence another set, whenever two neighbouring
    levels are within the tolerance with the slack to spare.  For
    neighbours within the slack of the tolerance, exactly the tolerance
    apart included, the rounding of the double subtraction decides, and
    nothing is stated. *)
Theorem cluster_levels_idempotent_when_spaced (levels : list Q) (pip mult : Q)
    (max_levels : nat) :
  let out := _cluster_levels levels pip mult max_levels in
  (clearly_spaced (cluster_tol pip mult) out ->
   _cluster_levels out pip mult max_levels = out)
  /\ (clearly_crowded (cluster_tol pip mult) out ->
      (length (_cluster_levels out pip mult max_levels) < length out)%nat
      /\ _cluster_levels out pip mult max_levels <> out).
Proof.
  cbn zeta.
  destruct (cluster_levels_again levels pip mult max_levels) as [Hfix Hless].
  pose proof (Qlt_le_weak _ _ (cluster_tol_pos pip mult)) as Ht.
  split.
  - intros Hsp. apply Hfix. exact (clearly_spaced_spaced _ _ Ht Hsp).
  - intros Hcr. specialize (Hless (clearly_crowded_not_spaced _ _ Ht Hcr)).
    split; [exact Hless|]. intros E. rewrite E in Hless. lia.
Qed.

Lemma cluster_levels_idempotent_when_spaced_witness :
  _cluster_levels (_cluster_levels [1.1050; 1.1051; 1.1200; 1.1198] 0.0001 8 20)
    0.0001 8 20
  = _cluster_levels [1.1050; 1.1051; 1.1200; 1.1198] 0.0001 8 20
  /\ _cluster_levels (_cluster_levels [1.0000006; 1.0008012] 0.0001 8.005 20)
       0.0001 8.005 20
     <> _cluster_levels [1.0000006; 1.0008012] 0.0001 8.005 20.
Proof.
  split.
  - apply (proj1 (cluster_levels_idempotent_when_spaced [1.1050; 1.1051; 1.1200; 1.1198]
                    0.0001 8 20)).
    repeat constructor.
  - apply (proj2 (cluster_levels_idempotent_when_spaced [1.0000006; 1.0008012]
                    0.0001 8.005 20)).
    exists [], [], (1000001 # 1000000), (1000801 # 1000000).
    split; [vm_compute; reflexivity | vm_compute; discriminate].
Defined.

(** C7 as stated fails: two levels 0.00080005 apart (the tolerance is
    0.0008) stay two clusters, the rounding to six decimals brings them to
    1.0 and 1.0008, exactly the tolerance apart, and a second pass merges
    them into 1.0004. *)
Lemma cluster_levels_not_idempotent :
  _cluster_levels [1.0000004; 1.00080045] 0.0001 8 20 = [1; 1251 # 1250]
  /\ _cluster_levels (_cluster_levels [1.0000004; 1.00080045] 0.0001 8 20) 0.0001 8 20
     = [2501 # 2500]
  /\ _cluster_levels (_cluster_levels [1.0000004; 1.00080045] 0.0001 8 20) 0.0001 8 20
     <> _cluster_levels [1.0000004; 1.00080045] 0.0001 8 20.
Proof.
  assert (E1 : _cluster_levels [1.0000004; 1.00080045] 0.0001 8 20 = [1; 1251 # 1250])
    by (vm_compute; reflexivity).
  rewrite E1.
  assert (E2 : _cluster_levels [1; 1251 # 1250] 0.0001 8 20 = [2501 # 2500])
    by (vm_compute; reflexivity).
  rewrite E2. repeat split. discriminate.
Qed.

(** ** Execution engine (trade.py): what is sent, and how often *)





(** X1.  One call of [place_trade] sends at most as many orders as there
    are filling modes to try, the default mode and the distinct alternates,
    hence never more than four submissions, whatever the terminal
    answers. *)
Theorem place_trade_bounded_retries (cfg : Config) (term : Terminal) (plan : TradePlan)
    (w : World) :
  let new := since w (snd (place_trade cfg term plan w)) in
  (length new <= 1 + length (filling_candidates term))%nat
  /\ (length new <= 4)%nat
  /\ submissions (snd (place_trade cfg term plan w)) = (new ++ submissions w)%list.
Proof.
  cbn zeta.
  destruct (place_trade_protocol cfg term plan w) as (new & Hn & Hsub & _).
  rewrite (since_app _ _ _ Hn).
  apply sublist_length in Hsub.
  unfold fillings_tried in Hsub.
  rewrite length_map, length_rev in Hsub. cbn [length] in Hsub. rewrite length_map in Hsub.
  pose proof (filling_candidates_length term).
  repeat split; [lia | lia | exact Hn].
Qed.


(** X3.  A rejection that is not put down to the filling mode ends
    [place_trade] at once: with the checks passed and a tick available, a
    first answer that is neither a success nor an unsupported-filling
    rejection gives the result [None] after exactly one submission, in the
    default filling mode. *)
Theorem place_trade_other_rejection_is_final (cfg : Config) (term : Terminal)
    (plan : TradePlan) (w : World) (vol_ok : Q) (r : OrderResult) :
  reaches_submission cfg term plan = Some vol_ok ->
  quotes term (symbol plan) ->
  answers_at term (length (submissions w)) (Returns (Some r)) ->
  success_code term (retcode r) = false ->
  unsupported_filling r = false ->
  fst (place_trade cfg term plan w) = None
  /\ exists e,
       since w (snd (place_trade cfg term plan w)) = [e]
       /\ filling_of e = None
       /\ sub_answer e = Returns (Some r).
Proof.
  intros Hr Hq Ha Hs Hu.
  destruct (place_trade_turn cfg term plan w vol_ok _ Hr Hq Ha) as (e & w1 & Hf & Hans & Hw1 & Hrun).
  cbn [result_of _is_success] in Hrun. rewrite Hs in Hrun.
  unfold filling_rejected in Hrun. cbn [result_of] in Hrun.
  rewrite Hs, Hu in Hrun. cbn in Hrun.
  rewrite Hrun. cbn [fst snd]. split; [reflexivity|].
  exists e. split; [|auto].
  apply (since_app w w1 [e]). exact Hw1.
Qed.

Lemma place_trade_other_rejection_is_final_witness :
  fst (place_trade default_config rejecting_terminal scenario_plan new_world) = None
  /\ exists e,
       since new_world (snd (place_trade default_config rejecting_terminal scenario_plan
                               new_world)) = [e]
       /\ filling_of e = None
       /\ sub_answer e
          = Returns (Some {| retcode := 10006; res_comment := "Rejected";
                             deal := 0; order := 0 |}).
Proof.
  apply (place_trade_other_rejection_is_final default_config rejecting_terminal
           scenario_plan new_world (1 # 10)).
  - vm_compute. reflexivity.
  - intros n. cbn. discriminate.
  - intros req. reflexivity.
  - reflexivity.
  - vm_compute. reflexivity.
Defined.

(** ** Lifecycle manager (trade.py): what a sweep may submit *)

Lemma one_shots_grow_refl (st : OneShot) : one_shots_grow st st.
Proof. split; reflexivity. Qed.

Lemma one_shots_grow_trans (a b c : OneShot) :
  one_shots_grow a b -> one_shots_grow b c -> one_shots_grow a c.
Proof. intros [H1 H2] [H3 H4]. split; etransitivity; eassumption. Qed.

Lemma log_grows_impl (P R : Submission -> Prop) (w w' : World) :
  (forall s, P s -> R s) -> log_grows P w w' -> log_grows R w w'.
Proof.
  intros HPR (new & Hn & Hf). exists new. split; [exact Hn|].
  eapply Forall_impl; [exact Hf | exact HPR].
Qed.

Lemma sweep_justified_earlier (cfg : Config) (term : Terminal) (use_trailing : bool)
    (st0 st : OneShot) (all : list Position) (sub : Submission) :
  one_shots_grow st0 st ->
  sweep_justified cfg term use_trailing st all sub ->
  sweep_justified cfg term use_trailing st0 all sub.
Proof.
  intros [Hb Hp]. unfold sweep_justified.
  destruct (sub_origin sub); try tauto.
  - intros (H1 & H2 & p & Hin & Hnot & Hm). split; [assumption|]. split; [assumption|].
    exists p. split; [assumption|]. split; [|assumption]. intros Hc. apply Hnot, Hb, Hc.
  - intros (H1 & p & Hin & Hnot & Hm). split; [assumption|].
    exists p. split; [assumption|]. split; [|assumption]. intros Hc. apply Hnot, Hp, Hc.
Qed.

Lemma breakeven_tightens_behind (p : Position) (tick : Tick) :
  0 < snap_risk (snapshot p tick) ->
  breakeven_tightens p (snapshot p tick) = true ->
  stop_behind_entry p.
Proof.
  intros Hrisk Ht.
  destruct (snapshot_risk_positive p tick Hrisk) as (Hsl & Hnz & _).
  split; [exact Hnz|].
  unfold breakeven_tightens in Ht. rewrite Hsl in Ht.
  destruct (pos_type p); apply Qltb_lt in Ht; exact Ht.
Qed.

Lemma breakeven_step_sweep (cfg : Config) (term : Terminal) (use_trailing : bool)
    (p : Position) (tick : Tick) (st : OneShot) (w : World) (all : list Position) :
  p ∈ all ->
  quoted term (pos_symbol p) tick ->
  one_shots_grow st (fst (breakeven_step cfg term use_trailing p (snapshot p tick) st w))
  /\ log_grows (sweep_justified cfg term use_trailing st all) w
       (snd (breakeven_step cfg term use_trailing p (snapshot p tick) st w)).
Proof.
  intros Hin Hq. unfold breakeven_step.
  destruct (USE_TRAILING cfg) eqn:Eu;
    [|split; [apply one_shots_grow_refl | apply log_grows_refl]].
  destruct use_trailing;
    [|split; [apply one_shots_grow_refl | apply log_grows_refl]].
  destruct (Qltb 0 (snap_risk (snapshot p tick))) eqn:Erisk;
    [|split; [apply one_shots_grow_refl | apply log_grows_refl]].
  destruct (Qle_bool (BREAKEVEN_RR cfg) (snap_rr (snapshot p tick))) eqn:Err;
    [|split; [apply one_shots_grow_refl | apply log_grows_refl]].
  cbn [andb].
  case_bool_decide as Hmem; [split; [apply one_shots_grow_refl | apply log_grows_refl]|].
  destruct (breakeven_tightens p (snapshot p tick)) eqn:Et;
    [|split; [apply one_shots_grow_refl | apply log_grows_refl]].
  apply Qltb_lt in Erisk. apply Qle_bool_iff in Err.
  match goal with
  | |- context [submit term ByBreakeven ?req w] =>
      pose proof (log_grows_submit (sweep_justified cfg term true st all)
                    term ByBreakeven req w) as Hsubmit;
      destruct (submit term ByBreakeven req w) as [answer w']
  end.
  cbn [fst snd] in Hsubmit.
  assert (Hg : log_grows (sweep_justified cfg term true st all) w w').
  { apply Hsubmit. unfold sweep_justified. cbn [sub_origin sub_request].
    split; [exact Eu|]. split; [reflexivity|].
    exists p. split; [exact Hin|]. split; [exact Hmem|].
    split; [exact (breakeven_tightens_behind p tick Erisk Et)|].
    split; [exists tick; split; assumption | reflexivity]. }
  destruct answer; cbn [fst snd]; split; try exact Hg; try apply one_shots_grow_refl.
  split; cbn; [apply union_subseteq_r | reflexivity].
Qed.

Lemma partial_tp_step_sweep (cfg : Config) (term : Terminal) (use_trailing : bool)
    (p : Position) (tick : Tick) (st : OneShot) (w : World) (all : list Position) :
  p ∈ all ->
  quoted term (pos_symbol p) tick ->
  one_shots_grow st (fst (partial_tp_step cfg term p tick (snapshot p tick) st w))
  /\ log_grows (sweep_justified cfg term use_trailing st all) w
       (snd (partial_tp_step cfg term p tick (snapshot p tick) st w)).
Proof.
  intros Hin Hq. unfold partial_tp_step.
  destruct (PARTIAL_TP_ENABLED cfg) eqn:Ee;
    [|split; [apply one_shots_grow_refl | apply log_grows_refl]].
  destruct (Qltb 0 (snap_risk (snapshot p tick))) eqn:Erisk;
    [|split; [apply one_shots_grow_refl | apply log_grows_refl]].
  destruct (Qle_bool (PARTIAL_TP_RR cfg) (snap_rr (snapshot p tick))) eqn:Err;
    [|split; [apply one_shots_grow_refl | apply log_grows_refl]].
  cbn [andb].
  case_bool_decide as Hmem; [split; [apply one_shots_grow_refl | apply log_grows_refl]|].
  destruct (Qle_bool _ _ && Qltb _ _) eqn:Evol;
    [|split; [apply one_shots_grow_refl | apply log_grows_refl]].
  apply andb_true_iff in Evol as [Elo Ehi].
  apply Qle_bool_iff in Elo. apply Qltb_lt in Ehi.
  apply Qltb_lt in Erisk. apply Qle_bool_iff in Err.
  destruct (snapshot_risk_positive p tick Erisk) as (_ & Hnz & _).
  match goal with
  | |- context [submit term ByPartialTP ?req w] =>
      pose proof (log_grows_submit (sweep_justified cfg term use_trailing st all)
                    term ByPartialTP req w) as Hsubmit;
      destruct (submit term ByPartialTP req w) as [answer w']
  end.
  cbn [fst snd] in Hsubmit.
  assert (Hg : log_grows (sweep_justified cfg term use_trailing st all) w w').
  { apply Hsubmit. unfold sweep_justified. cbn [sub_origin sub_request].
    split; [exact Ee|].
    exists p. split; [exact Hin|]. split; [exact Hmem|].
    split; [exact Hnz|].
    eexists tick, _. split; [exact Hq|]. split; [exact Err|].
    split; [reflexivity|]. cbn [deal_symbol deal_type deal_price deal_volume deal_sl deal_tp].
    split; [reflexivity|].
    split; [unfold closing_side; destruct (pos_type p); reflexivity|].
    split; [unfold closing_price; destruct (pos_type p); reflexivity|].
    split; [exact Elo|]. split; [exact Ehi|]. split; reflexivity. }
  destruct answer as [|[r|]]; cbn [fst snd];
    try (split; [apply one_shots_grow_refl | exact Hg]).
  destruct (success_code term (retcode r)); cbn [fst snd];
    (split; [|exact Hg]); [|apply one_shots_grow_refl].
  split; cbn; [reflexivity | apply union_subseteq_r].
Qed.

Lemma trailing_step_sweep (cfg : Config) (term : Terminal) (use_trailing : bool) (mult : Q)
    (p : Position) (s : Snapshot) (st : OneShot) (w : World) (all : list Position) :
  log_grows (sweep_justified cfg term use_trailing st all) w
    (trailing_step cfg term use_trailing mult p s w).
Proof.
  unfold trailing_step, trailing_target.
  destruct use_trailing; [|apply log_grows_refl].
  destruct (Qltb 0 (snap_risk s)); [|apply log_grows_refl].
  destruct (USE_TRAILING cfg) eqn:Eu; [|apply log_grows_refl].
  cbn [andb].
  assert (Hany : forall new_sl,
            log_grows (sweep_justified cfg term true st all) w
              (snd (submit term ByTrailing
                      (Sltp {| sltp_position := ticket p; sltp_sl := new_sl;
                               sltp_tp := snap_tp s |}) w))).
  { intros new_sl. apply log_grows_submit. unfold sweep_justified.
    cbn [sub_origin]. auto. }
  destruct (pos_type p).
  - destruct (Qle_bool _ _); [|apply log_grows_refl].
    destruct (snap_sl s); [|apply Hany].
    destruct (Qltb _ _); [apply Hany | apply log_grows_refl].
  - destruct (Qle_bool _ _); [|apply log_grows_refl].
    destruct (snap_sl s); [|apply Hany].
    destruct (Qltb _ _); [apply Hany | apply log_grows_refl].
Qed.

Lemma manage_position_sweep (cfg : Config) (term : Terminal) (use_trailing : bool) (mult : Q)
    (p : Position) (st : OneShot) (w : World) (all : list Position) :
  p ∈ all ->
  one_shots_grow st (fst (manage_position cfg term use_trailing mult p st w))
  /\ log_grows (sweep_justified cfg term use_trailing st all) w
       (snd (manage_position cfg term use_trailing mult p st w)).
Proof.
  intros Hin. unfold manage_position.
  destruct (query_tick term (pos_symbol p) w) as [tick w0] eqn:Eq.
  assert (H0 : log_grows (sweep_justified cfg term use_trailing st all) w w0).
  { apply log_grows_same.
    rewrite <- (query_tick_submissions term (pos_symbol p) w), Eq. reflexivity. }
  destruct tick as [tick|]; [|split; [apply one_shots_grow_refl | exact H0]].
  assert (Hq : quoted term (pos_symbol p) tick).
  { exists (tick_queries w). unfold query_tick in Eq. congruence. }
  destruct (breakeven_step_sweep cfg term use_trailing p tick st w0 all Hin Hq) as [G1 H1].
  destruct (breakeven_step cfg term use_trailing p (snapshot p tick) st w0) as [st1 w1].
  destruct (partial_tp_step_sweep cfg term use_trailing p tick st1 w1 all Hin Hq) as [G2 H2].
  destruct (partial_tp_step cfg term p tick (snapshot p tick) st1 w1) as [st2 w2].
  cbn [fst snd] in *.
  split; [eapply one_shots_grow_trans; eassumption|].
  eapply log_grows_trans; [exact H0|].
  eapply log_grows_trans; [exact H1|].
  eapply log_grows_trans.
  - eapply log_grows_impl; [|exact H2].
    intros s. apply sweep_justified_earlier. exact G1.
  - eapply log_grows_impl; [|apply (trailing_step_sweep cfg term use_trailing mult p _ st2 w2 all)].
    intros s. apply sweep_justified_earlier. eapply one_shots_grow_trans; eassumption.
Qed.

Lemma manage_positions_sweep (cfg : Config) (term : Terminal) (use_trailing : bool) (mult : Q)
    (all : list Position) (pos_list : list Position) :
  (forall p, p ∈ pos_list -> p ∈ all) ->
  forall (st : OneShot) (w : World),
    one_shots_grow st (fst (manage_positions cfg term use_trailing mult pos_list st w))
    /\ log_grows (sweep_justified cfg term use_trailing st all) w
         (snd (manage_positions cfg term use_trailing mult pos_list st w)).
Proof.
  induction pos_list as [|p rest IH]; intros Hsub st w; cbn [manage_positions].
  - split; [apply one_shots_grow_refl | apply log_grows_refl].
  - destruct (manage_position_sweep cfg term use_trailing mult p st w all
                (Hsub p (list_elem_of_here p rest))) as [G1 H1].
    destruct (manage_position cfg term use_trailing mult p st w) as [st1 w1].
    cbn [fst snd] in *.
    destruct (IH (fun q Hq => Hsub q (list_elem_of_further q p rest Hq)) st1 w1) as [G2 H2].
    split; [eapply one_shots_grow_trans; eassumption|].
    eapply log_grows_trans; [exact H1|].
    eapply log_grows_impl; [|exact H2].
    intros s. apply sweep_justified_earlier. exact G1.
Qed.

Lemma manage_open_positions_sweep (cfg : Config) (term : Terminal) (use_trailing : bool)
    (mult : Q) (st : OneShot) (w : World) :
  one_shots_grow st (fst (manage_open_positions cfg term use_trailing mult st w))
  /\ log_grows (sweep_justified cfg term use_trailing st (listed_positions term)) w
       (snd (manage_open_positions cfg term use_trailing mult st w)).
Proof.
  unfold manage_open_positions, listed_positions.
  destruct (positions_get term None) as [|pos_list].
  - split; [apply one_shots_grow_refl | apply log_grows_refl].
  - apply manage_positions_sweep. auto.
Qed.

(** X4.  A breakeven modification is only ever sent for a listed position
    whose ticket was not yet recorded, whose stop is set and lies on the
    losing side of the entry by more than [1e-9], and whose reward has
    reached [BREAKEVEN_RR] times the risk at a quoted price; it moves the
    stop to the entry price exactly and keeps the target.  None is sent
    unless both [USE_TRAILING] and the [use_trailing] argument are on. *)
Theorem breakeven_moves_stop_to_entry (cfg : Config) (term : Terminal) (use_trailing : bool)
    (trailing_r_mult : Q) (st : OneShot) (w : World) :
  Forall (fun sub =>
            sub_origin sub = ByBreakeven ->
            USE_TRAILING cfg = true /\ use_trailing = true
            /\ exists p, p ∈ listed_positions term
                         /\ (ticket p ∉ _breakeven_set_tickets st)
                         /\ breakeven_move cfg term p (sub_request sub))
    (since w (snd (manage_open_positions cfg term use_trailing trailing_r_mult st w))).
Proof.
  destruct (manage_open_positions_sweep cfg term use_trailing trailing_r_mult st w) as [_ H].
  apply log_grows_since in H.
  eapply Forall_impl; [exact H|].
  intros sub Hj Ho. unfold sweep_justified in Hj. rewrite Ho in Hj. exact Hj.
Qed.

(** X5.  A partial take-profit order is only ever sent when
    [PARTIAL_TP_ENABLED] is on, for a listed position with a stop whose
    reward has reached [PARTIAL_TP_RR] times the risk and whose ticket was
    not yet recorded as partially closed; it is a market order on the
    opposite side at the closing price, without stop or target, and its
    volume is at least the minimum volume and less than the position's
    volume: the position is never closed whole. *)
Theorem partial_tp_never_closes_whole_position (cfg : Config) (term : Terminal)
    (use_trailing : bool) (trailing_r_mult : Q) (st : OneShot) (w : World) :
  Forall (fun sub =>
            sub_origin sub = ByPartialTP ->
            PARTIAL_TP_ENABLED cfg = true
            /\ exists p, p ∈ listed_positions term
                         /\ (ticket p ∉ _partial_closed_tickets st)
                         /\ partial_close cfg term p (sub_request sub))
    (since w (snd (manage_open_positions cfg term use_trailing trailing_r_mult st w))).
Proof.
  destruct (manage_open_positions_sweep cfg term use_trailing trailing_r_mult st w) as [_ H].
  apply log_grows_since in H.
  eapply Forall_impl; [exact H|].
  intros sub Hj Ho. unfold sweep_justified in Hj. rewrite Ho in Hj. exact Hj.
Qed.

(** ** Lifecycle manager: the partial take-profit one-shot *)












Lemma snapshot_without_stop (p : Position) (tick : Tick) :
  pos_sl p == 0 -> Qltb 0 (snap_risk (snapshot p tick)) = false.
Proof.
  intros H. unfold snapshot, truthy_price. cbn [snap_risk].
  apply Qeq_bool_iff in H. rewrite H. reflexivity.
Qed.

Lemma manage_position_without_stop (cfg : Config) (term : Terminal) (use_trailing : bool)
    (mult : Q) (p : Position) (st : OneShot) (w : World) :
  pos_sl p == 0 ->
  fst (manage_position cfg term use_trailing mult p st w) = st
  /\ submissions (snd (manage_position cfg term use_trailing mult p st w)) = submissions w.
Proof.
  intros H. unfold manage_position.
  destruct (query_tick term (pos_symbol p) w) as [tick w0] eqn:Eq.
  assert (Hw0 : submissions w0 = submissions w).
  { rewrite <- (query_tick_submissions term (pos_symbol p) w), Eq. reflexivity. }
  destruct tick as [tick|]; [|auto].
  unfold breakeven_step, partial_tp_step, trailing_step, trailing_target.
  rewrite (snapshot_without_stop p tick H).
  rewrite ?andb_false_r. cbn [andb fst snd]. rewrite ?andb_false_r. cbn [andb fst snd].
  auto.
Qed.

(** X8.  A position without a stop-loss is never touched: a sweep over
    positions none of which has a stop sends nothing to the terminal and
    records no ticket, however far in profit they are. *)
Theorem positions_without_stop_untouched (cfg : Config) (term : Terminal)
    (use_trailing : bool) (trailing_r_mult : Q) (st : OneShot) (w : World) :
  Forall (fun p => pos_sl p == 0) (listed_positions term) ->
  fst (manage_open_positions cfg term use_trailing trailing_r_mult st w) = st
  /\ submissions (snd (manage_open_positions cfg term use_trailing trailing_r_mult st w))
     = submissions w.
Proof.
  unfold manage_open_positions, listed_positions.
  destruct (positions_get term None) as [|pos_list]; [auto|].
  generalize (default [] pos_list). clear pos_list.
  intros l Hl. revert st w.
  induction Hl as [|p rest Hp Hrest IH]; intros st w; cbn [manage_positions]; [auto|].
  destruct (manage_position_without_stop cfg term use_trailing trailing_r_mult p st w Hp)
    as [Hs Hw].
  destruct (manage_position cfg term use_trailing trailing_r_mult p st w) as [st1 w1].
  cbn [fst snd] in *. subst st1. rewrite <- Hw. apply IH.
Qed.

Lemma positions_without_stop_untouched_witness :
  fst (manage_open_positions partial_tp_config stopless_terminal true 0.5
         no_one_shots new_world) = no_one_shots
  /\ submissions (snd (manage_open_positions partial_tp_config stopless_terminal true 0.5
                         no_one_shots new_world))
     = submissions new_world.
Proof.
  apply (positions_without_stop_untouched partial_tp_config stopless_terminal true 0.5
           no_one_shots new_world).
  constructor; [reflexivity | constructor].
Defined.

(** ** Execution coordinator: admission, cooldown and the journal *)

Lemma build_order_request_ledger (term : Terminal) (plan : TradePlan) (v : option Q)
    (f : option Z) (w : World) :
  clock_reads (snd (build_order_request term plan v f w)) = clock_reads w
  /\ journal (snd (build_order_request term plan v f w)) = journal w.
Proof.
  unfold build_order_request, query_tick.
  destruct (symbol_info_tick term (tick_queries w) (symbol plan)); split; reflexivity.
Qed.

Lemma fallback_fillings_ledger (term : Terminal) (plan : TradePlan) (vol_ok : Q)
    (candidates : list Z) :
  forall w : World,
    clock_reads (snd (fallback_fillings term plan vol_ok candidates w)) = clock_reads w
    /\ journal (snd (fallback_fillings term plan vol_ok candidates w)) = journal w.
Proof.
  induction candidates as [|fm rest IH]; intros w; cbn [fallback_fillings].
  - split; reflexivity.
  - destruct (build_order_request_ledger term plan (Some vol_ok) (Some fm) w) as [Hc Hs].
    destruct (build_order_request term plan (Some vol_ok) (Some fm) w) as [[req_f|] w0];
      cbn [fst snd] in *.
    + unfold submit.
      set (w1 := {| submissions := _ :: submissions w0; tick_queries := tick_queries w0;
                    clock_reads := clock_reads w0;
                    place_trade_calls := place_trade_calls w0;
                    plan_skips := plan_skips w0; journal := journal w0 |}).
      assert (H1 : clock_reads w1 = clock_reads w /\ journal w1 = journal w)
        by (split; assumption).
      destruct (IH w1) as [IHc IHs].
      assert (Hrest : clock_reads (snd (fallback_fillings term plan vol_ok rest w1))
                      = clock_reads w
                      /\ journal (snd (fallback_fillings term plan vol_ok rest w1))
                         = journal w)
        by (destruct H1; split; congruence).
      destruct (_is_success term _); [exact H1|].
      destruct (result_of _) as [r|]; [|exact Hrest].
      destruct (unsupported_filling r); [exact Hrest | exact H1].
    + destruct (IH w0) as [IHc IHs]. split; congruence.
Qed.

(** [place_trade] neither reads the clock nor writes the journal. *)
Lemma place_trade_ledger (cfg : Config) (term : Terminal) (plan : TradePlan) (w : World) :
  clock_reads (snd (place_trade cfg term plan w)) = clock_reads w
  /\ journal (snd (place_trade cfg term plan w)) = journal w.
Proof.
  unfold place_trade.
  destruct (NOTIFY_ONLY cfg || negb (TRADE_ENABLED cfg)); [split; reflexivity|].
  destruct (Qltb (FAT_FINGER_MAX_LOTS cfg) (lots plan)); [split; reflexivity|].
  unfold query_tick. cbn [note_place_trade tick_queries submissions clock_reads
                           place_trade_calls plan_skips journal].
  set (wq := {| submissions := submissions w; tick_queries := S (tick_queries w);
                clock_reads := clock_reads w;
                place_trade_calls := plan :: place_trade_calls w;
                plan_skips := plan_skips w; journal := journal w |}).
  destruct (symbol_info term (symbol plan) ≫= _) as [vol_ok|]; [|split; reflexivity].
  destruct (build_order_request_ledger term plan (Some vol_ok) None wq) as [Hc Hs].
  destruct (build_order_request term plan (Some vol_ok) None wq) as [[req|] w0];
    cbn [fst snd] in *; [|split; assumption].
  unfold submit.
  set (w1 := {| submissions := _ :: submissions w0; tick_queries := tick_queries w0;
                clock_reads := clock_reads w0;
                place_trade_calls := place_trade_calls w0;
                plan_skips := plan_skips w0; journal := journal w0 |}).
  assert (H1 : clock_reads w1 = clock_reads w /\ journal w1 = journal w)
    by (split; assumption).
  destruct (fallback_fillings_ledger term plan vol_ok (filling_candidates term) w1)
    as [Fc Fs].
  assert (Hrest : clock_reads
                    (snd (fallback_fillings term plan vol_ok (filling_candidates term) w1))
                  = clock_reads w
                  /\ journal
                       (snd (fallback_fillings term plan vol_ok (filling_candidates term) w1))
                     = journal w)
    by (destruct H1; split; congruence).
  destruct (_is_success term _); [exact H1|].
  destruct (result_of _) as [r|]; [|exact Hrest].
  destruct (unsupported_filling r); [exact Hrest | exact H1].
Qed.

Lemma with_comment_fields (host : Host) (plan : TradePlan) :
  symbol (with_comment host plan) = symbol plan
  /\ direction (with_comment host plan) = direction plan
  /\ entry_price (with_comment host plan) = entry_price plan
  /\ lots (with_comment host plan) = lots plan.
Proof.
  unfold with_comment. destruct (load_comment host (direction plan)) as [c|]; [|auto].
  destruct (String.eqb c ""); auto.
Qed.

Lemma with_comment_signature (host : Host) (plan : TradePlan) :
  _plan_signature (with_comment host plan) = _plan_signature plan.
Proof.
  destruct (with_comment_fields host plan) as (H1 & H2 & H3 & _).
  unfold _plan_signature. rewrite H1, H2, H3. reflexivity.
Qed.

(** What the admission decision found, by outcome. *)
Lemma admission_outcome (cfg : Config) (term : Terminal) (host : Host) (sym : string)
    (ex : Executor) (w : World) :
  match fst (admission cfg term host sym ex w) with
  | None =>
      admitted cfg term host sym ex w
      /\ snd (admission cfg term host sym ex w) = snd (read_clock host w)
  | Some reason =>
      ~ admitted cfg term host sym ex w
      /\ submissions (snd (admission cfg term host sym ex w)) = submissions w
      /\ place_trade_calls (snd (admission cfg term host sym ex w)) = place_trade_calls w
      /\ plan_skips (snd (admission cfg term host sym ex w)) = plan_skips w
      /\ journal (snd (admission cfg term host sym ex w)) = journal w
      /\ tick_queries (snd (admission cfg term host sym ex w)) = tick_queries w
  end.
Proof.
  unfold admission, admitted, started_of, last_signal_of, _can_open_now, read_clock.
  destruct (default false (_started ex !! sym)); cbn [negb fst snd];
    [|split; [intros (H & _); discriminate | repeat split]].
  destruct (default false (_last_signal ex !! sym)); cbn [fst snd];
    [split; [intros (_ & H & _); discriminate | repeat split]|].
  destruct (_has_open_trade cfg term sym); cbn [fst snd];
    [split; [intros (_ & _ & H & _); discriminate | repeat split]|].
  destruct (Qle_bool _ _) eqn:Ec; cbn [fst snd].
  - apply Qle_bool_iff in Ec. repeat split. exact Ec.
  - apply Qle_bool_false in Ec. split; [|repeat split].
    intros (_ & _ & _ & H). apply (Qlt_not_le _ _ Ec H).
Qed.

(** The two halves of the admission decision as [execute_plan] acts on
    them. *)
Lemma execute_plan_by_admission (cfg : Config) (term : Terminal) (host : Host)
    (plan : TradePlan) (ex : Executor) (w : World) :
  let run := execute_plan cfg term host plan ex w in
  let w' := snd (snd run) in
  (admitted cfg term host (symbol plan) ex w ->
   place_trade_calls w' = with_comment host plan :: place_trade_calls w
   /\ plan_skips w' = plan_skips w)
  /\ (~ admitted cfg term host (symbol plan) ex w ->
      fst run = None
      /\ place_trade_calls w' = place_trade_calls w
      /\ submissions w' = submissions w
      /\ tick_queries w' = tick_queries w
      /\ exists reason, plan_skips w' = (symbol plan, reason) :: plan_skips w).
Proof.
  cbn zeta. unfold execute_plan. fold (with_comment host plan).
  pose proof (admission_outcome cfg term host (symbol plan) ex w) as Ha.
  destruct (admission cfg term host (symbol plan) ex w) as [[reason|] w0];
    cbn [fst snd] in Ha.
  - destruct Ha as (Hnot & Hs & Hc & Hk & Hj & Ht).
    split; [intros H; contradiction|]. intros _.
    destruct (_ || _); cbn [fst snd note_skip append_journal place_trade_calls submissions
                              tick_queries plan_skips];
      (split; [reflexivity|]); (split; [exact Hc|]); (split; [exact Hs|]);
      (split; [exact Ht|]); exists reason; rewrite Hk; reflexivity.
  - destruct Ha as [Hadm Hw0]. split; [|intros H; contradiction]. intros _.
    destruct (place_trade_books cfg term (with_comment host plan) w0) as [Hc Hk].
    destruct (place_trade cfg term (with_comment host plan) w0) as [tk w1].
    cbn [fst snd] in Hc, Hk. subst w0. unfold read_clock in Hc, Hk.
    cbn [snd place_trade_calls plan_skips] in Hc, Hk.
    destruct (ticket_truthy tk) eqn:Et.
    + unfold read_clock. rewrite Et.
      cbn [orb fst snd append_journal place_trade_calls plan_skips]. auto.
    + destruct (_ || _); cbn [fst snd append_journal place_trade_calls plan_skips]; auto.
Qed.

(** X9.  [execute_plan] calls [place_trade] exactly when the symbol's
    warm-up is over, its last-signal flag is down, the position cap is not
    reached and the cooldown has elapsed: then it calls it once, with the
    plan carrying the loaded comment, and logs no skip; otherwise it returns
    no ticket, logs exactly one [PLAN_SKIP], does not call [place_trade],
    sends no order and asks for no tick.  (Its one question to the
    terminal on that path is the list of the symbol's open positions, which
    [_has_open_trade] reads for the position cap once the first two checks
    have passed.) *)
Theorem execute_plan_attempts_iff_admitted (cfg : Config) (term : Terminal) (host : Host)
    (plan : TradePlan) (ex : Executor) (w : World) :
  let run := execute_plan cfg term host plan ex w in
  let w' := snd (snd run) in
  (admitted cfg term host (symbol plan) ex w ->
   place_trade_calls w' = with_comment host plan :: place_trade_calls w
   /\ plan_skips w' = plan_skips w)
  /\ (~ admitted cfg term host (symbol plan) ex w ->
      fst run = None
      /\ place_trade_calls w' = place_trade_calls w
      /\ submissions w' = submissions w
      /\ tick_queries w' = tick_queries w
      /\ exists reason, plan_skips w' = (symbol plan, reason) :: plan_skips w).
Proof. exact (execute_plan_by_admission cfg term host plan ex w). Qed.

Lemma execute_plan_attempts_iff_admitted_witness :
  admitted default_config filling_terminal minute_host "EURUSD" warm_executor new_world
  /\ place_trade_calls
       (snd (snd (execute_plan default_config filling_terminal minute_host scenario_plan
                    warm_executor new_world)))
     = [scenario_plan].
Proof.
  assert (H : admitted default_config filling_terminal minute_host (symbol scenario_plan)
                warm_executor new_world).
  { repeat split; try reflexivity. vm_compute. discriminate. }
  split; [exact H|].
  exact (proj1 (proj1 (execute_plan_attempts_iff_admitted default_config filling_terminal
                         minute_host scenario_plan warm_executor new_world) H)).
Defined.

(** ** Execution coordinator: the warm-up *)

Lemma execute_plan_warm_up_state (cfg : Config) (term : Terminal) (host : Host)
    (plan : TradePlan) (ex : Executor) (w : World) :
  _started (fst (snd (execute_plan cfg term host plan ex w))) = _started ex
  /\ _bars_seen (fst (snd (execute_plan cfg term host plan ex w))) = _bars_seen ex.
Proof.
  unfold execute_plan.
  destruct (admission cfg term host (symbol plan) ex w) as [[reason|] w0].
  - destruct (_ || _); split; reflexivity.
  - destruct (place_trade cfg term _ w0) as [tk w1].
    destruct (ticket_truthy tk) eqn:Et.
    + destruct (read_clock host w1) as [now w2]. rewrite Et. split; reflexivity.
    + destruct (_ || _); split; reflexivity.
Qed.

Lemma visit_warm_up_state (cfg : Config) (v : Visit) (lp : Loop) (w : World) :
  _started (executor (fst (visit cfg v lp w)))
  = _started (tick_symbol cfg (visit_symbol v) (executor lp))
  /\ _bars_seen (executor (fst (visit cfg v lp w)))
     = _bars_seen (tick_symbol cfg (visit_symbol v) (executor lp)).
Proof.
  unfold visit, loop_symbol.
  destruct (visit_built v) as [| |plan]; cbn [fst executor]; try (split; reflexivity).
  destruct (duplicate_plan (visit_symbol v) plan lp); cbn [fst executor];
    [split; reflexivity|].
  pose proof (execute_plan_warm_up_state cfg (visit_term v) (visit_host v) plan
                (tick_symbol cfg (visit_symbol v) (executor lp)) w) as H.
  destruct (execute_plan cfg (visit_term v) (visit_host v) plan
              (tick_symbol cfg (visit_symbol v) (executor lp)) w) as [tk [ex' w']].
  exact H.
Qed.

Lemma tick_symbol_warm_up (cfg : Config) (s0 s : string) (ex : Executor) (c : Z) :
  default 0%Z (_bars_seen ex !! s) = c ->
  started_of ex s = (STARTUP_PROTECTION_CYCLES cfg <? c)%Z ->
  let c' := if String.eqb s0 s then (c + 1)%Z else c in
  default 0%Z (_bars_seen (tick_symbol cfg s0 ex) !! s) = c'
  /\ started_of (tick_symbol cfg s0 ex) s = (STARTUP_PROTECTION_CYCLES cfg <? c')%Z.
Proof.
  intros Hc Hs. cbn zeta. unfold tick_symbol, started_of in *. cbn [_bars_seen _started].
  destruct (String.eqb_spec s0 s) as [->|Hne].
  - rewrite lookup_insert_eq. rewrite Hc. cbn [default]. split; [reflexivity|].
    destruct (STARTUP_PROTECTION_CYCLES cfg <? c + 1)%Z eqn:E.
    + rewrite lookup_insert_eq. reflexivity.
    + rewrite Hs. apply Z.ltb_ge in E. apply Z.ltb_ge. lia.
  - rewrite lookup_insert_ne by exact Hne. split; [exact Hc|].
    destruct (STARTUP_PROTECTION_CYCLES cfg <? default 0 (_bars_seen ex !! s0) + 1)%Z;
      [rewrite lookup_insert_ne by exact Hne|]; exact Hs.
Qed.

Lemma visit_warm_up (cfg : Config) (v : Visit) (lp : Loop) (w : World) (s : string) (c : Z) :
  plan_for_visited_symbol v ->
  default 0%Z (_bars_seen (executor lp) !! s) = c ->
  started_of (executor lp) s = (STARTUP_PROTECTION_CYCLES cfg <? c)%Z ->
  let c' := if String.eqb (visit_symbol v) s then (c + 1)%Z else c in
  default 0%Z (_bars_seen (executor (fst (visit cfg v lp w))) !! s) = c'
  /\ started_of (executor (fst (visit cfg v lp w))) s
     = (STARTUP_PROTECTION_CYCLES cfg <? c')%Z
  /\ ((c' <= STARTUP_PROTECTION_CYCLES cfg)%Z ->
      attempts_for s (snd (visit cfg v lp w)) = attempts_for s w).
Proof.
  intros Hplan Hc Hs. cbn zeta.
  destruct (visit_warm_up_state cfg v lp w) as [Hst Hbs].
  destruct (tick_symbol_warm_up cfg (visit_symbol v) s (executor lp) c Hc Hs) as [Tc Ts].
  cbn zeta in Tc, Ts. revert Tc Ts.
  destruct (String.eqb_spec (visit_symbol v) s) as [Heq|Hne]; intros Tc Ts.
  - split; [rewrite Hbs; exact Tc|].
    split; [unfold started_of in *; rewrite Hst; exact Ts|].
    intros Hle. apply attempts_for_same.
    unfold visit, loop_symbol. unfold plan_for_visited_symbol in Hplan.
    destruct (visit_built v) as [| |plan]; cbn [snd]; try reflexivity.
    destruct (duplicate_plan (visit_symbol v) plan lp); cbn [snd]; [reflexivity|].
    assert (Hcold : started_of (tick_symbol cfg (visit_symbol v) (executor lp)) (symbol plan)
                    = false).
    { rewrite Hplan. rewrite Heq at 2. rewrite Ts. apply Z.ltb_ge. exact Hle. }
    destruct (execute_plan_suppressed cfg (visit_term v) (visit_host v) plan
                (tick_symbol cfg (visit_symbol v) (executor lp)) w (or_intror Hcold))
      as (_ & _ & Hcalls & _).
    destruct (execute_plan cfg (visit_term v) (visit_host v) plan
                (tick_symbol cfg (visit_symbol v) (executor lp)) w) as [tk [ex' w']].
    exact Hcalls.
  - split; [rewrite Hbs; exact Tc|].
    split; [unfold started_of in *; rewrite Hst; exact Ts|].
    intros _.
    assert (Hpass : passes_by s v).
    { unfold passes_by. unfold plan_for_visited_symbol in Hplan.
      destruct (visit_built v); auto. }
    exact (proj2 (proj2 (visit_passes_by cfg v lp w s Hpass))).
Qed.

Lemma visits_warm_up (cfg : Config) (vs : list Visit) (s : string) :
  Forall plan_for_visited_symbol vs ->
  forall (lp : Loop) (w : World) (c : Z),
    default 0%Z (_bars_seen (executor lp) !! s) = c ->
    started_of (executor lp) s = (STARTUP_PROTECTION_CYCLES cfg <? c)%Z ->
    let c' := (c + Z.of_nat (visits_to s vs))%Z in
    started_of (executor (fst (visits cfg vs lp w))) s
    = (STARTUP_PROTECTION_CYCLES cfg <? c')%Z
    /\ ((c' <= STARTUP_PROTECTION_CYCLES cfg)%Z ->
        attempts_for s (snd (visits cfg vs lp w)) = attempts_for s w).
Proof.
  induction 1 as [|v vs Hv _ IH]; intros lp w c Hc Hs; cbn zeta; cbn [visits].
  - unfold visits_to. cbn. rewrite Z.add_0_r. auto.
  - destruct (visit_warm_up cfg v lp w s c Hv Hc Hs) as (Vc & Vs & Va). cbn zeta in *.
    destruct (visit cfg v lp w) as [lp1 w1]. cbn [fst snd] in *.
    destruct (IH lp1 w1 _ Vc Vs) as [Is Ia]. cbn zeta in *.
    assert (Hcount : ((if String.eqb (visit_symbol v) s then c + 1 else c)
                      + Z.of_nat (visits_to s vs)
                      = c + Z.of_nat (visits_to s (v :: vs)))%Z).
    { unfold visits_to. cbn [List.filter].
      destruct (String.eqb (visit_symbol v) s); cbn [length]; lia. }
    rewrite Hcount in Is, Ia. split; [exact Is|].
    intros Hle. rewrite Ia by exact Hle. apply Va.
    unfold visits_to in Hle. cbn [List.filter] in Hle.
    destruct (String.eqb (visit_symbol v) s); cbn [length] in Hle; lia.
Qed.

(** X10.  Startup protection: counting from the start of the loop, a
    symbol's warm-up is over exactly when the loop has visited it more than
    [STARTUP_PROTECTION_CYCLES] times, and as long as it has not, no plan
    for the symbol reaches [place_trade], whatever plans were built and
    whatever the terminal says. *)
Theorem startup_protection_blocks_first_cycles (cfg : Config) (vs : list Visit)
    (s : string) (w : World) :
  (0 <= STARTUP_PROTECTION_CYCLES cfg)%Z ->
  Forall plan_for_visited_symbol vs ->
  let run := visits cfg vs new_loop w in
  started_of (executor (fst run)) s
  = (STARTUP_PROTECTION_CYCLES cfg <? Z.of_nat (visits_to s vs))%Z
  /\ ((Z.of_nat (visits_to s vs) <= STARTUP_PROTECTION_CYCLES cfg)%Z ->
      attempts_for s (snd run) = attempts_for s w).
Proof.
  intros Hn Hvs. cbn zeta.
  apply (visits_warm_up cfg vs s Hvs new_loop w 0%Z).
  - reflexivity.
  - symmetry. apply Z.ltb_ge. exact Hn.
Qed.

Lemma startup_protection_blocks_first_cycles_witness :
  started_of
    (executor (fst (visits default_config
                      [plan_visit scenario_plan; plan_visit other_plan;
                       plan_visit scenario_plan]
                      new_loop new_world))) "EURUSD" = false
  /\ attempts_for "EURUSD"
       (snd (visits default_config
               [plan_visit scenario_plan; plan_visit other_plan; plan_visit scenario_plan]
               new_loop new_world)) = 0%nat.
Proof.
  destruct (startup_protection_blocks_first_cycles default_config
              [plan_visit scenario_plan; plan_visit other_plan; plan_visit scenario_plan]
              "EURUSD" new_world) as [Hs Ha].
  - cbn. lia.
  - repeat constructor.
  - split; [exact Hs | apply Ha; cbn; lia].
Defined.

(** ** Execution coordinator: the cooldown *)

Lemma execute_plan_elsewhere (cfg : Config) (term : Terminal) (host : Host)
    (plan : TradePlan) (ex : Executor) (w : World) (s : string) :
  symbol plan <> s ->
  _last_open_time (fst (snd (execute_plan cfg term host plan ex w))) !! s
  = _last_open_time ex !! s
  /\ _journal_logged_signature (fst (snd (execute_plan cfg term host plan ex w))) !! s
     = _journal_logged_signature ex !! s.
Proof.
  intros Hne. unfold execute_plan.
  destruct (admission cfg term host (symbol plan) ex w) as [[reason|] w0].
  - destruct (_ || _);
      cbn [fst snd set_last_signal set_journal_signature _last_open_time
             _journal_logged_signature];
      (split; [reflexivity|]); try reflexivity.
    apply lookup_insert_ne. exact Hne.
  - destruct (place_trade cfg term _ w0) as [tk w1].
    destruct (ticket_truthy tk) eqn:Et.
    + destruct (read_clock host w1) as [now w2]. rewrite Et.
      cbn [orb fst snd set_last_signal set_journal_signature set_last_open_time
             _last_open_time _journal_logged_signature].
      split; apply lookup_insert_ne; exact Hne.
    + destruct (_ || _);
        cbn [fst snd set_last_signal set_journal_signature _last_open_time
               _journal_logged_signature];
        (split; [reflexivity|]); try reflexivity.
      apply lookup_insert_ne. exact Hne.
Qed.

Lemma visit_elsewhere (cfg : Config) (v : Visit) (lp : Loop) (w : World) (s : string) :
  plans_elsewhere s v ->
  _last_open_time (executor (fst (visit cfg v lp w))) !! s
  = _last_open_time (executor lp) !! s
  /\ _journal_logged_signature (executor (fst (visit cfg v lp w))) !! s
     = _journal_logged_signature (executor lp) !! s.
Proof.
  unfold plans_elsewhere, visit, loop_symbol.
  destruct (visit_built v) as [| |plan]; cbn [fst snd executor]; try (split; reflexivity).
  intros Hne.
  destruct (duplicate_plan (visit_symbol v) plan lp); cbn [fst snd executor];
    [split; reflexivity|].
  destruct (execute_plan_elsewhere cfg (visit_term v) (visit_host v) plan
              (tick_symbol cfg (visit_symbol v) (executor lp)) w s Hne) as [H1 H2].
  destruct (execute_plan cfg (visit_term v) (visit_host v) plan
              (tick_symbol cfg (visit_symbol v) (executor lp)) w) as [tk [ex' w']].
  cbn [fst snd executor] in *. split; assumption.
Qed.

Lemma visits_elsewhere (cfg : Config) (vs : list Visit) (s : string) :
  Forall (plans_elsewhere s) vs ->
  forall (lp : Loop) (w : World),
    _last_open_time (executor (fst (visits cfg vs lp w))) !! s
    = _last_open_time (executor lp) !! s
    /\ _journal_logged_signature (executor (fst (visits cfg vs lp w))) !! s
       = _journal_logged_signature (executor lp) !! s.
Proof.
  induction 1 as [|v vs Hv _ IH]; intros lp w; cbn [visits].
  - split; reflexivity.
  - destruct (visit_elsewhere cfg v lp w s Hv) as (H1 & H2).
    destruct (visit cfg v lp w) as [lp1 w1]. cbn [fst snd] in *.
    destruct (IH lp1 w1) as [I1 I2]. split; congruence.
Qed.

(** A truthy ticket stamps the symbol's opening time with the clock reading
    taken after the order; no ticket, no stamp. *)
Lemma execute_plan_stamp (cfg : Config) (term : Terminal) (host : Host)
    (plan : TradePlan) (ex : Executor) (w : World) :
  let run := execute_plan cfg term host plan ex w in
  (ticket_truthy (fst run) = true ->
   _last_open_time (fst (snd run)) !! symbol plan = Some (clock host (S (clock_reads w))))
  /\ (ticket_truthy (fst run) = false ->
      _last_open_time (fst (snd run)) = _last_open_time ex).
Proof.
  cbn zeta. unfold execute_plan. fold (with_comment host plan).
  pose proof (admission_outcome cfg term host (symbol plan) ex w) as Ha.
  destruct (admission cfg term host (symbol plan) ex w) as [[reason|] w0];
    cbn [fst snd] in Ha.
  - destruct (_ || _); cbn [fst snd]; (split; [discriminate | reflexivity]).
  - destruct Ha as [_ Hw0].
    destruct (place_trade_ledger cfg term (with_comment host plan) w0) as [Hc _].
    destruct (place_trade cfg term (with_comment host plan) w0) as [tk w1].
    cbn [snd] in Hc. subst w0. cbn [read_clock snd clock_reads] in Hc.
    destruct (ticket_truthy tk) eqn:Et.
    + unfold read_clock. rewrite Et.
      cbn [orb fst snd set_last_signal set_journal_signature set_last_open_time
             _last_open_time].
      split; [|rewrite Et; discriminate].
      intros _. rewrite Hc. apply lookup_insert_eq.
    + destruct (_ || _); cbn [fst snd set_last_signal set_journal_signature _last_open_time];
        (split; [rewrite Et; discriminate | reflexivity]).
Qed.




(** The skip in the witness above is a cooldown skip. *)
Example cooldown_skip_is_logged :
  let first := execute_plan default_config filling_terminal minute_host scenario_plan
                 warm_executor new_world in
  let opened := {| executor := fst (snd first); _last_plan_signature := ∅ |} in
  let mid := visits default_config [no_plan_visit "EURUSD"] opened (snd (snd first)) in
  let second := loop_symbol default_config filling_terminal ten_seconds_later "EURUSD"
                  (Built other_plan) (fst mid) (snd mid) in
  fst first = Some 42%Z
  /\ plan_skips (snd second) = [("EURUSD", cooldown)].
Proof. vm_compute. split; reflexivity. Qed.

(** ** Execution coordinator: the journal *)

Lemma signature_eqb_refl (a : Signature) : signature_eqb a a = true.
Proof.
  unfold signature_eqb. rewrite !String.eqb_refl. cbn [andb].
  apply Qeq_bool_iff. reflexivity.
Qed.

(** Which journal row [execute_plan] writes, and that the signature it
    leaves logged for the symbol is the plan's. *)
Lemma execute_plan_journal (cfg : Config) (term : Terminal) (host : Host)
    (plan : TradePlan) (ex : Executor) (w : World) :
  let run := execute_plan cfg term host plan ex w in
  journal_repeats plan (fst (snd run)) = true
  /\ (ticket_truthy (fst run) = true ->
      journal (snd (snd run))
      = (with_comment host plan, default 0%Z (fst run)) :: journal w)
  /\ (ticket_truthy (fst run) = false ->
      journal (snd (snd run))
      = if journal_repeats plan ex then journal w
        else (with_comment host plan, 0%Z) :: journal w).
Proof.
  cbn zeta. unfold execute_plan, journal_repeats. fold (with_comment host plan).
  rewrite (with_comment_signature host plan).
  pose proof (admission_outcome cfg term host (symbol plan) ex w) as Ha.
  destruct (admission cfg term host (symbol plan) ex w) as [[reason|] w0];
    cbn [fst snd] in Ha.
  - destruct Ha as (_ & _ & _ & _ & Hj & _).
    cbn [ticket_truthy orb].
    destruct (from_option _ false (_journal_logged_signature ex !! symbol plan)) eqn:Er;
      cbn [negb fst snd set_last_signal set_journal_signature _journal_logged_signature
             append_journal note_skip journal default].
    + split; [exact Er|]. split; [intros H; discriminate H | intros _; exact Hj].
    + rewrite lookup_insert_eq. cbn [from_option].
      split; [apply signature_eqb_refl|].
      split; [intros H; discriminate H | intros _; rewrite Hj; reflexivity].
  - destruct Ha as [_ Hw0].
    destruct (place_trade_ledger cfg term (with_comment host plan) w0) as [_ Hj].
    destruct (place_trade cfg term (with_comment host plan) w0) as [tk w1].
    cbn [snd] in Hj. subst w0. cbn [read_clock snd journal] in Hj.
    destruct (ticket_truthy tk) eqn:Et.
    + unfold read_clock. rewrite Et.
      cbn [orb fst snd set_last_signal set_journal_signature set_last_open_time
             _journal_logged_signature append_journal journal].
      rewrite lookup_insert_eq. cbn [from_option]. rewrite Et.
      split; [apply signature_eqb_refl|].
      split; [intros _; rewrite Hj; reflexivity | intros H; discriminate H].
    + cbn [orb].
      assert (Hzero : default 0%Z tk = 0%Z).
      { destruct tk as [z|]; [|reflexivity]. cbn in Et.
        apply negb_false_iff, Z.eqb_eq in Et. exact Et. }
      destruct (from_option _ false (_journal_logged_signature ex !! symbol plan)) eqn:Er;
        cbn [negb]; rewrite Et;
        cbn [orb fst snd set_last_signal set_journal_signature
               _journal_logged_signature append_journal journal]; rewrite Et.
      * split; [exact Er|]. split; [intros H; discriminate H | intros _; exact Hj].
      * rewrite lookup_insert_eq. cbn [from_option]. rewrite Hzero, Hj.
        split; [apply signature_eqb_refl|].
        split; [intros H; discriminate H | reflexivity].
Qed.

(** X12.  An unfilled plan is journalled once: after [execute_plan] has
    handled a plan, a later plan for the same symbol with the same
    normalized signature adds a journal row only if it opens a position
    (the row then carries its ticket); skipped or rejected, it adds none,
    whatever happened to other symbols and to the last-signal flag in
    between. *)
Theorem repeated_plan_journalled_once (cfg : Config) (term1 term2 : Terminal)
    (host1 host2 : Host) (plan1 plan2 : TradePlan) (between : list Visit) (ex : Executor)
    (sigs : gmap string Signature) (w : World) :
  let first := execute_plan cfg term1 host1 plan1 ex w in
  let logged := {| executor := fst (snd first); _last_plan_signature := sigs |} in
  let mid := visits cfg between logged (snd (snd first)) in
  let second := loop_symbol cfg term2 host2 (symbol plan2) (Built plan2) (fst mid) (snd mid) in
  symbol plan2 = symbol plan1 ->
  signature_eqb (_plan_signature plan1) (_plan_signature plan2) = true ->
  Forall (plans_elsewhere (symbol plan1)) between ->
  journal (snd second) = journal (snd mid)
  \/ exists tk, tk <> 0%Z
                /\ journal (snd second) = (with_comment host2 plan2, tk) :: journal (snd mid).
Proof.
  cbn zeta. intros Hsym Hsig Hbetween.
  destruct (execute_plan_journal cfg term1 host1 plan1 ex w) as (Hlogged & _).
  cbn zeta in Hlogged.
  destruct (visits_elsewhere cfg between (symbol plan1) Hbetween
              {| executor := fst (snd (execute_plan cfg term1 host1 plan1 ex w));
                 _last_plan_signature := sigs |}
              (snd (snd (execute_plan cfg term1 host1 plan1 ex w)))) as [_ Hkeep].
  cbn [executor] in Hkeep.
  destruct (visits cfg between _ _) as [lpm wm]. cbn [fst snd] in *.
  unfold loop_symbol.
  destruct (duplicate_plan (symbol plan2) plan2 lpm); [left; reflexivity|].
  assert (Hrep : journal_repeats plan2 (tick_symbol cfg (symbol plan2) (executor lpm)) = true).
  { unfold journal_repeats in *. cbn [tick_symbol _journal_logged_signature].
    rewrite Hsym, Hkeep.
    destruct (_journal_logged_signature
                (fst (snd (execute_plan cfg term1 host1 plan1 ex w))) !! symbol plan1)
      as [sg|]; [|discriminate].
    cbn [from_option] in *.
    apply (signature_eqb_trans _ (_plan_signature plan1)); [|exact Hlogged].
    rewrite signature_eqb_sym. exact Hsig. }
  destruct (execute_plan_journal cfg term2 host2 plan2
              (tick_symbol cfg (symbol plan2) (executor lpm)) wm) as (_ & Hyes & Hno).
  cbn zeta in Hyes, Hno. rewrite Hrep in Hno.
  destruct (execute_plan cfg term2 host2 plan2 (tick_symbol cfg (symbol plan2) (executor lpm))
              wm) as [tk [ex' w']].
  cbn [fst snd] in *.
  destruct (ticket_truthy tk) eqn:Et.
  - right. destruct tk as [z|]; [|discriminate]. exists z. split.
    + cbn in Et. apply negb_true_iff, Z.eqb_neq in Et. exact Et.
    + apply Hyes. reflexivity.
  - left. apply Hno. reflexivity.
Qed.

Lemma repeated_plan_journalled_once_witness :
  let first := execute_plan default_config rejecting_terminal minute_host scenario_plan
                 warm_executor new_world in
  let logged := {| executor := fst (snd first); _last_plan_signature := ∅ |} in
  let mid := visits default_config [no_plan_visit "EURUSD"] logged (snd (snd first)) in
  let second := loop_symbol default_config rejecting_terminal minute_host "EURUSD"
                  (Built scenario_plan) (fst mid) (snd mid) in
  journal (snd second) = journal (snd mid)
  \/ exists tk, tk <> 0%Z
                /\ journal (snd second)
                   = (with_comment minute_host scenario_plan, tk) :: journal (snd mid).
Proof.
  apply (repeated_plan_journalled_once default_config rejecting_terminal rejecting_terminal
           minute_host minute_host scenario_plan scenario_plan
           [no_plan_visit "EURUSD"] warm_executor ∅ new_world).
  - reflexivity.
  - vm_compute. reflexivity.
  - repeat constructor.
Defined.

(** In the witness above both plans reach the terminal and are rejected;
    the journal holds the one row of the first. *)
Example rejected_twice_journalled_once :
  let first := execute_plan default_config rejecting_terminal minute_host scenario_plan
                 warm_executor new_world in
  let logged := {| executor := fst (snd first); _last_plan_signature := ∅ |} in
  let mid := visits default_config [no_plan_visit "EURUSD"] logged (snd (snd first)) in
  let second := loop_symbol default_config rejecting_terminal minute_host "EURUSD"
                  (Built scenario_plan) (fst mid) (snd mid) in
  length (submissions (snd second)) = 2%nat
  /\ journal (snd second) = [(scenario_plan, 0%Z)].
Proof. vm_compute. split; reflexivity. Qed.

(** ** Execution coordinator: an accepted order without identifier *)

Lemma reaches_submission_with_comment (cfg : Config) (term : Terminal) (host : Host)
    (plan : TradePlan) :
  reaches_submission cfg term (with_comment host plan) = reaches_submission cfg term plan.
Proof.
  destruct (with_comment_fields host plan) as (Hs & _ & _ & Hl).
  unfold reaches_submission, venue_volume. rewrite Hs, Hl. reflexivity.
Qed.

Lemma admission_admitted (cfg : Config) (term : Terminal) (host : Host) (sym : string)
    (ex : Executor) (w : World) :
  admitted cfg term host sym ex w ->
  admission cfg term host sym ex w = (None, snd (read_clock host w)).
Proof.
  intros H. pose proof (admission_outcome cfg term host sym ex w) as Ha.
  destruct (admission cfg term host sym ex w) as [[reason|] w0]; cbn [fst snd] in Ha.
  - destruct Ha as [Hnot _]. contradiction.
  - destruct Ha as [_ ->]. reflexivity.
Qed.

(** X13.  An accepted order whose result names neither a deal nor an order
    is treated as not opened: [place_trade] returns the ticket [0], which is
    falsy, so [execute_plan] stamps no opening time (no cooldown follows)
    and journals the plan with ticket [0], the row of a skipped plan (or
    writes no row, when the signature last journalled for the symbol is the
    plan's own), although exactly one order went to the terminal and was
    accepted. *)
Theorem accepted_order_without_id_is_not_opened (cfg : Config) (term : Terminal)
    (host : Host) (plan : TradePlan) (ex : Executor) (w : World) (vol_ok : Q)
    (r : OrderResult) :
  admitted cfg term host (symbol plan) ex w ->
  reaches_submission cfg term plan = Some vol_ok ->
  quotes term (symbol plan) ->
  answers_at term (length (submissions w)) (Returns (Some r)) ->
  success_code term (retcode r) = true ->
  deal r = 0%Z ->
  order r = 0%Z ->
  let run := execute_plan cfg term host plan ex w in
  fst run = Some 0%Z
  /\ ticket_truthy (fst run) = false
  /\ (exists e, since w (snd (snd run)) = [e]
                /\ sub_answer e = Returns (Some r) /\ succeeded term e = true)
  /\ _last_open_time (fst (snd run)) = _last_open_time ex
  /\ journal (snd (snd run))
     = if journal_repeats plan ex then journal w
       else (with_comment host plan, 0%Z) :: journal w.
Proof.
  intros Hadm Hr Hq Ha Hs Hd Ho. cbn zeta.
  destruct (execute_plan_stamp cfg term host plan ex w) as [_ Hstamp].
  destruct (execute_plan_journal cfg term host plan ex w) as (_ & _ & Hjournal).
  cbn zeta in Hstamp, Hjournal.
  assert (Hrun : fst (execute_plan cfg term host plan ex w) = Some 0%Z
                 /\ exists e, submissions (snd (snd (execute_plan cfg term host plan ex w)))
                              = e :: submissions w
                              /\ sub_answer e = Returns (Some r)).
  { unfold execute_plan. fold (with_comment host plan).
    rewrite (admission_admitted cfg term host (symbol plan) ex w Hadm).
    rewrite <- (reaches_submission_with_comment cfg term host plan) in Hr.
    destruct (with_comment_fields host plan) as (Hsym & _).
    rewrite <- Hsym in Hq.
    remember (snd (read_clock host w)) as w0 eqn:Ew0.
    assert (Ha0 : answers_at term (length (submissions w0)) (Returns (Some r)))
      by (subst w0; exact Ha).
    destruct (place_trade_turn cfg term (with_comment host plan) w0 vol_ok _ Hr Hq Ha0)
      as (e & w1 & _ & Hans & Hw1 & Hpt).
    cbn [result_of _is_success] in Hpt. rewrite Hs in Hpt.
    cbn [fmap option_fmap option_map] in Hpt.
    unfold _extract_ticket_from_result in Hpt. rewrite Hd, Ho in Hpt.
    cbn [Z.eqb] in Hpt.
    rewrite Hpt. cbn [ticket_truthy Z.eqb negb orb].
    destruct (negb _); cbn [fst snd set_last_signal append_journal submissions];
      (split; [reflexivity|]); exists e; (split; [|exact Hans]);
      rewrite Hw1; subst w0; reflexivity. }
  destruct Hrun as (Hfst & e & Hsubs & Hans).
  assert (Hfalsy : ticket_truthy (fst (execute_plan cfg term host plan ex w)) = false)
    by (rewrite Hfst; reflexivity).
  split; [exact Hfst|]. split; [exact Hfalsy|].
  split.
  - exists e. split; [apply (since_app _ _ [e]); exact Hsubs|].
    split; [exact Hans|]. unfold succeeded. rewrite Hans. exact Hs.
  - split; [apply Hstamp; exact Hfalsy | apply Hjournal; exact Hfalsy].
Qed.

Lemma accepted_order_without_id_is_not_opened_witness :
  let run := execute_plan default_config anonymous_terminal minute_host scenario_plan
               warm_executor new_world in
  fst run = Some 0%Z
  /\ ticket_truthy (fst run) = false
  /\ (exists e, since new_world (snd (snd run)) = [e]
                /\ sub_answer e = Returns (Some accepted)
                /\ succeeded anonymous_terminal e = true)
  /\ _last_open_time (fst (snd run)) = _last_open_time warm_executor
  /\ journal (snd (snd run))
     = if journal_repeats scenario_plan warm_executor then journal new_world
       else (with_comment minute_host scenario_plan, 0%Z) :: journal new_world.
Proof.
  apply (accepted_order_without_id_is_not_opened default_config anonymous_terminal
           minute_host scenario_plan warm_executor new_world (1 # 10) accepted).
  - repeat split; try reflexivity. vm_compute. discriminate.
  - vm_compute. reflexivity.
  - intros n. cbn. discriminate.
  - intros req. reflexivity.
  - reflexivity.
  - reflexivity.
  - reflexivity.
Defined.

(** ** Risk gate (risk.py) and the loop's account snapshot (main.py) *)

Lemma drawdown_divisor_pos (equity_start : Q) : 0 < Qmax 1e-9 equity_start.
Proof.
  apply Qlt_le_trans with 1e-9; [reflexivity | apply Q.le_max_l].
Qed.

(** X14.  The risk gate is monotone in the current equity: if it allows
    trading at some equity, it allows it at every higher equity, the
    starting equity, the balance and the readers' answers being the same. *)
Theorem risk_gates_ok_monotone_in_equity (cfg : Config) (feeds : RiskFeeds)
    (equity_start balance equity equity' : Q) :
  equity <= equity' ->
  risk_gates_ok cfg feeds equity_start balance equity = true ->
  risk_gates_ok cfg feeds equity_start balance equity' = true.
Proof.
  intros Hle. unfold risk_gates_ok.
  pose proof (drawdown_divisor_pos equity_start) as Hpos.
  destruct (Qle_bool (MAX_DRAWDOWN_PCT cfg)
              ((equity_start - equity) / Qmax 1e-9 equity_start)) eqn:E; [discriminate|].
  intros H.
  apply Qle_bool_false in E.
  assert (E' : Qle_bool (MAX_DRAWDOWN_PCT cfg)
                 ((equity_start - equity') / Qmax 1e-9 equity_start) = false).
  { apply Qle_bool_false. eapply Qle_lt_trans; [|exact E].
    apply Qmult_le_compat_r.
    - apply Qplus_le_r, Qopp_le_compat. exact Hle.
    - apply Qlt_le_weak, Qinv_lt_0_compat. exact Hpos. }
  rewrite E'. exact H.
Qed.

Lemma risk_gates_ok_monotone_in_equity_witness :
  risk_gates_ok default_config quiet_feeds 10000 10000 9500 = true.
Proof.
  apply (risk_gates_ok_monotone_in_equity default_config quiet_feeds 10000 10000 9300 9500).
  - discriminate.
  - reflexivity.
Defined.

(** X15.  When the account snapshot taken at the start of the loop was
    unavailable, the starting equity is [0.0] and the drawdown gate, its
    threshold being positive, can no longer trip: for every non-negative
    equity the gate's answer is that of the daily-loss and
    consecutive-loss gates alone. *)
Theorem drawdown_gate_blind_without_start_equity (cfg : Config) (feeds : RiskFeeds)
    (acc_start : Answer (option AccountInfo)) (balance equity : Q) :
  unavailable acc_start ->
  0 <= equity ->
  0 < MAX_DRAWDOWN_PCT cfg ->
  risk_gates_ok cfg feeds (equity_of acc_start) balance equity
  = negb (daily_loss_trips cfg feeds balance) && negb (consecutive_loss_trips cfg feeds).
Proof.
  intros Hacc Heq Hmax.
  assert (Hes : equity_of acc_start = 0) by (destruct Hacc; subst; reflexivity).
  rewrite Hes. unfold risk_gates_ok.
  assert (E : Qle_bool (MAX_DRAWDOWN_PCT cfg) ((0 - equity) / Qmax 1e-9 0) = false).
  { apply Qle_bool_false. apply Qle_lt_trans with 0; [|exact Hmax].
    change (Qmax 1e-9 0) with 1e-9. unfold Qdiv.
    setoid_replace ((0 - equity) * / 1e-9) with (- (equity * / 1e-9)) using relation Qeq
      by ring.
    assert (0 <= equity * / 1e-9) by (apply Qmult_le_0_compat; [exact Heq | discriminate]).
    lra. }
  rewrite E.
  destruct (daily_loss_trips cfg feeds balance); [reflexivity|].
  destruct (consecutive_loss_trips cfg feeds); reflexivity.
Qed.

Lemma drawdown_gate_blind_without_start_equity_witness :
  risk_gates_ok default_config quiet_feeds (equity_of (Returns None)) 10000 1
  = negb (daily_loss_trips default_config quiet_feeds 10000)
    && negb (consecutive_loss_trips default_config quiet_feeds).
Proof.
  apply (drawdown_gate_blind_without_start_equity default_config quiet_feeds
           (Returns None) 10000 1).
  - right. reflexivity.
  - discriminate.
  - reflexivity.
Defined.

(** X16.  When the account snapshot of an iteration is unavailable, equity
    and balance are read as [0.0]; with a starting equity of at least [1e-9]
    and a drawdown threshold of at most 100%% the risk gate then denies and
    the iteration is abandoned: no symbol is visited, no plan executed, and
    the open positions get no breakeven, partial take-profit or trailing
    move. *)
Theorem account_outage_pauses_cycle (cfg : Config) (equity_start : Q) (c : Cycle)
    (lp : Loop) (st : OneShot) (w : World) :
  unavailable (cycle_account c) ->
  1e-9 <= equity_start ->
  MAX_DRAWDOWN_PCT cfg <= 1 ->
  risk_gates_ok cfg (cycle_feeds c) equity_start
    (balance_of (cycle_account c)) (equity_of (cycle_account c)) = false
  /\ trading_cycle cfg equity_start c lp st w = (lp, st, w).
Proof.
  intros Hacc Hes Hmax.
  assert (He : equity_of (cycle_account c) = 0) by (destruct Hacc as [H|H]; rewrite H; reflexivity).
  assert (Hgate : risk_gates_ok cfg (cycle_feeds c) equity_start
                    (balance_of (cycle_account c)) (equity_of (cycle_account c)) = false).
  { rewrite He. unfold risk_gates_ok.
    assert (E : Qle_bool (MAX_DRAWDOWN_PCT cfg)
                  ((equity_start - 0) / Qmax 1e-9 equity_start) = true).
    { apply Qle_bool_iff. apply Qle_trans with 1; [exact Hmax|].
      assert (Hm : Qmax 1e-9 equity_start == equity_start) by (apply Q.max_r; exact Hes).
      rewrite Hm.
      assert (Hnz : ~ equity_start == 0).
      { intros H0. rewrite H0 in Hes. apply Hes. reflexivity. }
      setoid_replace ((equity_start - 0) / equity_start) with 1 using relation Qeq
        by (field; exact Hnz).
      apply Qle_refl. }
    rewrite E. reflexivity. }
  split; [exact Hgate|].
  unfold trading_cycle. rewrite Hgate.
  destruct (cycle_in_session c); reflexivity.
Qed.

Lemma account_outage_pauses_cycle_witness :
  risk_gates_ok default_config (cycle_feeds outage_cycle) 10000
    (balance_of (cycle_account outage_cycle)) (equity_of (cycle_account outage_cycle)) = false
  /\ trading_cycle default_config 10000 outage_cycle new_loop no_one_shots new_world
     = (new_loop, no_one_shots, new_world).
Proof.
  apply (account_outage_pauses_cycle default_config 10000 outage_cycle new_loop
           no_one_shots new_world).
  - right. reflexivity.
  - discriminate.
  - discriminate.
Defined.

(** The sweep the outage suppressed would have moved the stop of the open
    position to breakeven and trailed it. *)
Example outage_leaves_stop_unmanaged :
  length (submissions
            (snd (manage_open_positions default_config (cycle_sweep outage_cycle)
                    true 0.5 no_one_shots new_world))) = 2%nat.
Proof. vm_compute. reflexivity. Qed.

(** ** Execution engine (trade.py): rounding a volume to the step *)

Lemma floor_of_nonneg (x : Q) : 0 <= x -> (0 <= Qfloor x)%Z.
Proof. intros H. apply (Qfloor_resp_le 0 x) in H. exact H. Qed.

Lemma decimal_grid_point (n : nat) (lo step : Q) (k : Z) :
  decimal n lo -> decimal n step -> decimal n (lo + inject_Z k * step).
Proof.
  intros [a Ha] [b Hb]. exists (a + k * b)%Z.
  rewrite Ha, Hb, inject_Z_plus, inject_Z_mult.
  field. apply pow10_nonzero.
Qed.

(** The adjustment in exact arithmetic: the whole number of steps below
    the clamped volume. *)
Lemma round_volume_to_step_floor (vol vol_min vol_max vol_step : Q) :
  0 < vol_step ->
  vol_min <= vol_max ->
  decimal (volume_digits vol_step) vol_min ->
  decimal (volume_digits vol_step) vol_step ->
  let v := _round_volume_to_step vol vol_min vol_max vol_step in
  let wanted := Qmax vol_min (Qmin vol vol_max) in
  vol_min <= v
  /\ v <= wanted
  /\ wanted <= vol_max
  /\ wanted < v + vol_step
  /\ exists n : Z, (0 <= n)%Z /\ v == vol_min + inject_Z n * vol_step.
Proof.
  intros Hstep Hbounds Hmin Hdec. cbn zeta.
  unfold _round_volume_to_step.
  assert (E0 : Qle_bool vol_step 0 = false) by (apply Qle_bool_false; exact Hstep).
  rewrite E0. fold (volume_digits vol_step).
  set (wanted := Qmax vol_min (Qmin vol vol_max)).
  assert (Hlo : vol_min <= wanted) by apply Q.le_max_l.
  assert (Hhi : wanted <= vol_max).
  { unfold wanted. apply Q.max_lub; [exact Hbounds | apply Q.le_min_r]. }
  set (x := (wanted - vol_min) / vol_step).
  assert (Hx : 0 <= x).
  { unfold x. apply Qle_shift_div_l; [exact Hstep|]. lra. }
  assert (Hxs : x * vol_step == wanted - vol_min).
  { unfold x. field. lra. }
  pose proof (floor_of_nonneg x Hx) as Hk.
  pose proof (Qfloor_le x) as Hfl.
  pose proof (Qlt_floor x) as Hfu.
  set (k := Qfloor x) in *.
  assert (Hk' : 0 <= inject_Z k) by (change 0 with (inject_Z 0); rewrite <- Zle_Qle; exact Hk).
  assert (Hdown : inject_Z k * vol_step <= wanted - vol_min).
  { rewrite <- Hxs. apply Qmult_le_compat_r; [exact Hfl | lra]. }
  assert (Hup : wanted - vol_min < inject_Z k * vol_step + vol_step).
  { rewrite <- Hxs. rewrite inject_Z_plus in Hfu.
    setoid_replace (inject_Z k * vol_step + vol_step)
      with ((inject_Z k + inject_Z 1) * vol_step) using relation Qeq by ring.
    apply Qmult_lt_compat_r; [exact Hstep | exact Hfu]. }
  assert (Hnn : 0 <= inject_Z k * vol_step) by (apply Qmult_le_0_compat; lra).
  assert (Eadj : Qltb (vol_min + inject_Z k * vol_step) vol_min = false).
  { unfold Qltb. apply negb_false_iff, Qle_bool_iff. lra. }
  rewrite Eadj.
  destruct (decimal_grid_point _ vol_min vol_step k Hmin Hdec) as [m Hm].
  pose proof (py_round_decimal _ _ m Hm) as Hround.
  rewrite Hround.
  repeat split; try lra.
  exists k. split; [exact Hk | exact Hround].
Qed.

(** X17.  [_round_volume_to_step] rounds down on the venue's grid: for a
    positive step and a minimum and step that are decimals of the precision
    it rounds to, the result is the minimum plus a whole number of steps,
    is not below the minimum, is above the requested volume clamped to the
    venue's bounds by no more than the slack, and is less than two steps
    below that clamped volume.  The program floors a double quotient, which
    can fall just short of the whole number the exact quotient is, and then
    returns one step less than the model does (0.29 for 0.3 lots with
    minimum and step 0.01); it can also reach a whole number the exact
    quotient is just short of.  The bounds leave room for both. *)
Theorem round_volume_to_step_rounds_down (vol vol_min vol_max vol_step : Q) :
  0 < vol_step ->
  vol_min <= vol_max ->
  decimal (volume_digits vol_step) vol_min ->
  decimal (volume_digits vol_step) vol_step ->
  let v := _round_volume_to_step vol vol_min vol_max vol_step in
  let wanted := Qmax vol_min (Qmin vol vol_max) in
  vol_min <= v
  /\ v <= wanted + volume_slack wanted vol_min
  /\ wanted <= vol_max
  /\ wanted < v + 2 * vol_step
  /\ exists n : Z, (0 <= n)%Z /\ v == vol_min + inject_Z n * vol_step.
Proof.
  intros Hstep Hbounds Hmin Hdec.
  pose proof (round_volume_to_step_floor vol vol_min vol_max vol_step
                Hstep Hbounds Hmin Hdec) as H.
  cbn zeta in *. destruct H as (H1 & H2 & H3 & H4 & H5).
  assert (Hs : 0 <= volume_slack (Qmax vol_min (Qmin vol vol_max)) vol_min).
  { apply slack_nonneg.
    pose proof (Qabs_nonneg (Qmax vol_min (Qmin vol vol_max))).
    pose proof (Qabs_nonneg vol_min). lra. }
  repeat split; try lra. exact H5.
Qed.

Lemma round_volume_to_step_rounds_down_witness :
  let v := _round_volume_to_step 0.057 0.01 100 0.01 in
  let wanted := Qmax 0.01 (Qmin 0.057 100) in
  0.01 <= v
  /\ v <= wanted + volume_slack wanted 0.01
  /\ wanted <= 100
  /\ wanted < v + 2 * 0.01
  /\ exists n : Z, (0 <= n)%Z /\ v == 0.01 + inject_Z n * 0.01.
Proof.
  apply (round_volume_to_step_rounds_down 0.057 0.01 100 0.01).
  - reflexivity.
  - discriminate.
  - exists 100%Z. reflexivity.
  - exists 100%Z. reflexivity.
Defined.

(** The volume of the witness above: 0.057 lots become 0.05. *)
Example round_volume_to_step_example :
  _round_volume_to_step 0.057 0.01 100 0.01 == 0.05.
Proof. reflexivity. Qed.

(** ** Zone detector (zones.py): how many levels, and where *)

Lemma round_half_even_mono (x y : Q) :
  x <= y -> (round_half_even x <= round_half_even y)%Z.
Proof.
  intros Hxy. unfold round_half_even.
  pose proof (Qfloor_resp_le x y Hxy) as Hfg.
  pose proof (Qfloor_le x) as Hx1. pose proof (Qlt_floor x) as Hx2.
  pose proof (Qfloor_le y) as Hy1. pose proof (Qlt_floor y) as Hy2.
  remember (Qfloor x) as f eqn:Ef. remember (Qfloor y) as g eqn:Eg.
  clear Ef Eg.
  destruct (Z.eq_dec f g) as [E|N].
  - subst g.
    destruct (Qcompare_spec (x - inject_Z f) (1 # 2)) as [H1|H1|H1];
      destruct (Qcompare_spec (y - inject_Z f) (1 # 2)) as [H2|H2|H2];
      destruct (Z.even f); try lia; exfalso; lra.
  - assert (Hlt : (f + 1 <= g)%Z) by lia.
    destruct (Qcompare (x - inject_Z f) (1 # 2));
      destruct (Qcompare (y - inject_Z g) (1 # 2));
      destruct (Z.even f); destruct (Z.even g); lia.
Qed.

Lemma py_round_mono (x y : Q) (n : nat) : x <= y -> py_round x n <= py_round y n.
Proof.
  intros Hxy. unfold py_round. rewrite !Qred_correct.
  apply Qmult_le_compat_r.
  - rewrite <- Zle_Qle. apply round_half_even_mono.
    apply Qmult_le_compat_r; [exact Hxy | apply Qlt_le_weak, pow10_pos].
  - apply Qlt_le_weak, Qinv_lt_0_compat, pow10_pos.
Qed.

Lemma sum_within (lo hi : Q) (l : list Q) :
  Forall (fun x => lo <= x /\ x <= hi) l ->
  inject_Z (Z.of_nat (length l)) * lo <= foldr Qplus 0 l
  /\ foldr Qplus 0 l <= inject_Z (Z.of_nat (length l)) * hi.
Proof.
  induction 1 as [|x l [Hx1 Hx2] _ [IH1 IH2]]; cbn [foldr length].
  - change (inject_Z (Z.of_nat 0)) with 0. split; lra.
  - rewrite Nat2Z.inj_succ, <- Z.add_1_r, inject_Z_plus.
    set (n := inject_Z (Z.of_nat (length l))) in *.
    change (inject_Z 1) with 1.
    setoid_replace ((n + 1) * lo) with (n * lo + lo) using relation Qeq by ring.
    setoid_replace ((n + 1) * hi) with (n * hi + hi) using relation Qeq by ring.
    split; lra.
Qed.

Lemma mean_within (lo hi : Q) (l : list Q) :
  l <> [] ->
  Forall (fun x => lo <= x /\ x <= hi) l ->
  lo <= mean l /\ mean l <= hi.
Proof.
  intros Hne Hall. destruct (sum_within lo hi l Hall) as [H1 H2].
  unfold mean.
  assert (Hn : 0 < inject_Z (Z.of_nat (length l))).
  { change 0 with (inject_Z 0). rewrite <- Zlt_Qlt.
    destruct l; [contradiction | cbn [length]; lia]. }
  split.
  - apply Qle_shift_div_l; [exact Hn|]. rewrite Qmult_comm. exact H1.
  - apply Qle_shift_div_r; [exact Hn|]. rewrite Qmult_comm. exact H2.
Qed.

Lemma cluster_run_within (lo hi tol : Q) (rest : list Q) :
  forall cur : list Q,
    cur <> [] ->
    Forall (fun x => lo <= x /\ x <= hi) cur ->
    Forall (fun x => lo <= x /\ x <= hi) rest ->
    Forall (fun x => lo <= x /\ x <= hi) (cluster_run tol cur rest).
Proof.
  induction rest as [|lv rest IH]; intros cur Hne Hcur Hrest; cbn [cluster_run].
  - constructor; [apply mean_within; assumption | constructor].
  - apply Forall_cons in Hrest as [Hlv Hrest].
    destruct (Qle_bool _ _).
    + apply IH; [|apply Forall_app; split; [exact Hcur | constructor; [exact Hlv | constructor]]
                 |exact Hrest].
      destruct cur; discriminate.
    + constructor; [apply mean_within; assumption|].
      apply IH; [discriminate | constructor; [exact Hlv | constructor] | exact Hrest].
Qed.

(** Every level that [_cluster_levels] returns is the rounded mean of a
    cluster of the sorted input. *)
Lemma cluster_levels_origin (levels : list Q) (pip mult : Q) (max_levels : nat) (q : Q) :
  q ∈ _cluster_levels levels pip mult max_levels ->
  exists first rest x,
    py_sorted Qle_bool levels = first :: rest
    /\ x ∈ cluster_run (cluster_tol pip mult) [first] rest
    /\ q = py_round x (cluster_prec pip).
Proof.
  unfold _cluster_levels.
  destruct (py_sorted Qle_bool levels) as [|first rest] eqn:Es.
  { intros H. apply elem_of_nil in H. contradiction. }
  set (clusters := cluster_run (cluster_tol pip mult) [first] rest).
  set (rounded := py_sorted Qle_bool
                    (py_set (map (fun x => py_round x (cluster_prec pip)) clusters))).
  assert (Hr : forall q, q ∈ rounded ->
                 exists x, x ∈ clusters /\ q = py_round x (cluster_prec pip)).
  { intros q' Hq'. unfold rounded in Hq'. rewrite py_sorted_perm in Hq'.
    assert (Hall : Forall (fun q => exists x, x ∈ clusters
                                              /\ q = py_round x (cluster_prec pip))
                     (py_set (map (fun x => py_round x (cluster_prec pip)) clusters))).
    { apply py_set_Forall. apply Forall_forall. intros r Hr.
      apply list_elem_of_In, in_map_iff in Hr. destruct Hr as (x & <- & Hx).
      exists x. split; [apply list_elem_of_In; exact Hx | reflexivity]. }
    rewrite Forall_forall in Hall. apply Hall. exact Hq'. }
  intros Hq.
  assert (Hin : q ∈ rounded).
  { destruct (length rounded <=? max_levels)%nat; [exact Hq|].
    rewrite py_sorted_perm in Hq.
    set (sig := map (fun r => (r, support (cluster_tol pip mult) levels r)) rounded) in *.
    assert (Htop : map fst (take max_levels (py_sorted by_support_then_price sig))
                   `sublist_of` map fst (py_sorted by_support_then_price sig)).
    { rewrite <- firstn_map. apply sublist_take. }
    assert (Hperm : map fst (py_sorted by_support_then_price sig) ≡ₚ rounded).
    { rewrite <- (support_pairs_fst (cluster_tol pip mult) levels rounded).
      apply Permutation_map, py_sorted_perm. }
    rewrite <- Hperm. eapply elem_of_sublist; eassumption. }
  destruct (Hr q Hin) as (x & Hx & ->).
  exists first, rest, x. auto.
Qed.

Lemma cluster_levels_within (levels : list Q) (pip mult : Q) (max_levels : nat) (lo hi : Q) :
  Forall (fun x => lo <= x /\ x <= hi) levels ->
  Forall (level_within (cluster_prec pip) lo hi) (_cluster_levels levels pip mult max_levels).
Proof.
  intros Hall. apply Forall_forall. intros q Hq.
  destruct (cluster_levels_origin levels pip mult max_levels q Hq)
    as (first & rest & x & Es & Hx & ->).
  assert (Hsorted : Forall (fun x => lo <= x /\ x <= hi) (first :: rest)).
  { rewrite <- Es, py_sorted_perm. exact Hall. }
  apply Forall_cons in Hsorted as [Hf Hrest].
  assert (Hmeans : Forall (fun x => lo <= x /\ x <= hi)
                     (cluster_run (cluster_tol pip mult) [first] rest)).
  { apply cluster_run_within; [discriminate | constructor; [exact Hf | constructor]
                              | exact Hrest]. }
  rewrite Forall_forall in Hmeans. destruct (Hmeans x Hx) as [H1 H2].
  split; apply py_round_mono; assumption.
Qed.

Lemma cluster_levels_length (levels : list Q) (pip mult : Q) (max_levels : nat) :
  (length (_cluster_levels levels pip mult max_levels) <= length levels)%nat.
Proof.
  unfold _cluster_levels.
  pose proof (py_sorted_length Qle_bool levels) as Hlen.
  destruct (py_sorted Qle_bool levels) as [|first rest]; [cbn; lia|].
  set (clusters := cluster_run (cluster_tol pip mult) [first] rest).
  set (rounded := py_sorted Qle_bool
                    (py_set (map (fun x => py_round x (cluster_prec pip)) clusters))).
  assert (Hr : (length rounded <= length levels)%nat).
  { unfold rounded. rewrite py_sorted_length.
    etransitivity; [apply py_set_length|]. rewrite length_map.
    etransitivity; [apply cluster_run_length|]. cbn [length] in Hlen. lia. }
  destruct (length rounded <=? max_levels)%nat; [exact Hr|].
  rewrite py_sorted_length, length_map, length_take, py_sorted_length, length_map. lia.
Qed.

(** X18.  The zone detector respects its caps: [_cluster_levels] returns at
    most [max_levels] levels and never more than it was given,
    [compute_zones_from_tf] at most 60 and [compute_zones_for_symbol] at
    most [keep_top]. *)
Theorem zone_counts_are_capped (feed : Feed) (symbol : string) :
  (forall levels pip mult max_levels,
     (length (_cluster_levels levels pip mult max_levels) <= max_levels)%nat
     /\ (length (_cluster_levels levels pip mult max_levels) <= length levels)%nat)
  /\ (forall tf lookback_bars days_limit,
        (length (compute_zones_from_tf feed symbol tf lookback_bars days_limit) <= 60)%nat)
  /\ (forall tfs lookback_bars keep_top,
        (length (compute_zones_for_symbol feed symbol tfs lookback_bars keep_top)
         <= keep_top)%nat).
Proof.
  split; [|split].
  - intros levels pip mult max_levels. split.
    + exact (proj2 (proj2 (proj2 (cluster_levels_shape levels pip mult max_levels)))).
    + apply cluster_levels_length.
  - intros tf lookback_bars days_limit. unfold compute_zones_from_tf.
    destruct (fetch_rates feed symbol tf lookback_bars) as [[|b df]|]; try (cbn; lia).
    match goal with
    | |- context [match ?d with [] => [] | _ :: _ => _ end] => destruct d as [|b' df']
    end; [cbn; lia|].
    destruct (length (b' :: df') <? 5)%nat; [cbn; lia|].
    rewrite py_sorted_length.
    exact (proj2 (proj2 (proj2 (cluster_levels_shape _ _ _ _)))).
  - intros tfs lookback_bars keep_top. unfold compute_zones_for_symbol.
    destruct (_cluster_levels _ _ _ _) as [|m0 merged']; [cbn; lia|].
    rewrite py_sorted_length, length_map, length_take. lia.
Qed.

Lemma py_sorted_Forall {A : Type} (leb : A -> A -> bool) (P : A -> Prop) (l : list A) :
  Forall P l -> Forall P (py_sorted leb l).
Proof. intros H. rewrite py_sorted_perm. exact H. Qed.

Lemma lookups_Forall {A : Type} (P : A -> Prop) (l : list A) (idx : list nat) :
  Forall P l -> Forall P (omap (fun i => l !! i) idx).
Proof.
  intros H. apply Forall_forall. intros y Hy.
  apply list_elem_of_omap in Hy as (i & _ & Hi).
  rewrite Forall_forall in H. apply H. apply list_elem_of_lookup. exists i. exact Hi.
Qed.

Lemma raw_levels_within (lo hi : Q) (df : list Bar) :
  Forall (bar_within lo hi) df ->
  Forall (fun x => lo <= x /\ x <= hi) (raw_levels df).
Proof.
  intros H. unfold raw_levels.
  assert (Hh : Forall (fun x => lo <= x /\ x <= hi) (map bar_high df)).
  { apply Forall_map. eapply Forall_impl; [exact H|]. intros b (_ & _ & H1 & H2). auto. }
  assert (Hl : Forall (fun x => lo <= x /\ x <= hi) (map bar_low df)).
  { apply Forall_map. eapply Forall_impl; [exact H|]. intros b (H1 & H2 & _). auto. }
  repeat apply Forall_app_2.
  - apply lookups_Forall. exact Hh.
  - apply lookups_Forall. exact Hl.
  - apply py_set_Forall, Forall_take, py_sorted_Forall. exact Hh.
  - apply py_set_Forall, Forall_take, py_sorted_Forall. exact Hl.
Qed.

Lemma filter_Forall {A : Type} (f : A -> bool) (P : A -> Prop) (l : list A) :
  Forall P l -> Forall P (List.filter f l).
Proof.
  induction 1 as [|x l Hx _ IH]; cbn [List.filter]; [constructor|].
  destruct (f x); [constructor; assumption | exact IH].
Qed.

Lemma compute_zones_from_tf_within (feed : Feed) (symbol tf : string) (lookback_bars : nat)
    (days_limit : option Z) (lo hi : Q) :
  (forall df, fetch_rates feed symbol tf lookback_bars = Some df ->
              Forall (bar_within lo hi) df) ->
  Forall (level_within (cluster_prec (_symbol_pip symbol)) lo hi)
    (compute_zones_from_tf feed symbol tf lookback_bars days_limit).
Proof.
  intros Hdf. unfold compute_zones_from_tf.
  destruct (fetch_rates feed symbol tf lookback_bars) as [[|b df]|]; try constructor.
  specialize (Hdf _ eq_refl).
  assert (Hd : Forall (bar_within lo hi)
                 match days_limit with
                 | Some days =>
                     if (days =? 0)%Z then b :: df else _filter_last_days feed (b :: df) days
                 | None => b :: df
                 end).
  { destruct days_limit as [days|]; [|exact Hdf].
    destruct (days =? 0)%Z; [exact Hdf|]. apply filter_Forall. exact Hdf. }
  match goal with
  | |- context [match ?d with [] => [] | _ :: _ => _ end] => destruct d as [|b' df']
  end; [constructor|].
  destruct (length (b' :: df') <? 5)%nat; [constructor|].
  apply py_sorted_Forall, cluster_levels_within, raw_levels_within. exact Hd.
Qed.

Lemma level_within_rounded (prec : nat) (lo hi z : Q) :
  level_within prec (py_round lo prec) (py_round hi prec) z -> level_within prec lo hi z.
Proof.
  unfold level_within. intros [H1 H2].
  rewrite (py_round_fixed prec prec (py_round lo prec)) in H1
    by (try (exists lo; reflexivity); lia).
  rewrite (py_round_fixed prec prec (py_round hi prec)) in H2
    by (try (exists hi; reflexivity); lia).
  split; assumption.
Qed.

(** X19.  Zones never leave the price range of the bars they come from: if
    every high and low the terminal delivers for the symbol lies within
    [lo] and [hi], every level of [compute_zones_from_tf] and of
    [compute_zones_for_symbol] lies between [lo] and [hi] rounded to the
    level precision (6 decimals, 4 for yen pairs). *)
Theorem zones_lie_within_price_range (feed : Feed) (symbol : string) (lo hi : Q) :
  (forall tf lookback_bars df,
     fetch_rates feed symbol tf lookback_bars = Some df -> Forall (bar_within lo hi) df) ->
  (forall tf lookback_bars days_limit,
     Forall (level_within (cluster_prec (_symbol_pip symbol)) lo hi)
       (compute_zones_from_tf feed symbol tf lookback_bars days_limit))
  /\ (forall tfs lookback_bars keep_top,
        Forall (level_within (cluster_prec (_symbol_pip symbol)) lo hi)
          (compute_zones_for_symbol feed symbol tfs lookback_bars keep_top)).
Proof.
  intros Hbars. split.
  - intros tf lookback_bars days_limit.
    apply compute_zones_from_tf_within. apply Hbars.
  - intros tfs lookback_bars keep_top. unfold compute_zones_for_symbol.
    set (all_levels := concat _).
    set (pip := _symbol_pip symbol).
    assert (Hall : Forall (level_within (cluster_prec pip) lo hi) all_levels).
    { unfold all_levels. apply Forall_concat, Forall_map, Forall_forall.
      intros tf _. apply compute_zones_from_tf_within. apply Hbars. }
    pose proof (cluster_levels_within all_levels pip 8 (keep_top * 3) _ _ Hall) as Hm.
    destruct (cluster_levels_shape all_levels pip 8 (keep_top * 3)) as (Hr & _).
    set (merged := _cluster_levels all_levels pip 8 (keep_top * 3)) in *.
    destruct merged as [|m0 merged'] eqn:Em; [constructor|].
    rewrite <- Em in *. clear Em m0 merged'.
    set (significance := map (fun m => (m, support (pip * 8) all_levels m)) merged).
    set (chosen := take keep_top (py_sorted by_support_then_high_price significance)).
    assert (Hsub : map fst chosen
                   `sublist_of` map fst (py_sorted by_support_then_high_price significance)).
    { unfold chosen. rewrite <- firstn_map. apply sublist_take. }
    assert (Hperm : map fst (py_sorted by_support_then_high_price significance) ≡ₚ merged).
    { rewrite <- (support_pairs_fst (pip * 8) all_levels merged).
      apply Permutation_map, py_sorted_perm. }
    assert (Hin : forall q, q ∈ map fst chosen -> q ∈ merged).
    { intros q Hq. rewrite <- Hperm. eapply elem_of_sublist; eassumption. }
    assert (Hrc : Forall (rounded_to (cluster_prec pip)) (map fst chosen)).
    { rewrite Forall_forall in *. intros q Hq. apply Hr, Hin, Hq. }
    assert (Htop : map (fun x => py_round (fst x) 6) chosen = map fst chosen).
    { rewrite <- (map_map fst (fun q => py_round q 6)).
      rewrite <- (map_id (map fst chosen)) at 2.
      apply map_ext_Forall. eapply Forall_impl; [exact Hrc|].
      intros q Hq. apply (py_round_fixed (cluster_prec pip)); [exact Hq|].
      apply cluster_prec_le_6. }
    rewrite Htop. apply py_sorted_Forall.
    rewrite Forall_forall in *. intros q Hq.
    apply level_within_rounded, Hm, Hin, Hq.
Qed.

Lemma zones_lie_within_price_range_witness :
  (forall tf lookback_bars days_limit,
     Forall (level_within (cluster_prec (_symbol_pip "EURUSD")) 1 2)
       (compute_zones_from_tf five_bar_feed "EURUSD" tf lookback_bars days_limit))
  /\ (forall tfs lookback_bars keep_top,
        Forall (level_within (cluster_prec (_symbol_pip "EURUSD")) 1 2)
          (compute_zones_for_symbol five_bar_feed "EURUSD" tfs lookback_bars keep_top)).
Proof.
  apply (zones_lie_within_price_range five_bar_feed "EURUSD" 1 2).
  intros tf lookback_bars df. unfold fetch_rates.
  destruct (existsb (String.eqb tf) TIMEFRAME_MAP); [|discriminate].
  intros [= <-]. repeat constructor; discriminate.
Defined.

(** ** Zone detector: swing highs and lows *)

Lemma fold_max_upper (d : Q) (w : list Q) (x : Q) : x ∈ w -> x <= foldr Qmax d w.
Proof.
  induction w as [|y w IH]; intros H; [apply elem_of_nil in H; contradiction|].
  cbn [foldr]. apply elem_of_cons in H as [->|H].
  - apply Q.le_max_l.
  - apply Qle_trans with (foldr Qmax d w); [apply IH; exact H | apply Q.le_max_r].
Qed.

Lemma fold_max_attained (d : Q) (w : list Q) : foldr Qmax d w ∈ d :: w.
Proof.
  induction w as [|y w IH]; cbn [foldr]; [left|].
  destruct (Qmax_cases y (foldr Qmax d w)) as [E|E]; rewrite E.
  - right. left.
  - apply elem_of_cons in IH as [IH|IH]; [rewrite IH; left | right; right; exact IH].
Qed.

Lemma fold_min_lower (d : Q) (w : list Q) (x : Q) : x ∈ w -> foldr Qmin d w <= x.
Proof.
  induction w as [|y w IH]; intros H; [apply elem_of_nil in H; contradiction|].
  cbn [foldr]. apply elem_of_cons in H as [->|H].
  - apply Q.le_min_l.
  - apply Qle_trans with (foldr Qmin d w); [apply Q.le_min_r | apply IH; exact H].
Qed.

Lemma fold_min_attained (d : Q) (w : list Q) : foldr Qmin d w ∈ d :: w.
Proof.
  induction w as [|y w IH]; cbn [foldr]; [left|].
  destruct (Qmin_cases y (foldr Qmin d w)) as [E|E]; rewrite E.
  - right. left.
  - apply elem_of_cons in IH as [IH|IH]; [rewrite IH; left | right; right; exact IH].
Qed.

Lemma window_max_attained (w : list Q) : w <> [] -> window_max w ∈ w.
Proof.
  destruct w as [|y w]; [contradiction|]. intros _.
  change (foldr Qmax y (y :: w) ∈ y :: w).
  pose proof (fold_max_attained y (y :: w)) as H.
  apply elem_of_cons in H as [H|H]; [rewrite H; left | exact H].
Qed.

Lemma window_min_attained (w : list Q) : w <> [] -> window_min w ∈ w.
Proof.
  destruct w as [|y w]; [contradiction|]. intros _.
  change (foldr Qmin y (y :: w) ∈ y :: w).
  pose proof (fold_min_attained y (y :: w)) as H.
  apply elem_of_cons in H as [H|H]; [rewrite H; left | exact H].
Qed.

(** The window around [i] holds the values at [i - order .. i + order]. *)
Lemma window_elements (series : list Q) (order i : nat) (x : Q) :
  (order <= i)%nat ->
  x ∈ take (order + order + 1) (drop (i - order) series)
  <-> exists j, (i - order <= j <= i + order)%nat /\ series !! j = Some x.
Proof.
  intros Hi. rewrite elem_of_take. split.
  - intros (m & Hm & Hlt). rewrite lookup_drop in Hm.
    exists (i - order + m)%nat. split; [lia | exact Hm].
  - intros (j & Hj & Hx). exists (j - (i - order))%nat. split; [|lia].
    rewrite lookup_drop. replace (i - order + (j - (i - order)))%nat with j by lia.
    exact Hx.
Qed.

Lemma filter_seq_elem (f : nat -> bool) (a n i : nat) :
  i ∈ List.filter f (seq a n) <-> (a <= i < a + n)%nat /\ f i = true.
Proof. rewrite list_elem_of_In, filter_In, <- list_elem_of_In, elem_of_seq. tauto. Qed.

(** X20.  [_local_extrema] returns exactly the indices that have [order]
    bars on each side and whose value no bar of that window exceeds (swing
    highs), respectively undercuts (swing lows); equal neighbours do not
    disqualify an index, so every bar of a plateau is reported.  A series
    shorter than [2 * order + 1] has no window and yields nothing. *)
Theorem local_extrema_are_window_extremes (series : list Q) (order i : nat) :
  (i ∈ fst (_local_extrema series order) <->
   (order <= i)%nat /\ (i + order < length series)%nat
   /\ forall j x, (i - order <= j <= i + order)%nat -> series !! j = Some x ->
                  x <= default 0 (series !! i))
  /\ (i ∈ snd (_local_extrema series order) <->
      (order <= i)%nat /\ (i + order < length series)%nat
      /\ forall j x, (i - order <= j <= i + order)%nat -> series !! j = Some x ->
                     default 0 (series !! i) <= x).
Proof.
  unfold _local_extrema.
  destruct (length series <? order * 2 + 1)%nat eqn:En.
  - apply Nat.ltb_lt in En. cbn [fst snd].
    split; (split; [intros H; apply elem_of_nil in H; contradiction | intros (? & ? & _); lia]).
  - apply Nat.ltb_ge in En. cbn [fst snd]. rewrite !filter_seq_elem.
    assert (Hrange : (order <= i < order + (length series - order - order))%nat
                     <-> (order <= i)%nat /\ (i + order < length series)%nat) by lia.
    assert (Hcenter : (order <= i)%nat -> (i + order < length series)%nat ->
              default 0 (series !! i)
              ∈ take (order + order + 1) (drop (i - order) series)).
    { intros H1 H2. apply window_elements; [exact H1|]. exists i. split; [lia|].
      destruct (series !! i) as [c|] eqn:Ec; [reflexivity|].
      apply lookup_ge_None in Ec. lia. }
    assert (Hne : forall w : list Q, default 0 (series !! i) ∈ w -> w <> []).
    { intros w H ->. apply elem_of_nil in H. contradiction. }
    split.
    + split.
      * intros [Hr Hc]. apply Hrange in Hr as [H1 H2]. split; [exact H1|]. split; [exact H2|].
        apply andb_true_iff in Hc as [Hc _]. apply Qle_bool_iff in Hc.
        intros j x Hj Hx. eapply Qle_trans; [|exact Hc].
        apply fold_max_upper. apply window_elements; [exact H1|]. exists j. auto.
      * intros (H1 & H2 & Hall). split; [apply Hrange; auto|].
        specialize (Hcenter H1 H2).
        pose proof (window_max_attained _ (Hne _ Hcenter)) as Hmax.
        apply window_elements in Hmax as (j & Hj & Hx); [|exact H1].
        pose proof (Hall j _ Hj Hx) as Hle.
        pose proof (fold_max_upper _ _ _ Hcenter : _ <= window_max _) as Hge.
        apply andb_true_iff. split; [apply Qle_bool_iff; exact Hle|].
        apply Qeq_bool_iff, Qle_antisym; assumption.
    + split.
      * intros [Hr Hc]. apply Hrange in Hr as [H1 H2]. split; [exact H1|]. split; [exact H2|].
        apply andb_true_iff in Hc as [Hc _]. apply Qle_bool_iff in Hc.
        intros j x Hj Hx. eapply Qle_trans; [exact Hc|].
        apply fold_min_lower. apply window_elements; [exact H1|]. exists j. auto.
      * intros (H1 & H2 & Hall). split; [apply Hrange; auto|].
        specialize (Hcenter H1 H2).
        pose proof (window_min_attained _ (Hne _ Hcenter)) as Hmin.
        apply window_elements in Hmin as (j & Hj & Hx); [|exact H1].
        pose proof (Hall j _ Hj Hx) as Hle.
        pose proof (fold_min_lower _ _ _ Hcenter : window_min _ <= _) as Hge.
        apply andb_true_iff. split; [apply Qle_bool_iff; exact Hle|].
        apply Qeq_bool_iff, Qle_antisym; assumption.
Qed.

(** A plateau: both bars of equal height in the middle are swing highs. *)
Example plateau_reports_both_bars :
  fst (_local_extrema [1; 2; 3; 3; 2; 1] 2) = [2%nat; 3%nat].
Proof. reflexivity. Qed.

(** ** Pattern detector (swing_strategy.py): direction, touches, stop and target *)

(** X21.  A frame is never read both ways: the bullish and the bearish
    engulfing test cannot both hold on the same frame, and neither can the
    bullish and the bearish rejection-wick test for any ratio parameter
    below 1.5 (the default 0.4 included).  Frames with fewer than two rows
    pass no engulfing test. *)
Theorem candle_patterns_are_exclusive (df : option (list Bar)) (ratio : Q) :
  (_is_bullish_engulfing df && _is_bearish_engulfing df = false)
  /\ (ratio < 1.5 ->
      _is_rejection_wick df "bull" ratio && _is_rejection_wick df "bear" ratio = false)
  /\ (forall rows, df = Some rows -> (length rows < 2)%nat ->
      _is_bullish_engulfing df = false /\ _is_bearish_engulfing df = false).
Proof.
  split; [|split].
  - unfold _is_bullish_engulfing, _is_bearish_engulfing.
    destruct (df ≫= last_two) as [[prev cur]|]; [|reflexivity].
    destruct (Qltb (bar_close prev) (bar_open prev)) eqn:E1; [|reflexivity].
    destruct (Qltb (bar_open prev) (bar_close prev)) eqn:E2;
      [|rewrite !andb_false_r; reflexivity].
    apply Qltb_lt in E1, E2. exfalso. lra.
  - intros Hratio. unfold _is_rejection_wick.
    destruct (df ≫= last) as [c|]; [|reflexivity].
    destruct (Qle_bool (bar_high c - bar_low c) 0) eqn:Efull; [reflexivity|].
    cbn [String.eqb Ascii.eqb Bool.eqb].
    apply not_true_is_false. intros H.
    apply andb_true_iff in H as [Hb Hs].
    apply andb_true_iff in Hb as [Hb1 Hb2]. apply andb_true_iff in Hs as [Hs1 Hs2].
    apply Qle_bool_iff in Hb1, Hb2, Hs1, Hs2. apply Qle_bool_false in Efull.
    unfold candle_body, wick_top, wick_bottom in *.
    set (body := Qabs (bar_close c - bar_open c)) in *.
    assert (Hbody : 0 <= body) by apply Qabs_nonneg.
    assert (Hfactor : 1 < 1.5 / Qmax 1 ratio).
    { assert (Hm : 0 < Qmax 1 ratio)
        by (apply Qlt_le_trans with 1; [reflexivity | apply Q.le_max_l]).
      apply Qlt_shift_div_l; [exact Hm|].
      destruct (Qmax_cases 1 ratio) as [E|E]; rewrite E; lra. }
    set (factor := 1.5 / Qmax 1 ratio) in *.
    assert (Hscale : body <= body * factor).
    { setoid_replace body with (body * 1) using relation Qeq at 1 by ring.
      rewrite (Qmult_comm body 1), (Qmult_comm body factor).
      apply Qmult_le_compat_r; lra. }
    assert (Hzero : body == 0 \/ 0 < body).
    { destruct (Qlt_le_dec 0 body); [right; assumption | left; lra]. }
    destruct Hzero as [Hz|Hpos].
    + assert (Hx : Qmax (bar_open c) (bar_close c) == Qmin (bar_open c) (bar_close c)).
      { unfold body in Hz.
        assert (Hle : Qabs (bar_close c - bar_open c) <= 0) by lra.
        apply Qabs_Qle_condition in Hle as [Hl1 Hl2].
        assert (Heq : bar_close c == bar_open c) by lra.
        rewrite Heq. rewrite Q.max_id, Q.min_id. reflexivity. }
      lra.
    + assert (Hstrict : body < body * factor).
      { setoid_replace body with (body * 1) using relation Qeq at 1 by ring.
        rewrite (Qmult_comm body 1), (Qmult_comm body factor).
        apply Qmult_lt_compat_r; lra. }
      lra.
  - intros rows -> Hlen.
    unfold _is_bullish_engulfing, _is_bearish_engulfing.
    assert (E : Some rows ≫= last_two = None).
    { cbn. unfold last_two.
      destruct rows as [|a [|b rows]]; cbn [length] in Hlen; try lia; reflexivity. }
    rewrite E. split; reflexivity.
Qed.

Lemma candle_patterns_are_exclusive_witness :
  _is_rejection_wick (Some [hammer]) "bull" 0.4
  && _is_rejection_wick (Some [hammer]) "bear" 0.4 = false.
Proof.
  apply (proj1 (proj2 (candle_patterns_are_exclusive (Some [hammer]) 0.4))).
  reflexivity.
Defined.

Lemma filter_length_mono {A : Type} (f g : A -> bool) (l : list A) :
  (forall x, f x = true -> g x = true) ->
  (length (List.filter f l) <= length (List.filter g l))%nat.
Proof.
  intros Himp. induction l as [|x l IH]; cbn [List.filter]; [lia|].
  destruct (f x) eqn:Ef.
  - rewrite (Himp x Ef). cbn [length]. lia.
  - destruct (g x); cbn [length]; lia.
Qed.

(** X22.  Widening the tolerance never loses a zone touch: the number of
    bars that [_count_zone_touches] counts for a level grows with the
    tolerance, never exceeds the number of bars, and is zero for a missing
    frame. *)
Theorem zone_touches_grow_with_tolerance (df : option (list Bar)) (level tol tol' : Q) :
  tol <= tol' ->
  (_count_zone_touches df level tol <= _count_zone_touches df level tol')%nat
  /\ (_count_zone_touches df level tol' <= length (default [] df))%nat
  /\ _count_zone_touches None level tol' = 0%nat.
Proof.
  intros Htol. unfold _count_zone_touches.
  destruct df as [rows|]; cbn [default length]; [|repeat split; lia].
  split; [|split; [apply filter_length_bound | reflexivity]].
  apply filter_length_mono. intros b Hb.
  apply andb_true_iff in Hb as [H1 H2]. apply Qle_bool_iff in H1, H2.
  apply andb_true_iff. split; apply Qle_bool_iff; lra.
Qed.

Lemma zone_touches_grow_with_tolerance_witness :
  (_count_zone_touches (Some two_bar_entry) 1.1050 0.0001
   <= _count_zone_touches (Some two_bar_entry) 1.1050 0.0004)%nat
  /\ (_count_zone_touches (Some two_bar_entry) 1.1050 0.0004
      <= length (default [] (Some two_bar_entry)))%nat
  /\ _count_zone_touches None 1.1050 0.0004 = 0%nat.
Proof.
  apply (zone_touches_grow_with_tolerance (Some two_bar_entry) 1.1050 0.0001 0.0004).
  discriminate.
Defined.

Lemma entry_pip_pos (df_symbol : option string) : 0 < entry_pip df_symbol.
Proof.
  unfold entry_pip. destruct df_symbol as [s|]; [|reflexivity].
  destruct (String.eqb s ""); [reflexivity | apply pip_size_pos].
Qed.

Lemma last_is_Some {A : Type} (l : list A) : (0 < length l)%nat -> is_Some (last l).
Proof.
  intros H. destruct l as [|a l]; [cbn in H; lia|].
  rewrite last_cons. destruct (last l); eexists; reflexivity.
Qed.

Lemma entry_atr_defined (df_entry : list Bar) :
  (0 < length df_entry)%nat -> is_Some (entry_atr df_entry).
Proof.
  intros H. unfold entry_atr. destruct (14 <=? length df_entry)%nat; [eexists; reflexivity|].
  destruct (last_is_Some df_entry H) as [b Hb]. rewrite Hb. eexists. reflexivity.
Qed.

(** X23.  [_choose_sl_tp_from_rej] returns on every frame of at least two
    bars, and what it returns is stop and target on opposite sides of the
    entry (the close of the latest bar): the stop at least five pips away on
    the losing side, the target at least twice the stop distance away on
    the winning side, for shorts as for longs. *)
Theorem stop_and_target_bracket_entry (df_entry : list Bar) (df_symbol : option string)
    (rej_idx : option nat) (direction : string) (account_equity : Q) :
  ((2 <= length df_entry)%nat ->
   is_Some (_choose_sl_tp_from_rej df_entry df_symbol rej_idx direction account_equity))
  /\ forall entry sl tp,
       _choose_sl_tp_from_rej df_entry df_symbol rej_idx direction account_equity
       = Some (entry, sl, tp) ->
       (bar_close <$> last df_entry) = Some entry
       /\ if String.eqb direction "bear"
          then entry + 5 * entry_pip df_symbol <= sl /\ tp <= entry - 2 * (sl - entry)
          else sl <= entry - 5 * entry_pip df_symbol /\ entry + 2 * (entry - sl) <= tp.
Proof.
  unfold _choose_sl_tp_from_rej.
  set (n := length df_entry).
  set (idx := match rej_idx with
              | Some i => if (i <? 1)%nat || (n <=? i)%nat then Nat.max 1 (n - 2) else i
              | None => Nat.max 1 (n - 2)
              end).
  assert (Hidx : (2 <= n)%nat -> (1 <= idx < n)%nat).
  { intros Hn. unfold idx. destruct rej_idx as [i|]; [|lia].
    destruct (i <? 1)%nat eqn:E1; cbn [orb]; [lia|].
    destruct (n <=? i)%nat eqn:E2; [lia|].
    apply Nat.ltb_ge in E1. apply Nat.leb_gt in E2. lia. }
  pose proof (entry_pip_pos df_symbol) as Hpip.
  split.
  - intros Hn. destruct (Hidx Hn) as [H1 H2].
    destruct (lookup_lt_is_Some_2 df_entry idx H2) as [candle ->].
    destruct (last_is_Some df_entry ltac:(fold n; lia)) as [latest ->].
    destruct (entry_atr_defined df_entry ltac:(fold n; lia)) as [atr ->].
    destruct (lookup_lt_is_Some_2 df_entry (idx - 1) ltac:(fold n; lia)) as [before ->].
    cbn [mbind option_bind]. destruct (String.eqb direction "bear"); eexists; reflexivity.
  - intros entry sl tp.
    destruct (df_entry !! idx) as [candle|]; [|discriminate].
    destruct (last df_entry) as [latest|]; [|discriminate].
    destruct (entry_atr df_entry) as [atr|]; [|discriminate].
    destruct (df_entry !! (idx - 1)%nat) as [before|]; [|discriminate].
    cbn [mbind option_bind fmap option_fmap option_map].
    destruct (String.eqb direction "bear").
    + set (e0 := bar_close latest).
      set (sl0 := Qmax _ (e0 + 5 * entry_pip df_symbol)).
      set (tp0 := e0 - Qmax (Qabs (e0 - sl0) * 2) (atr * 2)).
      intros H. injection H as <- <- <-. split; [reflexivity|].
      assert (Hsl : e0 + 5 * entry_pip df_symbol <= sl0) by apply Q.le_max_r.
      split; [exact Hsl|].
      assert (Hrisk : Qabs (e0 - sl0) == sl0 - e0).
      { rewrite Qabs_neg by lra. ring. }
      pose proof (Q.le_max_l (Qabs (e0 - sl0) * 2) (atr * 2)) as Hm.
      rewrite Hrisk in Hm at 1. unfold tp0. lra.
    + set (e0 := bar_close latest).
      set (sl0 := Qmin _ (e0 - 5 * entry_pip df_symbol)).
      set (tp0 := e0 + Qmax (Qabs (e0 - sl0) * 2) (atr * 2)).
      intros H. injection H as <- <- <-. split; [reflexivity|].
      assert (Hsl : sl0 <= e0 - 5 * entry_pip df_symbol) by apply Q.le_min_r.
      split; [exact Hsl|].
      assert (Hrisk : Qabs (e0 - sl0) == e0 - sl0).
      { rewrite Qabs_pos by lra. reflexivity. }
      pose proof (Q.le_max_l (Qabs (e0 - sl0) * 2) (atr * 2)) as Hm.
      rewrite Hrisk in Hm at 1. unfold tp0. lra.
Qed.

Lemma stop_and_target_bracket_entry_witness :
  is_Some (_choose_sl_tp_from_rej two_bar_entry None None "bull" 10000)
  /\ forall entry sl tp,
       _choose_sl_tp_from_rej two_bar_entry None None "bull" 10000 = Some (entry, sl, tp) ->
       sl <= entry - 5 * entry_pip None /\ entry + 2 * (entry - sl) <= tp.
Proof.
  destruct (stop_and_target_bracket_entry two_bar_entry None None "bull" 10000) as [H1 H2].
  split; [apply H1; cbn; lia|].
  intros entry sl tp H. exact (proj2 (H2 entry sl tp H)).
Defined.

(** The levels of the witness frame: entry 1.1051, the stop a volatility
    buffer below the lower of the two lows, the target twice as far above
    the entry. *)
Example stop_and_target_example :
  match _choose_sl_tp_from_rej two_bar_entry None None "bull" 10000 with
  | Some (entry, sl, tp) => entry == 1.1051 /\ sl == 1.10266847 /\ tp == 1.10996306
  | None => False
  end.
Proof. cbn. repeat split; reflexivity. Qed.

(** ** Closed deals (position_watcher.py, metrics.py) *)

Lemma record_deal_keys (tk : Z) (pnl : Q) (sym : string) (closed : list (Z * ClosedTrade)) :
  map fst (record_deal tk pnl sym closed)
  = if bool_decide (tk ∈ map fst closed) then map fst closed else (map fst closed ++ [tk])%list.
Proof.
  induction closed as [|[k info] rest IH]; cbn [record_deal map fst].
  - rewrite bool_decide_eq_false_2 by apply not_elem_of_nil. reflexivity.
  - destruct (Z.eqb_spec k tk) as [->|Hne]; cbn [map fst].
    + rewrite bool_decide_eq_true_2 by left. reflexivity.
    + rewrite IH. case_bool_decide as Hin.
      * rewrite bool_decide_eq_true_2 by (right; exact Hin). reflexivity.
      * rewrite bool_decide_eq_false_2; [reflexivity|].
        intros [Heq|Hin']%elem_of_cons; [congruence | contradiction].
Qed.

Lemma record_deal_pnl (tk : Z) (pnl : Q) (sym : string) (closed : list (Z * ClosedTrade)) :
  sum_Q (map (fun item => ct_pnl (snd item)) (record_deal tk pnl sym closed))
  == sum_Q (map (fun item => ct_pnl (snd item)) closed) + pnl.
Proof.
  unfold sum_Q.
  induction closed as [|[k info] rest IH]; cbn [record_deal map foldr snd ct_pnl].
  - ring.
  - destruct (k =? tk)%Z; cbn [map foldr snd ct_pnl].
    + ring.
    + rewrite IH. ring.
Qed.

Lemma record_deal_deals (tk : Z) (pnl : Q) (sym : string) (closed : list (Z * ClosedTrade)) :
  list_sum (map (fun item => ct_deals (snd item)) (record_deal tk pnl sym closed))
  = S (list_sum (map (fun item => ct_deals (snd item)) closed)).
Proof.
  induction closed as [|[k info] rest IH]; cbn [record_deal].
  - reflexivity.
  - destruct (k =? tk)%Z; cbn [map snd ct_deals].
    + change (list_sum (?x :: ?l)) with (x + list_sum l)%nat.
      generalize (list_sum (map (fun item => ct_deals (snd item)) rest)). intros F. lia.
    + change (list_sum (?x :: ?l)) with (x + list_sum l)%nat. rewrite IH.
      generalize (list_sum (map (fun item => ct_deals (snd item)) rest)). intros F. lia.
Qed.

Lemma record_deal_NoDup (tk : Z) (pnl : Q) (sym : string) (closed : list (Z * ClosedTrade)) :
  NoDup (map fst closed) -> NoDup (map fst (record_deal tk pnl sym closed)).
Proof.
  intros H. rewrite record_deal_keys. case_bool_decide as Hin; [exact H|].
  apply NoDup_app. split; [exact H|]. split.
  - intros x Hx [->|Hx']%elem_of_cons; [contradiction | apply elem_of_nil in Hx'; exact Hx'].
  - apply NoDup_singleton.
Qed.

Lemma booked_pnl_cons (OUT : Z) (d : HistoryDeal) (deals : list HistoryDeal) :
  booked_pnl OUT (d :: deals)
  = match booked_ticket OUT d with
    | Some _ => aggregated d :: booked_pnl OUT deals
    | None => booked_pnl OUT deals
    end.
Proof.
  unfold booked_pnl. cbn [omap list_omap].
  destruct (booked_ticket OUT d); reflexivity.
Qed.

(** The first loop of [scan_history_and_update], from any dictionary. *)
Lemma closed_trades_fold (OUT : Z) (deals : list HistoryDeal) :
  forall closed : list (Z * ClosedTrade),
    NoDup (map fst closed) ->
    let closed' :=
      foldl (fun closed d =>
               if is_exit OUT d then
                 match py_or (hd_position_id d) (hd_order d) with
                 | None => closed
                 | Some tk => record_deal tk (aggregated d) (default "?" (hd_symbol d)) closed
                 end
               else closed) closed deals in
    NoDup (map fst closed')
    /\ sum_Q (map (fun item => ct_pnl (snd item)) closed')
       == sum_Q (map (fun item => ct_pnl (snd item)) closed) + sum_Q (booked_pnl OUT deals)
    /\ list_sum (map (fun item => ct_deals (snd item)) closed')
       = (list_sum (map (fun item => ct_deals (snd item)) closed)
          + length (booked_pnl OUT deals))%nat
    /\ (forall tk, tk ∈ map fst closed'
                   <-> tk ∈ map fst closed
                       \/ exists d, d ∈ deals /\ booked_ticket OUT d = Some tk).
Proof.
  induction deals as [|d deals IH]; intros closed Hnd; cbn zeta; cbn [foldl].
  - split; [exact Hnd|]. split; [unfold booked_pnl, sum_Q; cbn; ring|].
    split; [unfold booked_pnl; cbn [omap list_omap length]; rewrite Nat.add_0_r; reflexivity|].
    intros tk. split; [auto|]. intros [H|(d & Hd & _)]; [exact H|].
    apply elem_of_nil in Hd. contradiction.
  - rewrite booked_pnl_cons.
    assert (Hbt : booked_ticket OUT d
                  = if is_exit OUT d then py_or (hd_position_id d) (hd_order d) else None)
      by reflexivity.
    assert (Hother : booked_ticket OUT d = None ->
              let closed' :=
                foldl (fun closed d =>
                         if is_exit OUT d then
                           match py_or (hd_position_id d) (hd_order d) with
                           | None => closed
                           | Some tk =>
                               record_deal tk (aggregated d) (default "?" (hd_symbol d)) closed
                           end
                         else closed) closed deals in
              NoDup (map fst closed')
              /\ sum_Q (map (fun item => ct_pnl (snd item)) closed')
                 == sum_Q (map (fun item => ct_pnl (snd item)) closed)
                    + sum_Q (booked_pnl OUT deals)
              /\ list_sum (map (fun item => ct_deals (snd item)) closed')
                 = (list_sum (map (fun item => ct_deals (snd item)) closed)
                    + length (booked_pnl OUT deals))%nat
              /\ (forall tk, tk ∈ map fst closed'
                             <-> tk ∈ map fst closed
                                 \/ exists d', d' ∈ d :: deals
                                               /\ booked_ticket OUT d' = Some tk)).
    { intros Hnone. destruct (IH closed Hnd) as (I1 & I2 & I3 & I4). cbn zeta in *.
      split; [exact I1|]. split; [exact I2|]. split; [exact I3|].
      intros tk. rewrite I4. split.
      - intros [H|(d' & Hd' & Hb)]; [left; exact H|].
        right. exists d'. split; [right; exact Hd' | exact Hb].
      - intros [H|(d' & Hd' & Hb)]; [left; exact H|].
        apply elem_of_cons in Hd' as [->|Hd']; [congruence|].
        right. exists d'. auto. }
    destruct (is_exit OUT d) eqn:Ex; [|rewrite Hbt; apply Hother; exact Hbt].
    destruct (py_or (hd_position_id d) (hd_order d)) as [tk0|] eqn:Et;
      [|rewrite Hbt; apply Hother; exact Hbt].
    rewrite Hbt.
    destruct (IH (record_deal tk0 (aggregated d) (default "?" (hd_symbol d)) closed)
                (record_deal_NoDup _ _ _ _ Hnd)) as (I1 & I2 & I3 & I4).
    cbn zeta in *. split; [exact I1|].
    split; [rewrite I2, record_deal_pnl; unfold sum_Q; cbn [foldr]; ring|].
    split; [rewrite I3, record_deal_deals; cbn [length]; rewrite Nat.add_succ_r; reflexivity|].
    intros tk. rewrite I4, record_deal_keys. split.
    + intros [H|(d' & Hd' & Hb)].
      * case_bool_decide as Hin; [left; exact H|].
        apply elem_of_app in H as [H|H]; [left; exact H|].
        apply list_elem_of_singleton in H as ->. right. exists d.
        split; [left | exact Hbt].
      * right. exists d'. split; [right; exact Hd' | exact Hb].
    + intros [H|(d' & Hd' & Hb)].
      * left. case_bool_decide; [exact H | apply elem_of_app; left; exact H].
      * apply elem_of_cons in Hd' as [->|Hd'].
        -- left. rewrite Hbt in Hb. injection Hb as <-.
           case_bool_decide as Hin; [exact Hin|].
           apply elem_of_app. right. left.
        -- right. exists d'. auto.
Qed.

Lemma record_deal_counted (tk : Z) (pnl : Q) (sym : string)
    (closed : list (Z * ClosedTrade)) :
  Forall (fun item => (1 <= ct_deals (snd item))%nat) closed ->
  Forall (fun item => (1 <= ct_deals (snd item))%nat) (record_deal tk pnl sym closed).
Proof.
  induction 1 as [|[k info] rest Hk Hrest IH]; cbn [record_deal].
  - constructor; [cbn; lia | constructor].
  - destruct (k =? tk)%Z.
    + constructor; [cbn [snd ct_deals]; lia | assumption].
    + constructor; assumption.
Qed.

Lemma closed_trades_counted (OUT : Z) (deals : list HistoryDeal) :
  Forall (fun item => (1 <= ct_deals (snd item))%nat) (closed_trades OUT deals).
Proof.
  unfold closed_trades.
  assert (H : Forall (fun item : Z * ClosedTrade => (1 <= ct_deals (snd item))%nat) [])
    by constructor.
  revert H. generalize ([] : list (Z * ClosedTrade)).
  induction deals as [|d deals IH]; intros closed H; cbn [foldl]; [exact H|].
  apply IH. destruct (is_exit OUT d); [|exact H].
  destruct (py_or (hd_position_id d) (hd_order d)); [|exact H].
  apply record_deal_counted. exact H.
Qed.

Lemma counted_length (closed : list (Z * ClosedTrade)) :
  Forall (fun item => (1 <= ct_deals (snd item))%nat) closed ->
  (length closed <= list_sum (map (fun item => ct_deals (snd item)) closed))%nat.
Proof.
  induction 1 as [|item rest Hk _ IH]; [cbn; lia|].
  cbn [length map]. change (list_sum (?x :: ?l)) with (x + list_sum l)%nat.
  revert IH Hk.
  generalize (list_sum (map (fun item => ct_deals (snd item)) rest)).
  generalize (ct_deals (snd item)). generalize (length rest). intros a b c. lia.
Qed.

(** The dictionary [closed_trades] has the booked tickets as keys, and its
    figures add up to the booked deals'. *)
Lemma closed_positions_keys_and_sums (OUT : Z) (deals : list HistoryDeal) :
  NoDup (map fst (closed_trades OUT deals))
  /\ sum_Q (map row_pnl (scan_history_and_update OUT deals)) == sum_Q (booked_pnl OUT deals).
Proof.
  destruct (closed_trades_fold OUT deals [] (NoDup_nil_2 (A := Z))) as (H1 & H2 & _).
  cbn zeta in *. fold (closed_trades OUT deals) in *.
  split; [exact H1|].
  unfold scan_history_and_update. rewrite map_map. unfold row_pnl. cbn [fst snd].
  rewrite H2. unfold sum_Q. cbn. ring.
Qed.

(** X24.  [scan_history_and_update] journals each closed position once and
    conserves the money: its rows carry pairwise distinct tickets, namely
    the tickets of the exit deals that name a position or an order, and
    their profit-and-loss figures add up to the sum of profit, commission
    and swap over exactly those deals; entry deals and exits without ticket
    contribute nothing. *)
Theorem closed_positions_are_journalled_once (DEAL_ENTRY_OUT : Z)
    (deals : list HistoryDeal) :
  let rows := scan_history_and_update DEAL_ENTRY_OUT deals in
  NoDup (map row_ticket rows)
  /\ sum_Q (map row_pnl rows) == sum_Q (booked_pnl DEAL_ENTRY_OUT deals)
  /\ (forall tk, tk ∈ map row_ticket rows
                 <-> exists d, d ∈ deals /\ booked_ticket DEAL_ENTRY_OUT d = Some tk)
  /\ (length rows <= length (booked_pnl DEAL_ENTRY_OUT deals))%nat.
Proof.
  cbn zeta. unfold scan_history_and_update.
  destruct (closed_trades_fold DEAL_ENTRY_OUT deals [] (NoDup_nil_2 (A := Z)))
    as (H1 & H2 & H3 & H4).
  cbn zeta in *. fold (closed_trades DEAL_ENTRY_OUT deals) in *.
  rewrite !map_map. unfold row_ticket, row_pnl. cbn [fst snd].
  split; [exact H1|].
  split; [rewrite H2; unfold sum_Q; cbn; ring|].
  split.
  - intros tk. rewrite (H4 tk). split; [|auto].
    intros [H|H]; [apply elem_of_nil in H; contradiction | exact H].
  - rewrite length_map.
    etransitivity; [apply counted_length, closed_trades_counted|].
    rewrite H3. reflexivity.
Qed.

Lemma nonzero_keys_recorded (tk : Z) (pnl : Q) (sym : string)
    (closed : list (Z * ClosedTrade)) :
  (list_to_set (List.filter (fun k => negb (k =? 0)%Z)
                  (map fst (record_deal tk pnl sym closed))) : gset Z)
  = match py_or (Some tk) None with
    | Some tk' => {[tk']} ∪ list_to_set (List.filter (fun k => negb (k =? 0)%Z)
                                           (map fst closed))
    | None => list_to_set (List.filter (fun k => negb (k =? 0)%Z) (map fst closed))
    end.
Proof.
  rewrite record_deal_keys. unfold py_or.
  apply set_eq. intros x.
  assert (Hf : forall l : list Z,
            x ∈ (list_to_set (List.filter (fun k => negb (k =? 0)%Z) l) : gset Z)
            <-> x ∈ l /\ x <> 0%Z).
  { intros l. rewrite elem_of_list_to_set, list_elem_of_In, filter_In, <- list_elem_of_In.
    rewrite negb_true_iff, Z.eqb_neq. tauto. }
  case_bool_decide as Hin; destruct (Z.eqb_spec tk 0) as [Hz|Hz];
    rewrite ?elem_of_union, ?elem_of_singleton, !Hf, ?elem_of_app, ?list_elem_of_singleton.
  - tauto.
  - split; [tauto|]. intros [->|H]; [tauto | exact H].
  - split; [|tauto]. intros [[H| ->] Hx]; [tauto | contradiction].
  - split; [tauto|]. intros [->|H]; tauto.
Qed.

(** The loop of [_sum_deals_pnl_mt5] next to the first loop of
    [scan_history_and_update], over the same deals. *)
Lemma sum_deals_fold (OUT : Z) (deals : list HistoryDeal) :
  forall (s0 : Q) (S0 : gset Z) (closed : list (Z * ClosedTrade)),
    S0 = list_to_set (List.filter (fun k => negb (k =? 0)%Z) (map fst closed)) ->
    let result :=
      foldl (fun '(pnl_sum, closed_positions) d =>
               if is_exit OUT d then
                 (pnl_sum + aggregated d,
                  match py_or (py_or (hd_position_id d) (hd_order d)) None with
                  | Some tk => {[tk]} ∪ closed_positions
                  | None => closed_positions
                  end)
               else (pnl_sum, closed_positions))
            (s0, S0) deals in
    let closed' :=
      foldl (fun closed d =>
               if is_exit OUT d then
                 match py_or (hd_position_id d) (hd_order d) with
                 | None => closed
                 | Some tk => record_deal tk (aggregated d) (default "?" (hd_symbol d)) closed
                 end
               else closed) closed deals in
    fst result == s0 + sum_Q (map aggregated (List.filter (is_exit OUT) deals))
    /\ snd result
       = list_to_set (List.filter (fun k => negb (k =? 0)%Z) (map fst closed')).
Proof.
  induction deals as [|d deals IH]; intros s0 S0 closed HS; cbn zeta; cbn [foldl List.filter].
  - cbn [fst snd map]. split; [unfold sum_Q; cbn; ring | exact HS].
  - destruct (is_exit OUT d) eqn:Ex.
    + destruct (py_or (hd_position_id d) (hd_order d)) as [tk|] eqn:Et.
      * specialize (IH (s0 + aggregated d)
                      (match py_or (Some tk) None with
                       | Some tk' => {[tk']} ∪ S0
                       | None => S0
                       end)
                      (record_deal tk (aggregated d) (default "?" (hd_symbol d)) closed)).
        cbn zeta in IH. destruct IH as [I1 I2].
        { rewrite nonzero_keys_recorded, HS. reflexivity. }
        split; [|exact I2].
        rewrite I1. cbn [map]. unfold sum_Q. cbn [foldr]. ring.
      * specialize (IH (s0 + aggregated d) S0 closed HS).
        cbn zeta in IH. destruct IH as [I1 I2]. cbn [py_or] in *.
        split; [|exact I2].
        rewrite I1. cbn [map]. unfold sum_Q. cbn [foldr]. ring.
    + apply IH. exact HS.
Qed.

Lemma booked_pnl_when_ticketed (OUT : Z) (deals : list HistoryDeal) :
  exits_are_ticketed OUT deals ->
  booked_pnl OUT deals = map aggregated (List.filter (is_exit OUT) deals).
Proof.
  induction 1 as [|d deals Hd _ IH]; [reflexivity|].
  rewrite booked_pnl_cons. unfold booked_ticket. cbn [List.filter].
  destruct (is_exit OUT d); [|exact IH].
  destruct (py_or (hd_position_id d) (hd_order d)) as [tk|];
    [|exfalso; apply Hd; reflexivity].
  cbn [map]. rewrite IH. reflexivity.
Qed.

(** X25.  The daily figure of the risk gate agrees with the journal: over
    the same deals, [_sum_deals_pnl_mt5] counts exactly the rows of
    [scan_history_and_update] that carry a non-zero ticket, and its sum is
    the sum of profit, commission and swap over all exit deals rounded to
    cents, which is the rounded total of the journalled rows whenever every
    exit deal names a position or an order. *)
Theorem daily_pnl_agrees_with_journal (DEAL_ENTRY_OUT : Z) (deals : list HistoryDeal) :
  let rows := scan_history_and_update DEAL_ENTRY_OUT deals in
  fst (_sum_deals_pnl_mt5 DEAL_ENTRY_OUT deals)
  = length (List.filter (fun row => negb (row_ticket row =? 0)%Z) rows)
  /\ snd (_sum_deals_pnl_mt5 DEAL_ENTRY_OUT deals)
     = py_round (sum_Q (map aggregated (List.filter (is_exit DEAL_ENTRY_OUT) deals))) 2
  /\ (exits_are_ticketed DEAL_ENTRY_OUT deals ->
      snd (_sum_deals_pnl_mt5 DEAL_ENTRY_OUT deals) = py_round (sum_Q (map row_pnl rows)) 2).
Proof.
  cbn zeta.
  destruct (closed_positions_keys_and_sums DEAL_ENTRY_OUT deals) as (Hnd & Hsum).
  pose proof (sum_deals_fold DEAL_ENTRY_OUT deals 0 ∅ [] eq_refl) as Hfold.
  cbn zeta in Hfold. fold (closed_trades DEAL_ENTRY_OUT deals) in Hfold.
  unfold _sum_deals_pnl_mt5.
  destruct (foldl _ (0, ∅) deals) as [pnl_sum closed_positions].
  cbn [fst snd] in *. destruct Hfold as [Hs HS].
  assert (Hround : py_round pnl_sum 2
                   = py_round (sum_Q (map aggregated
                                        (List.filter (is_exit DEAL_ENTRY_OUT) deals))) 2).
  { apply py_round_comp. rewrite Hs. ring. }
  split; [|split; [exact Hround|]].
  - rewrite HS, size_list_to_set.
    + unfold scan_history_and_update.
      generalize (closed_trades DEAL_ENTRY_OUT deals). intros l.
      induction l as [|[k info] l IH]; [reflexivity|].
      cbn [map List.filter fst snd row_ticket]. unfold row_ticket at 1. cbn [fst].
      destruct (negb (k =? 0)%Z); cbn [length]; rewrite IH; reflexivity.
    + apply NoDup_ListNoDup, List.NoDup_filter, NoDup_ListNoDup. exact Hnd.
  - intros Hall. rewrite Hround. apply py_round_comp.
    rewrite Hsum, (booked_pnl_when_ticketed _ _ Hall). reflexivity.
Qed.

Lemma daily_pnl_agrees_with_journal_witness :
  snd (_sum_deals_pnl_mt5 1 history_of_the_day)
  = py_round (sum_Q (map row_pnl (scan_history_and_update 1 history_of_the_day))) 2.
Proof.
  apply (proj2 (proj2 (daily_pnl_agrees_with_journal 1 history_of_the_day))).
  repeat constructor; discriminate.
Defined.

(** The day of the witness: one closed position, 16.70 in all. *)
Example history_of_the_day_totals :
  _sum_deals_pnl_mt5 1 history_of_the_day = (1%nat, 16.7)
  /\ map row_ticket (scan_history_and_update 1 history_of_the_day) = [7%Z]
  /\ map (fun row => snd row) (scan_history_and_update 1 history_of_the_day) = [TP].
Proof. vm_compute. repeat split; reflexivity. Qed.

(** ** The session window (utils.py) *)

(** X26.  The session test treats a window that wraps midnight as the
    complement of the same window with start and end exchanged, and a
    window whose start and end coincide as empty: with
    [NEWYORK_START = NEWYORK_END] the loop is never inside the session. *)
Theorem session_window_wraps_midnight (tnow start_time end_time : Z) :
  (start_time = end_time -> in_ny_session tnow start_time end_time = false)
  /\ (start_time <> end_time ->
      in_ny_session tnow start_time end_time
      = negb (in_ny_session tnow end_time start_time))
  /\ ((end_time < start_time)%Z ->
      in_ny_session tnow start_time end_time = true
      <-> (start_time <= tnow)%Z \/ (tnow < end_time)%Z).
Proof.
  unfold in_ny_session. split; [|split].
  - intros ->. rewrite Z.leb_refl.
    destruct (Z.leb_spec end_time tnow), (Z.ltb_spec tnow end_time); try reflexivity; lia.
  - intros Hne.
    destruct (Z.leb_spec start_time end_time), (Z.leb_spec end_time start_time);
      destruct (Z.leb_spec start_time tnow), (Z.ltb_spec tnow end_time),
               (Z.leb_spec end_time tnow), (Z.ltb_spec tnow start_time);
      try reflexivity; lia.
  - intros Hwrap.
    destruct (Z.leb_spec start_time end_time); [lia|].
    rewrite orb_true_iff, Z.leb_le, Z.ltb_lt. tauto.
Qed.

Lemma session_window_wraps_midnight_witness :
  in_ny_session 0 46800000000 46800000000 = false
  /\ in_ny_session 3600000000 79200000000 21600000000
     = negb (in_ny_session 3600000000 21600000000 79200000000).
Proof.
  destruct (session_window_wraps_midnight 0 46800000000 46800000000) as (H1 & _).
  destruct (session_window_wraps_midnight 3600000000 79200000000 21600000000)
    as (_ & H2 & _).
  split; [apply H1; reflexivity | apply H2; discriminate].
Defined.

(** ** Position sizer (risk.py): more equity, no fewer lots *)

Lemma clamp_mono (lo hi x y : Q) : x <= y -> Qmax lo (Qmin hi x) <= Qmax lo (Qmin hi y).
Proof. intros H. apply Q.max_le_compat_l, Q.min_le_compat_l. exact H. Qed.

Lemma floor_to_step_mono (step x y : Q) :
  0 < step -> x <= y ->
  inject_Z (Qfloor (Qmax 0 x / step)) * step <= inject_Z (Qfloor (Qmax 0 y / step)) * step.
Proof.
  intros Hs Hxy. apply Qmult_le_compat_r; [|lra].
  rewrite <- Zle_Qle. apply Qfloor_resp_le.
  apply Qmult_le_compat_r; [apply Q.max_le_compat_l; exact Hxy|].
  apply Qlt_le_weak, Qinv_lt_0_compat. exact Hs.
Qed.

(** X27.  The position sizer is monotone in the equity: for a symbol whose
    tick value, tick size and contract size are positive and a
    non-negative risk percentage, [compute_lots] returns a volume at every
    equity, and a higher equity never gives a smaller one. *)
Theorem compute_lots_monotone_in_equity (cfg : Config) (info : SymbolInfo)
    (symbol : string) (entry sl equity equity' : Q) :
  0 < or_default (trade_tick_value info) 1 ->
  0 < or_default (trade_tick_size info) (pip_size symbol) ->
  0 < default 1 (trade_contract_size info) ->
  0 <= Qmin (RISK_PCT cfg) (MAX_RISK_PER_TRADE_PCT cfg) ->
  equity <= equity' ->
  exists v v',
    compute_lots cfg (Some info) symbol entry sl equity = Some v
    /\ compute_lots cfg (Some info) symbol entry sl equity' = Some v'
    /\ v <= v'.
Proof.
  intros Htv Hts Hcs Hpct Heq.
  assert (Hraw : exists r r',
            raw_lots cfg info symbol entry sl equity = Some r
            /\ raw_lots cfg info symbol entry sl equity' = Some r'
            /\ r <= r').
  { unfold raw_lots. destruct (String.eqb (POSITION_MODE cfg) "FIXED").
    - exists (LOTS_FIXED cfg), (LOTS_FIXED cfg). repeat split; apply Qle_refl.
    - set (stop_pips := Qmax 1e-9 (Qabs (entry - sl) / pip_size symbol)).
      set (vpp := or_default (trade_tick_value info) 1
                  * (pip_size symbol / or_default (trade_tick_size info) (pip_size symbol))).
      set (pct := Qmin (RISK_PCT cfg) (MAX_RISK_PER_TRADE_PCT cfg)) in *.
      assert (Hsp : 0 < stop_pips)
        by (apply Qlt_le_trans with 1e-9; [reflexivity | apply Q.le_max_l]).
      assert (Hvpp : 0 < vpp).
      { unfold vpp. apply Qmult_lt_0_compat; [exact Htv|].
        apply Qlt_shift_div_l; [exact Hts|]. rewrite Qmult_0_l. apply pip_size_pos. }
      assert (Hden : 0 < stop_pips * vpp) by (apply Qmult_lt_0_compat; assumption).
      rewrite !py_div_defined by lra. cbn [mbind option_bind].
      rewrite !py_div_defined by lra.
      eexists _, _. split; [reflexivity|]. split; [reflexivity|].
      apply Qmult_le_compat_r; [|apply Qlt_le_weak, Qinv_lt_0_compat; exact Hcs].
      apply Qmult_le_compat_r; [|apply Qlt_le_weak, Qinv_lt_0_compat; exact Hden].
      apply Qmult_le_compat_r; [exact Heq | exact Hpct]. }
  destruct Hraw as (r & r' & Hr & Hr' & Hle).
  unfold compute_lots. cbn [mbind option_bind]. rewrite Hr, Hr'. cbn [mbind option_bind].
  eexists _, _. split; [reflexivity|]. split; [reflexivity|].
  apply py_round_mono, clamp_mono.
  destruct (Qltb 0 (lot_step_of info)) eqn:Es; [|exact Hle].
  apply Qltb_lt in Es. apply floor_to_step_mono; assumption.
Qed.

Lemma compute_lots_monotone_in_equity_witness :
  exists v v',
    compute_lots default_config (Some eurusd) "EURUSD" 1.1 1.095 10000 = Some v
    /\ compute_lots default_config (Some eurusd) "EURUSD" 1.1 1.095 12000 = Some v'
    /\ v <= v'.
Proof.
  apply (compute_lots_monotone_in_equity default_config eurusd "EURUSD" 1.1 1.095
           10000 12000).
  - reflexivity.
  - reflexivity.
  - reflexivity.
  - discriminate.
  - discriminate.
Defined.
